(** * GPT-Azure-Search-Engine: the tool wrappers of the Bing-chat and
    API-search notebooks

  A shallow embedding of the notebooks' own code: the display helper
  [printmd], the tools [MyBingSearch], [fetch_web_page]/[parse_html],
  [MyAPISearch] and [MySimpleAPISearch], the tool lists that are handed
  to the agent executor, and the cells that run the agents and show
  their answers.  Everything the notebooks call but do
  not define (the HTTP client, the language model, the search provider,
  the JSON codec) is an explicit environment: a tool is a computation
  that appends the external effects it performs to a trace. *)

From Stdlib Require Import String Ascii List ZArith Bool Arith Lia.
From Stdlib Require DecimalString.
Import ListNotations.
Open Scope string_scope.

(** ** Python values and exceptions *)

Module Py.

(** An exception object: its class and the text [str(e)] gives. *)
Record exn := mk_exn { exc_class : string; exc_text : string }.

Definition NotImplementedError (msg : string) : exn :=
  mk_exn "NotImplementedError" msg.
Definition ValueError (msg : string) : exn := mk_exn "ValueError" msg.

(** The classes of the standard library that derive from [BaseException]
    and not from [Exception]: an [except Exception] clause lets them
    pass. *)
Definition BASE_EXCEPTIONS : list string :=
  ["BaseException"; "KeyboardInterrupt"; "SystemExit"; "GeneratorExit"; "CancelledError"].

(** [isinstance(e, Exception)] *)
Definition isinstance_Exception (e : exn) : bool :=
  negb (existsb (String.eqb (exc_class e)) BASE_EXCEPTIONS).

(** The values a tool hands back.  A tool annotated [-> str] can still
    return any object, so the exception object is a value of its own. *)
#[warnings="-register-all"]
Inductive pyval :=
| PyNone
| PyStr (s : string)
| PyInt (z : Z)
| PyList (l : list pyval)
| PyDict (d : list (string * pyval))
| PyExc (e : exn).

(** [isinstance(v, str)] *)
Definition is_str (v : pyval) : bool :=
  match v with PyStr _ => true | _ => false end.

(** What a call does: return a value or raise. *)
Inductive outcome (A : Type) :=
| Return (a : A)
| Raise (e : exn).
Arguments Return {A} a.
Arguments Raise {A} e.

(** A [dict] with string keys, in insertion order. *)
Definition dict := list (string * string).

(** *** [str.replace]

    [replace_from skip old new s] scans [s] left to right; [skip] counts
    the characters of the occurrence of [old] just replaced that are still
    to be passed over, so occurrences never overlap. *)
Fixpoint replace_from (skip : nat) (old new s : string) : string :=
  match s with
  | EmptyString => EmptyString
  | String c s' =>
      match skip with
      | S k => replace_from k old new s'
      | O =>
          if prefix old s
          then new ++ replace_from (String.length old - 1) old new s'
          else String c (replace_from 0 old new s')
      end
  end.

(** With an empty [old] Python puts [new] around every character. *)
Fixpoint intersperse (new s : string) : string :=
  match s with
  | EmptyString => new
  | String c s' => new ++ String c (intersperse new s')
  end.

Definition str_replace (old new s : string) : string :=
  if (old =? "")%string then intersperse new s else replace_from 0 old new s.

(** [str.isspace] on an ASCII character *)
Definition isspace (c : ascii) : bool :=
  let n := nat_of_ascii c in
  (Nat.leb 9 n && Nat.leb n 13) || (Nat.leb 28 n && Nat.leb n 32).

(** [str.lstrip()], [str.rstrip()] and [str.strip()] *)
Fixpoint lstrip (s : string) : string :=
  match s with
  | EmptyString => EmptyString
  | String c s' => if isspace c then lstrip s' else s
  end.

Fixpoint rstrip (s : string) : string :=
  match s with
  | EmptyString => EmptyString
  | String c s' =>
      match rstrip s' with
      | EmptyString => if isspace c then EmptyString else String c EmptyString
      | r => String c r
      end
  end.

Definition strip (s : string) : string := rstrip (lstrip s).

(** What [BeautifulSoup] is given: text, or the [bytes] of a page. *)
Inductive markup :=
| of_str (s : string)
| of_bytes (b : string).

(** [c in s] for a one-character [c]. *)
Fixpoint contains_char (c : ascii) (s : string) : bool :=
  match s with
  | EmptyString => false
  | String d s' => Ascii.eqb c d || contains_char c s'
  end.

End Py.
Import Py.

Coercion of_str : string >-> markup.

(** ** Beautiful Soup over [html.parser]

    [parse_html] hands the page to [BeautifulSoup(content, 'html.parser')]
    and asks the resulting tree for its text.  The tokenizer is Python's
    [html.parser.HTMLParser]; it drives the tree builder through handler
    calls, the [event]s below.  A start tag is recorded without its
    attributes: the tree builder keeps them on the tag and [get_text] never
    reads them.  Where an attribute does change the text, it does so
    before the tokenizer runs, when a page given as [bytes] is decoded by
    the encoding it declares ([unicode_markup] of the environment). *)

Module Html.

Inductive event :=
| handle_starttag (tag : string)
| handle_endtag (tag : string)
| handle_data (data : string)
| handle_comment (data : string)
| handle_decl (decl : string)
| unknown_decl (data : string).

(** *** Characters *)

Definition code (c : ascii) : nat := nat_of_ascii c.

(** What [\s] matches among the ASCII characters. *)
Definition between (lo hi : nat) (c : ascii) : bool :=
  Nat.leb lo (code c) && Nat.leb (code c) hi.

Definition is_space (c : ascii) : bool := between 9 13 c || between 28 32 c.

Definition is_upper (c : ascii) : bool := between 65 90 c.
Definition is_lower (c : ascii) : bool := between 97 122 c.
Definition is_digit (c : ascii) : bool := between 48 57 c.
Definition is_letter (c : ascii) : bool := is_upper c || is_lower c.

Definition lower_char (c : ascii) : ascii :=
  if is_upper c then ascii_of_nat (code c + 32) else c.

(** [str.lower()] *)
Fixpoint lower (s : string) : string :=
  match s with
  | EmptyString => EmptyString
  | String c s' => String (lower_char c) (lower s')
  end.

Definition upper_char (c : ascii) : ascii :=
  if is_lower c then ascii_of_nat (code c - 32) else c.

(** [str.upper()] *)
Fixpoint upper (s : string) : string :=
  match s with
  | EmptyString => EmptyString
  | String c s' => String (upper_char c) (upper s')
  end.

Fixpoint all_ascii (s : string) : bool :=
  match s with
  | EmptyString => true
  | String c s' => Nat.ltb (code c) 128 && all_ascii s'
  end.

(** The character class [[^\t\n\r\f />\x00]] of a tag name. *)
Definition is_tagname_char (c : ascii) : bool :=
  negb (existsb (Nat.eqb (code c)) [9; 10; 13; 12; 32; 47; 62; 0]).

(** The character class [[-.a-zA-Z0-9:_]] of an end tag's name. *)
Definition is_endname_char (c : ascii) : bool :=
  is_letter c || is_digit c || existsb (Nat.eqb (code c)) [45; 46; 58; 95].

(** *** Scanning helpers (the regular expressions of [html.parser]) *)

(** [\s*] *)
Fixpoint skip_spaces (s : string) : string :=
  match s with
  | String c s' => if is_space c then skip_spaces s' else s
  | EmptyString => EmptyString
  end.

(** The longest prefix of characters satisfying [p], and the rest. *)
Fixpoint span (p : ascii -> bool) (s : string) : string * string :=
  match s with
  | String c s' =>
      if p c then let (a, b) := span p s' in (String c a, b) else (EmptyString, s)
  | EmptyString => (EmptyString, EmptyString)
  end.

(** [s] without the prefix [p], compared ignoring case ([re.I]); [p] is
    lower case. *)
Fixpoint strip_prefix_ci (p s : string) : option string :=
  match p, s with
  | EmptyString, _ => Some s
  | String a p', String b s' =>
      if Ascii.eqb a (lower_char b) then strip_prefix_ci p' s' else None
  | String _ _, EmptyString => None
  end.

(** [interesting_normal = re.compile('[&<]')] *)
Definition is_interesting_normal (c : ascii) : bool :=
  Ascii.eqb c "<" || Ascii.eqb c "&".

(** [s.startswith(p)]: the rest of [s] after the prefix [p]. *)
Fixpoint strip_prefix (p s : string) : option string :=
  match p, s with
  | EmptyString, _ => Some s
  | String a p', String b s' => if Ascii.eqb a b then strip_prefix p' s' else None
  | String _ _, EmptyString => None
  end.

(** [re.compile(r'</\s*%s\s*>' % cdata_elem, re.I).match]: the rest after
    the closing tag of the CDATA element, when [s] starts with one. *)
Definition match_cdata_close (cdata_elem s : string) : option string :=
  match strip_prefix "</" s with
  | Some r =>
      match strip_prefix_ci cdata_elem (skip_spaces r) with
      | Some r' => strip_prefix ">" (skip_spaces r')
      | None => None
      end
  | None => None
  end.

(** [.search] of the same expression: the text before the first closing
    tag and the rest after it. *)
Fixpoint search_cdata_close (cdata_elem s : string) : option (string * string) :=
  match match_cdata_close cdata_elem s with
  | Some rest => Some (EmptyString, rest)
  | None =>
      match s with
      | EmptyString => None
      | String c s' =>
          match search_cdata_close cdata_elem s' with
          | Some (data, rest) => Some (String c data, rest)
          | None => None
          end
      end
  end.

(** [commentclose = re.compile(r'--\s*>')], matched at the start of [s]. *)
Definition match_commentclose (s : string) : option string :=
  match strip_prefix "--" s with
  | Some r => strip_prefix ">" (skip_spaces r)
  | None => None
  end.

Fixpoint search_commentclose (s : string) : option (string * string) :=
  match match_commentclose s with
  | Some rest => Some (EmptyString, rest)
  | None =>
      match s with
      | EmptyString => None
      | String c s' =>
          match search_commentclose s' with
          | Some (data, rest) => Some (String c data, rest)
          | None => None
          end
      end
  end.

(** [_markedsectionclose = re.compile(r']\s*]\s*>')], matched at the start
    of [s]. *)
Definition match_markedsectionclose (s : string) : option string :=
  match strip_prefix "]" s with
  | Some r =>
      match strip_prefix "]" (skip_spaces r) with
      | Some r' => strip_prefix ">" (skip_spaces r')
      | None => None
      end
  | None => None
  end.

Fixpoint search_markedsectionclose (s : string) : option (string * string) :=
  match match_markedsectionclose s with
  | Some rest => Some (EmptyString, rest)
  | None =>
      match s with
      | EmptyString => None
      | String c s' =>
          match search_markedsectionclose s' with
          | Some (data, rest) => Some (String c data, rest)
          | None => None
          end
      end
  end.

(** [endtagfind] on the text after the two characters that open an end
    tag: spaces, a name (a letter, then letters, digits and [-.:_]),
    spaces and the closing bracket.  Returns the name and the rest. *)
Definition match_endtagfind (r : string) : option (string * string) :=
  match skip_spaces r with
  | String c _ as r1 =>
      if is_letter c then
        let (nm, r2) := span is_endname_char r1 in
        match strip_prefix ">" (skip_spaces r2) with
        | Some rest => Some (nm, rest)
        | None => None
        end
      else None
  | EmptyString => None
  end.

Definition is_some {A} (o : option A) : bool :=
  match o with Some _ => true | None => false end.

Definition CDATA_CONTENT_ELEMENTS : list string := ["script"; "style"].

Definition mem_string (x : string) (l : list string) : bool :=
  existsb (String.eqb x) l.

(** *** [HTMLParser.parse_starttag]

    The attributes of a start tag, up to its closing bracket.  An
    attribute is white space, a name (a letter, then letters, digits and
    [-.:_]) and, optionally, the equals sign and a value in double
    quotes.  [None] when the text is not of this form (a value that is
    not quoted, a slash, the end of the input).  Returns the rest after
    the closing bracket. *)
Definition quote : ascii := ascii_of_nat 34.

Definition is_not_quote (c : ascii) : bool := negb (Ascii.eqb c quote).

Definition starts_with_letter (name : string) : bool :=
  match name with
  | String c _ => is_letter c
  | EmptyString => false
  end.

Fixpoint skip_attrs (fuel : nat) (s : string) : option string :=
  match fuel with
  | O => None
  | S fuel' =>
      let s1 := skip_spaces s in
      match strip_prefix ">" s1 with
      | Some rest => Some rest
      | None =>
          if starts_with_letter s1 && Nat.ltb (String.length s1) (String.length s) then
            let (_, r) := span is_endname_char s1 in
            match strip_prefix (String "=" (String quote EmptyString)) r with
            | Some v =>
                let (_, r') := span is_not_quote v in
                match strip_prefix (String quote EmptyString) r' with
                | Some r'' => skip_attrs fuel' r''
                | None => None
                end
            | None => skip_attrs fuel' r
            end
          else None
      end
  end.

(** A start tag: the name runs up to white space, a slash or the closing
    bracket and is put in lower case; the attributes follow.  After the
    start tag of a CDATA content element the tokenizer is in CDATA mode.
    Returns the tag, the mode and the rest.  The attributes are not
    recorded: the text of the tree does not depend on them. *)
Definition parse_starttag (after_lt : string) : option (string * option string * string) :=
  let (nm, r) := span is_tagname_char after_lt in
  match skip_attrs (S (String.length r)) r with
  | Some rest =>
      let tag := lower nm in
      Some (tag, if mem_string tag CDATA_CONTENT_ELEMENTS then Some tag else None, rest)
  | None => None
  end.

(** [parse_html_declaration] on the text after the opening bracket, for a
    document type declaration: the first nine characters of the
    declaration are [<!doctype] in any case and it ends at the next
    closing bracket.  Returns the declaration, without the bracket and
    the exclamation mark, and the rest. *)
Definition parse_doctype (after_lt : string) : option (string * string) :=
  match strip_prefix_ci "!doctype" after_lt with
  | Some r =>
      let (d, r') := span (fun c => negb (Ascii.eqb c ">")) r in
      match strip_prefix ">" r' with
      | Some rest => Some (substring 1 7 after_lt ++ d, rest)
      | None => None
      end
  | None => None
  end.

(** *** [HTMLParser.goahead]

    The tokenizer on a complete document ([feed] followed by [close]), for
    the part of HTML made of text, start tags with attributes in double
    quotes, end tags, comments, the document type declaration, CDATA
    sections and [script]/[style] elements.  [None] says that the document
    leaves this part (a character reference, a tag closed by a slash,
    another declaration, an unfinished tag, a character outside ASCII):
    the model does not speak about it.  [fuel] bounds the iterations of the [while]
    loop. *)
Fixpoint goahead (fuel : nat) (cdata_elem : option string) (rawdata : string)
  : option (list event) :=
  match fuel with
  | O => None
  | S fuel' =>
      match rawdata with
      | EmptyString => Some []
      | String c0 after_c0 =>
          match cdata_elem with
          | Some elem =>
              (* only the closing tag of the element is interesting *)
              match search_cdata_close elem rawdata with
              | None => Some []
              | Some (data, rest) =>
                  let evs := [handle_endtag elem] in
                  let evs := if (data =? "")%string then evs else handle_data data :: evs in
                  option_map (app evs) (goahead fuel' None rest)
              end
          | None =>
              if negb (is_interesting_normal c0) then
                let (data, rest) := span (fun c => negb (is_interesting_normal c)) rawdata in
                option_map (cons (handle_data data)) (goahead fuel' None rest)
              else if Ascii.eqb c0 "&" then None
              else
                match after_c0 with
                | EmptyString => Some [handle_data "<"]
                | String c1 _ =>
                    if is_letter c1 then
                      match parse_starttag after_c0 with
                      | Some (tag, mode, rest) =>
                          option_map (cons (handle_starttag tag)) (goahead fuel' mode rest)
                      | None => None
                      end
                    else
                      match strip_prefix "/" after_c0 with
                      | Some r =>
                          (* parse_endtag *)
                          match match_endtagfind r with
                          | Some (nm, rest) =>
                              option_map (cons (handle_endtag (lower nm)))
                                (goahead fuel' None rest)
                          | None => None
                          end
                      | None =>
                          match strip_prefix "!--" after_c0 with
                          | Some r =>
                              (* parse_comment *)
                              match search_commentclose r with
                              | Some (data, rest) =>
                                  option_map (cons (handle_comment data))
                                    (goahead fuel' None rest)
                              | None => None
                              end
                          | None =>
                              if is_some (strip_prefix "?" after_c0) then None
                              else if is_some (strip_prefix "!" after_c0) then
                                (* parse_html_declaration *)
                                match strip_prefix_ci "![cdata[" after_c0 with
                                | Some r =>
                                    (* parse_marked_section *)
                                    match search_markedsectionclose r with
                                    | Some (data, rest) =>
                                        option_map
                                          (cons (unknown_decl (substring 2 6 after_c0 ++ data)))
                                          (goahead fuel' None rest)
                                    | None => None
                                    end
                                | None =>
                                    match parse_doctype after_c0 with
                                    | Some (decl, rest) =>
                                        option_map (cons (handle_decl decl))
                                          (goahead fuel' None rest)
                                    | None => None
                                    end
                                end
                              else
                                option_map (cons (handle_data "<"))
                                  (goahead fuel' None after_c0)
                          end
                      end
                end
          end
      end
  end.

(** [parser.feed(markup); parser.close()] *)
Definition HTMLParser_feed (markup : string) : option (list event) :=
  if all_ascii markup then goahead (S (String.length markup)) None markup else None.

(** *** The tree *)

(** The classes of strings in a tree. *)
Inductive string_class :=
| NavigableString | CData | Comment | Doctype | Declaration
| Script | Stylesheet | TemplateString
| RubyTextString | RubyParenthesisString.

Definition string_class_eqb (a b : string_class) : bool :=
  match a, b with
  | NavigableString, NavigableString | CData, CData | Comment, Comment
  | Doctype, Doctype | Declaration, Declaration
  | Script, Script | Stylesheet, Stylesheet | TemplateString, TemplateString
  | RubyTextString, RubyTextString
  | RubyParenthesisString, RubyParenthesisString => true
  | _, _ => false
  end.

#[warnings="-register-all"]
Inductive PageElement :=
| Str (cls : string_class) (s : string)
| Tag (name : string) (contents : list PageElement).

(** [HTMLTreeBuilder]: the tags whose strings get a class of their own,
    the tags that keep their whitespace and the tags without content. *)
Definition string_containers : list (string * string_class) :=
  [("rt", RubyTextString); ("rp", RubyParenthesisString);
   ("style", Stylesheet); ("script", Script); ("template", TemplateString)].

Definition preserve_whitespace_tags : list string := ["pre"; "textarea"].

Definition empty_element_tags : list string :=
  ["area"; "base"; "br"; "col"; "embed"; "hr"; "img"; "input"; "keygen";
   "link"; "menuitem"; "meta"; "param"; "source"; "track"; "wbr";
   "basefont"; "bgsound"; "command"; "frame"; "image"; "isindex";
   "nextid"; "spacer"].

Fixpoint assoc_string {A} (x : string) (l : list (string * A)) : option A :=
  match l with
  | [] => None
  | (k, v) :: l' => if (x =? k)%string then Some v else assoc_string x l'
  end.

(** *** The tree builder ([BeautifulSoup] as the parser's target)

    An open tag and the children it has received so far, last first. *)
Record frame := mk_frame { fname : string; fkids : list PageElement }.

Definition ROOT_TAG_NAME : string := "[document]".

Record builder := mk_builder {
  (** the open tags above the root, innermost first *)
  tagStack : list frame;
  (** the children of the root so far, last first *)
  root_kids : list PageElement;
  (** the text chunks not yet made into a string *)
  current_data : list string;
  already_closed_empty_element : list string
}.

Definition reset : builder := mk_builder [] [] [] [].

(** [string_container_stack[-1]]: the innermost open tag that has a string
    class of its own. *)
Fixpoint innermost_container (stack : list frame) : option string_class :=
  match stack with
  | [] => None
  | f :: fs =>
      match assoc_string (fname f) string_containers with
      | Some cls => Some cls
      | None => innermost_container fs
      end
  end.

(** [string_container(base_class)] *)
Definition string_container (b : builder) (base_class : option string_class)
  : string_class :=
  match base_class with
  | Some cls => cls
  | None =>
      match innermost_container (tagStack b) with
      | Some cls => cls
      | None => NavigableString
      end
  end.

(** [preserve_whitespace_tag_stack] is not empty *)
Definition preserving_whitespace (b : builder) : bool :=
  existsb (fun f => mem_string (fname f) preserve_whitespace_tags) (tagStack b).

Definition ASCII_SPACES : list nat := [32; 10; 9; 12; 13].

Fixpoint strippable (s : string) : bool :=
  match s with
  | EmptyString => true
  | String c s' => existsb (Nat.eqb (code c)) ASCII_SPACES && strippable s'
  end.

Definition newline : string := String (ascii_of_nat 10) EmptyString.

(** [object_was_parsed]: the new node becomes the last child of the
    current tag. *)
Definition object_was_parsed (o : PageElement) (b : builder) : builder :=
  match tagStack b with
  | [] => mk_builder [] (o :: root_kids b) (current_data b) (already_closed_empty_element b)
  | f :: fs =>
      mk_builder (mk_frame (fname f) (o :: fkids f) :: fs) (root_kids b)
        (current_data b) (already_closed_empty_element b)
  end.

Definition set_current_data (d : list string) (b : builder) : builder :=
  mk_builder (tagStack b) (root_kids b) d (already_closed_empty_element b).

(** [endData(containerClass)] *)
Definition endData (containerClass : option string_class) (b : builder) : builder :=
  match current_data b with
  | [] => b
  | _ =>
      let joined := String.concat "" (rev (current_data b)) in
      let joined :=
        if negb (preserving_whitespace b) && strippable joined
        then (if Py.contains_char (ascii_of_nat 10) joined then newline else " ")
        else joined in
      let cls := string_container b containerClass in
      object_was_parsed (Str cls joined) (set_current_data [] b)
  end.

(** [popTag]: the innermost open tag is complete. *)
Definition popTag (b : builder) : builder :=
  match tagStack b with
  | [] => b
  | f :: fs =>
      object_was_parsed (Tag (fname f) (rev (fkids f)))
        (mk_builder fs (root_kids b) (current_data b) (already_closed_empty_element b))
  end.

(** [_popToTag(name)]: when a tag of this name is open, close the open
    tags down to the innermost one of this name. *)
Fixpoint pop_through (name : string) (n : nat) (b : builder) : builder :=
  match n with
  | O => b
  | S n' =>
      match tagStack b with
      | [] => b
      | f :: _ =>
          if (fname f =? name)%string then popTag b
          else pop_through name n' (popTag b)
      end
  end.

Definition _popToTag (name : string) (b : builder) : builder :=
  if (name =? ROOT_TAG_NAME)%string then b
  else if mem_string name (map fname (tagStack b))
       then pop_through name (List.length (tagStack b)) b
       else b.

Definition pushTag (name : string) (b : builder) : builder :=
  mk_builder (mk_frame name [] :: tagStack b) (root_kids b) (current_data b)
    (already_closed_empty_element b).

Definition soup_handle_starttag (name : string) (b : builder) : builder :=
  pushTag name (endData None b).

Definition soup_handle_endtag (name : string) (b : builder) : builder :=
  _popToTag name (endData None b).

Fixpoint remove_first (x : string) (l : list string) : list string :=
  match l with
  | [] => []
  | y :: l' => if (x =? y)%string then l' else y :: remove_first x l'
  end.

(** [BeautifulSoupHTMLParser]: the handlers the tokenizer calls. *)
Definition on_event (ev : event) (b : builder) : builder :=
  match ev with
  | handle_starttag name =>
      let b := soup_handle_starttag name b in
      if mem_string name empty_element_tags then
        (* a tag without content is closed at once; an end tag that
           comes for it later is ignored *)
        let b := soup_handle_endtag name b in
        mk_builder (tagStack b) (root_kids b) (current_data b)
          (already_closed_empty_element b ++ [name])%list
      else b
  | handle_endtag name =>
      if mem_string name (already_closed_empty_element b) then
        mk_builder (tagStack b) (root_kids b) (current_data b)
          (remove_first name (already_closed_empty_element b))
      else soup_handle_endtag name b
  | handle_data data =>
      set_current_data (data :: current_data b) b
  | handle_comment data =>
      endData (Some Comment) (set_current_data [data] (endData None b))
  | handle_decl data =>
      (* the text after the word DOCTYPE and a space *)
      let data := substring 8 (String.length data - 8) data in
      endData (Some Doctype) (set_current_data [data] (endData None b))
  | unknown_decl data =>
      if is_some (strip_prefix "CDATA[" (upper data)) then
        let data := substring 6 (String.length data - 6) data in
        endData (Some CData) (set_current_data [data] (endData None b))
      else
        endData (Some Declaration) (set_current_data [data] (endData None b))
  end.

Fixpoint close_all (n : nat) (b : builder) : builder :=
  match n with
  | O => b
  | S n' => match tagStack b with [] => b | _ => close_all n' (popTag b) end
  end.

(** [BeautifulSoup._feed]: run the handlers, flush the text and close the
    tags still open; the result is the root of the tree. *)
Definition build (evs : list event) : PageElement :=
  let b := fold_left (fun b ev => on_event ev b) evs reset in
  let b := endData None b in
  let b := close_all (List.length (tagStack b)) b in
  Tag ROOT_TAG_NAME (rev (root_kids b)).

(** *** [get_text] *)

(** [descendants], keeping the strings. *)
Fixpoint _all_strings (e : PageElement) : list (string_class * string) :=
  match e with
  | Str cls s => [(cls, s)]
  | Tag _ contents => flat_map _all_strings contents
  end.

(** [Tag.interesting_string_types] of a tag that is no string container *)
Definition DEFAULT_INTERESTING_STRING_TYPES : list string_class :=
  [NavigableString; CData].

(** [soup.get_text()]: the strings of the interesting classes, joined. *)
Definition get_text (soup : PageElement) : string :=
  String.concat ""
    (map snd
       (filter (fun cs => existsb (string_class_eqb (fst cs)) DEFAULT_INTERESTING_STRING_TYPES)
          (_all_strings soup))).

End Html.

(** ** The data model of the reasoning loop *)

Module DataModel.

Record ToolSpec := mk_spec {
  spec_name : string;
  spec_description : string;
  input_schema : string
}.

Record ToolInvocation := mk_invocation {
  tool_name : string;
  input_payload : string;
  timestamp : nat
}.

Inductive ObservationResult :=
| text (s : string)
| error (s : string).

Record Observation := mk_observation {
  invocation : ToolInvocation;
  result : ObservationResult;
  duration : nat
}.

(** The pairs recorded for the tool calls of one turn, in request order. *)
Definition Turn := list (ToolInvocation * Observation).

Record Transcript := mk_transcript {
  question : string;
  turns : list Turn
}.

(** [len(Transcript)]: the recorded turns. *)
Definition len (t : Transcript) : nat := List.length (turns t).

(** The (invocation, observation) pairs of all turns. *)
Definition pairs (t : Transcript) : list (ToolInvocation * Observation) :=
  List.concat (turns t).

Inductive Termination := Answer | MaxStepsExceeded | Error.

Record LoopResult := mk_result {
  final_answer : string;
  transcript : Transcript;
  terminated_by : Termination
}.

Inductive OracleResponse :=
| ToolCalls (calls : list (string * string))
| FinalAnswer (answer : string).

End DataModel.
Import DataModel.

(** ** The outside world

  Every call that leaves the process is recorded.  The services behind
  the calls are an environment [Env]; each service sees the history of
  effects so far, so a live service may answer the same request
  differently at different times. *)

Module World.

Inductive effect :=
| ESleep (secs : Z)
| EHttpGet (url : string) (headers params : dict)
| EOracle (prompt : string)
| EBingSearch (query : string) (count : Z)
| EComplete (t : Transcript) (tool_specs : list ToolSpec)
| EDisplay (markdown : string).

Definition history := list effect.

(** [requests.Response]: the status and the body. *)
Record Response := mk_response { status_code : Z; content : string }.

(** One result of the search provider. *)
Record WebPage := mk_page { page_name : string; page_snippet : string; page_url : string }.

Record Env := mk_env {
  (** [requests.get(url, headers=..., params=...)] *)
  http : history -> string -> dict -> dict -> outcome Response;
  (** one completion of the language model for a prompt *)
  llm : history -> string -> outcome string;
  (** the search provider behind [BingSearchAPIWrapper] *)
  bing : history -> string -> Z -> outcome (list WebPage);
  (** the Oracle of the reasoning loop: [complete(transcript, tool_specs)] *)
  complete : history -> Transcript -> list ToolSpec -> outcome OracleResponse;
  (** [json.loads] on a response body, and [json.dumps] *)
  json_loads : string -> outcome pyval;
  json_dumps : pyval -> string;
  (** the framework's test that a url lies in one of the allowed domains *)
  in_allowed_domain : string -> list string -> bool;
  (** the handler calls of [html.parser.HTMLParser] on a document *)
  html_parser : string -> list Html.event;
  (** [UnicodeDammit(content).unicode_markup]: the text Beautiful Soup
      makes of a page that is given as [bytes], by the byte order mark,
      the encoding the page declares or the one a detector guesses *)
  unicode_markup : string -> string
}.

(** A computation: from the history so far to an outcome and the
    extended history.  The history survives a raised exception. *)
Definition M (A : Type) : Type := history -> outcome A * history.

Definition ret {A} (a : A) : M A := fun h => (Return a, h).
Definition raise {A} (e : exn) : M A := fun h => (Raise e, h).

Definition bind {A B} (m : M A) (k : A -> M B) : M B :=
  fun h =>
    match m h with
    | (Return a, h') => k a h'
    | (Raise e, h') => (Raise e, h')
    end.

(** [try: m  except Exception as e: handler e]: an exception that is no
    instance of [Exception] is not caught. *)
Definition try_except {A} (m : M A) (handler : exn -> M A) : M A :=
  fun h =>
    match m h with
    | (Return a, h') => (Return a, h')
    | (Raise e, h') => if isinstance_Exception e then handler e h' else (Raise e, h')
    end.

(** A pure step inside a computation. *)
Definition of_outcome {A} (o : outcome A) : M A := fun h => (o, h).

(** Perform one external effect whose answer is [answer]. *)
Definition perform {A} (ev : effect) (answer : history -> outcome A) : M A :=
  fun h => (answer h, (h ++ [ev])%list).

(** The effects a computation adds when started after [h]. *)
Definition effects_of {A} (m : M A) (h : history) : list effect :=
  skipn (List.length h) (snd (m h)).

Definition result_of {A} (m : M A) (h : history) : outcome A := fst (m h).

End World.
Import World.

Declare Scope py_scope.
Delimit Scope py_scope with py.
Notation "x <- m ;; k" := (bind m (fun x => k))
(at level 61, m at next level, right associativity) : py_scope.
Notation "m ;;; k" := (bind m (fun _ => k))
(at level 61, right associativity) : py_scope.
Open Scope py_scope.

(** ** The framework's tool interface ([langchain.tools.BaseTool]) *)

Record BaseTool := mk_tool {
  name : string;
  description : string;
  _run : string -> M pyval;
  (** the asynchronous entry point, when the tool has one *)
  _arun : option (string -> M pyval)
}.

(** [AgentExecutor(agent=agent, tools=tools, verbose=..., return_intermediate_steps=...)];
    the agent itself was created from the same tool list. *)
Record AgentExecutor := mk_executor {
  agent_tools : list BaseTool;
  tools : list BaseTool;
  verbose : bool;
  return_intermediate_steps : bool
}.

Definition create_openai_tools_agent (tools : list BaseTool) : list BaseTool := tools.

Definition nl : string := String (ascii_of_nat 10) EmptyString.

(** [display(Markdown(text))] *)
Definition display_Markdown (text : string) : M unit :=
  perform (EDisplay text) (fun _ => Return tt).

(** [sleep(secs)] *)
Definition sleep (secs : Z) : M unit :=
  perform (ESleep secs) (fun _ => Return tt).

(** ** Notebook 09-BingChatClone *)

Module BingChatClone.

(** The names the first cell binds, by its [import] statements and its
    [def]. *)
Definition IMPORTS : list string :=
  ["requests"; "Dict"; "List"; "Optional"; "Type"; "asyncio"; "ThreadPoolExecutor";
   "BeautifulSoup"; "hub"; "AsyncCallbackManagerForToolRun"; "CallbackManagerForToolRun";
   "BaseModel"; "Field"; "BaseTool"; "StructuredTool"; "tool"; "AzureChatOpenAI";
   "AgentExecutor"; "Tool"; "create_openai_tools_agent"; "CallbackManager";
   "initialize_agent"; "AgentType"; "BingSearchAPIWrapper"; "StdOutCallbackHandler";
   "BINGSEARCH_PROMPT"; "Markdown"; "HTML"; "display"; "printmd"; "load_dotenv"].

Section WithEnv.
Variable env : Env.

(** [def printmd(string): display(Markdown(string.replace("$","USD ")))] *)
Definition printmd (string : string) : M unit :=
  display_Markdown (str_replace "$" "USD " string).

(** [class MyBingSearch(BaseTool)] with its field [k: int = 5] *)
Record MyBingSearch := mk_MyBingSearch { k : Z }.

Definition MyBingSearch_default : MyBingSearch := mk_MyBingSearch 5.

(** [BaseTool(k=...)]: a keyword given at construction replaces the default. *)
Definition MyBingSearch_new (k : option Z) : MyBingSearch :=
  match k with
  | Some k => mk_MyBingSearch k
  | None => MyBingSearch_default
  end.

Record BingSearchAPIWrapper := mk_wrapper { wrapper_k : Z }.

(** [BingSearchAPIWrapper.results] of the framework: one request to the
    search provider for [num_results] results; each result is handed back
    as a [dict] with its snippet, its title and its link, and a provider
    that finds nothing is reported by one entry that says so. *)
Definition metadata_result (p : WebPage) : pyval :=
  PyDict [("snippet", PyStr (page_snippet p));
          ("title", PyStr (page_name p));
          ("link", PyStr (page_url p))].

Definition NO_RESULT : pyval :=
  PyDict [("Result", PyStr "No good Bing Search Result was found")].

Definition BingSearchAPIWrapper_results (bing_wrapper : BingSearchAPIWrapper)
    (query : string) (num_results : Z) : M pyval :=
  results <- perform (EBingSearch query num_results)
               (fun h => bing env h query num_results) ;;
  match results with
  | [] => ret (PyList [NO_RESULT])
  | _ => ret (PyList (map metadata_result results))
  end.

(** [MyBingSearch._run] *)
Definition MyBingSearch_run (self : MyBingSearch) (query : string) : M pyval :=
  let bing := mk_wrapper (k self) in
  BingSearchAPIWrapper_results bing query (k self).

(** [MyBingSearch._arun]: the same call, run in an executor thread. *)
Definition MyBingSearch_arun (self : MyBingSearch) (query : string) : M pyval :=
  let bing := mk_wrapper (k self) in
  BingSearchAPIWrapper_results bing query (k self).

Definition MyBingSearch_tool (self : MyBingSearch) : BaseTool :=
  mk_tool "Searcher" ("useful to search the internet." ++ nl)
    (MyBingSearch_run self) (Some (MyBingSearch_arun self)).

(** The text Beautiful Soup parses: a page given as text is taken as it
    is, a page given as [bytes] is decoded first. *)
Definition decoded (content : markup) : string :=
  match content with
  | of_str s => s
  | of_bytes b => unicode_markup env b
  end.

(** [BeautifulSoup(content, 'html.parser')] *)
Definition BeautifulSoup (content : markup) : Html.PageElement :=
  Html.build (html_parser env (decoded content)).

(** [def parse_html(content) -> str] *)
Definition parse_html (content : markup) : string :=
  let soup := BeautifulSoup content in
  let text_content_with_links := Html.get_text soup in
  text_content_with_links.

Definition HEADERS : dict :=
  [("User-Agent",
    "Mozilla/5.0 (Macintosh; Intel Mac OS X 10.15; rv:90.0) Gecko/20100101 Firefox/90.0")].

(** [def fetch_web_page(url: str) -> str]; [response.content] is the body
    as [bytes]. *)
Definition fetch_web_page (url : string) : M pyval :=
  response <- perform (EHttpGet url HEADERS [])
                (fun h => http env h url HEADERS []) ;;
  ret (PyStr (parse_html (of_bytes (content response)))).

(** [web_fetch_tool = Tool.from_function(func=fetch_web_page, ...)]: no
    [coroutine] is given, and the asynchronous entry point of the
    framework's [Tool] then runs [func]. *)
Definition web_fetch_tool : BaseTool :=
  mk_tool "WebFetcher" "useful to fetch the content of a url" fetch_web_page
    (Some fetch_web_page).

(** [tools = [MyBingSearch(k=5), web_fetch_tool]] *)
Definition tools : list BaseTool :=
  [MyBingSearch_tool (MyBingSearch_new (Some 5%Z)); web_fetch_tool].

Definition agent_executor : AgentExecutor :=
  let agent := create_openai_tools_agent tools in
  mk_executor agent tools false true.

End WithEnv.
End BingChatClone.

(** ** The API-search notebook *)

Module APISearch.

(** The names the first cell binds, by its [import] statements and its
    [def]. *)
Definition IMPORTS : list string :=
  ["os"; "json"; "requests"; "sleep"; "Dict"; "List"; "BaseModel"; "Extra";
   "root_validator"; "AzureChatOpenAI"; "AgentExecutor"; "create_openai_tools_agent";
   "CallbackManager"; "initialize_agent"; "AgentType"; "BaseTool"; "RequestsWrapper";
   "APIChain"; "StdOutCallbackHandler"; "num_tokens_from_string"; "reduce_openapi_spec";
   "APISEARCH_PROMPT"; "Markdown"; "HTML"; "display"; "load_dotenv"; "printmd"].

Section WithEnv.
Variable env : Env.

(** [def printmd(string): display(Markdown(string.replace("$","USD ")))] *)
Definition printmd (string : string) : M unit :=
  display_Markdown (str_replace "$" "USD " string).

(** *** [APIChain]

    The two prompts of the chain, as the notebook prints them. *)
Definition API_URL_PROMPT (api_docs question : string) : string :=
  "You are given the below API Documentation:" ++ nl ++ api_docs ++ nl ++
  "Using this documentation, generate the full API url to call for answering the user question." ++ nl ++
  "You should build the API url in order to get a response that is as short as possible, while still getting the necessary information to answer the question. Pay attention to deliberately exclude any unnecessary pieces of data in the API call." ++ nl ++ nl ++
  "Question:" ++ question ++ nl ++ "API url:".

Definition API_RESPONSE_PROMPT (api_docs question api_url api_response : string) : string :=
  API_URL_PROMPT api_docs question ++ " " ++ api_url ++ nl ++ nl ++
  "Here is the response from the API:" ++ nl ++ nl ++ api_response ++ nl ++ nl ++
  "Summarize this response to answer the original question." ++ nl ++ nl ++
  "Summary:".

Record APIChain := mk_chain {
  chain_api_docs : string;
  chain_headers : dict;
  chain_verbose : bool;
  chain_limit_to_domains : option (list string)
}.

(** What the validation of the chain raises for an empty list of domains. *)
Definition limit_to_domains_error : exn :=
  mk_exn "ValidationError"
    "Please provide a list of domains to limit access using `limit_to_domains`.".

(** [APIChain.from_llm_and_api_docs(llm=..., api_docs=..., headers=...,
    verbose=..., limit_to_domains=...)]: the chain is validated when it is
    built, and a list of domains that is given but empty is refused;
    [None] stands for no limit. *)
Definition APIChain_from_llm_and_api_docs (api_docs : string) (headers : dict)
    (verbose : bool) (limit_to_domains : option (list string)) : outcome APIChain :=
  match limit_to_domains with
  | Some [] => Raise limit_to_domains_error
  | _ => Return (mk_chain api_docs headers verbose limit_to_domains)
  end.

(** One completion of the language model. *)
Definition predict (prompt : string) : M string :=
  perform (EOracle prompt) (fun h => llm env h prompt).

(** Modelled from the spec: [APIChain.invoke] of the framework, which is
    not part of the notebooks.  It first asks the Oracle to synthesize a
    concrete request from the document and the query, issues that
    request, then asks the Oracle to summarize the raw response into an
    answer.  A chain that is limited to domains refuses a url outside
    them before any request is made.  The url is the Oracle's text
    without the white space around it; the chain hands back a [dict] with
    the question and, under [output], the answer. *)
Definition APIChain_invoke (chain : APIChain) (query : string) : M pyval :=
  api_url <- predict (API_URL_PROMPT (chain_api_docs chain) query) ;;
  let api_url := strip api_url in
  _ <- match chain_limit_to_domains chain with
       | Some (d :: ds) =>
           if in_allowed_domain env api_url (d :: ds) then ret tt
           else raise (ValueError (api_url ++ " is not in the allowed domains"))
       | _ => ret tt
       end ;;
  api_response <- perform (EHttpGet api_url (chain_headers chain) [])
                    (fun h => match http env h api_url (chain_headers chain) [] with
                              | Return r => Return (content r)
                              | Raise e => Raise e
                              end) ;;
  answer <- predict (API_RESPONSE_PROMPT (chain_api_docs chain) query api_url api_response) ;;
  ret (PyDict [("question", PyStr query); ("output", PyStr answer)]).

(** [class MyAPISearch(BaseTool)] *)
Record MyAPISearch := mk_MyAPISearch {
  api_spec : string;
  headers : dict;
  limit_to_domains : option (list string);
  tool_verbose : bool
}.

(** The defaults of the class: [headers = {}], [limit_to_domains = None],
    [verbose = False]. *)
Definition MyAPISearch_new (api_spec : string) (limit_to_domains : option (list string))
  : MyAPISearch :=
  mk_MyAPISearch api_spec [] limit_to_domains false.

(** [MyAPISearch._run] *)
Definition MyAPISearch_run (self : MyAPISearch) (query : string) : M pyval :=
  chain <- of_outcome (APIChain_from_llm_and_api_docs (api_spec self) (headers self)
                         (tool_verbose self) (limit_to_domains self)) ;;
  try_except
    (sleep 2 ;;; APIChain_invoke chain query)
    (fun e => ret (PyExc e)).

(** [MyAPISearch._arun] *)
Definition MyAPISearch_arun (self : MyAPISearch) (query : string) : M pyval :=
  raise (NotImplementedError "This Tool does not support async").

Definition MyAPISearch_tool (self : MyAPISearch) : BaseTool :=
  mk_tool "apisearch" ("useful when the questions includes the term: apisearch." ++ nl)
    (MyAPISearch_run self) (Some (MyAPISearch_arun self)).

(** [class MySimpleAPISearch(BaseTool)] *)
Record MySimpleAPISearch := mk_MySimpleAPISearch { api_key : string }.

Definition countdown_endpoint : string := "https://api.countdownapi.com/request".

Definition countdown_params (api_key query : string) : dict :=
  [("api_key", api_key);
   ("type", "search");
   ("ebay_domain", "ebay.com");
   ("search_term", query)].

(** [MySimpleAPISearch._run] *)
Definition MySimpleAPISearch_run (self : MySimpleAPISearch) (query : string) : M pyval :=
  let params := countdown_params (api_key self) query in
  api_result <- perform (EHttpGet countdown_endpoint [] params)
                  (fun h => http env h countdown_endpoint [] params) ;;
  try_except
    (match json_loads env (content api_result) with
     | Return v => ret (PyStr (json_dumps env v))
     | Raise e => raise e
     end)
    (fun e => ret (PyExc e)).

(** [MySimpleAPISearch._arun] *)
Definition MySimpleAPISearch_arun (self : MySimpleAPISearch) (query : string) : M pyval :=
  raise (NotImplementedError "This Tool does not support async").

Definition MySimpleAPISearch_tool (self : MySimpleAPISearch) : BaseTool :=
  mk_tool "apisearch" ("useful when the questions includes the term: apisearch." ++ nl)
    (MySimpleAPISearch_run self) (Some (MySimpleAPISearch_arun self)).

(** [tools = [MyAPISearch(llm=llm, api_spec=str(reduced_api_spec), limit_to_domains=None)]] *)
Definition tools_apichain (reduced_api_spec : string) : list BaseTool :=
  [MyAPISearch_tool (MyAPISearch_new reduced_api_spec None)].

Definition agent_executor_apichain (reduced_api_spec : string) : AgentExecutor :=
  let tools := tools_apichain reduced_api_spec in
  let agent := create_openai_tools_agent tools in
  mk_executor agent tools false true.

(** [tools = [MySimpleAPISearch(api_key='demo')]] *)
Definition tools_simple : list BaseTool :=
  [MySimpleAPISearch_tool (mk_MySimpleAPISearch "demo")].

Definition agent_executor_simple : AgentExecutor :=
  let agent := create_openai_tools_agent tools_simple in
  mk_executor agent tools_simple false true.

End WithEnv.
End APISearch.

(** ** Tool objects

    A tool is an object of a pydantic class of the framework: its fields,
    [name] and [description] among them, can be assigned, and whoever holds
    the object sees the assignment.  A registry is the store of the
    objects of a tool list, addressed by position; the statements are what
    code can do to a registered tool. *)

Module Registry.

Definition store := list BaseTool.

Inductive statement :=
(** the executor calls the tool of this name, [_arun] in an asynchronous
    run and [_run] otherwise *)
| tool_call (asynchronous : bool) (tool_name : string) (tool_input : string)
(** [tools[i].name = v] *)
| assign_name (i : nat) (v : string)
(** [tools[i].description = v] *)
| assign_description (i : nat) (v : string).

(** [{tool.name: tool for tool in tools}[tool_name]], first match *)
Fixpoint lookup (tool_name : string) (st : store) : option BaseTool :=
  match st with
  | [] => None
  | t :: st' => if (name t =? tool_name)%string then Some t else lookup tool_name st'
  end.

Fixpoint update (i : nat) (f : BaseTool -> BaseTool) (st : store) : store :=
  match st, i with
  | [], _ => []
  | t :: st', O => f t :: st'
  | t :: st', S i' => t :: update i' f st'
  end.

Definition entry_point (asynchronous : bool) (t : BaseTool) : string -> M pyval :=
  if asynchronous then
    match _arun t with
    | Some f => f
    | None => _run t
    end
  else _run t.

(** One statement: the store afterwards and what the world has seen.  The
    value or the exception of a tool call goes to the executor. *)
Definition exec (s : statement) (st : store) (h : history) : store * history :=
  match s with
  | tool_call asynchronous tool_name tool_input =>
      match lookup tool_name st with
      | Some t => (st, snd (entry_point asynchronous t tool_input h))
      | None => (st, h)
      end
  | assign_name i v =>
      (update i (fun t => mk_tool v (description t) (_run t) (_arun t)) st, h)
  | assign_description i v =>
      (update i (fun t => mk_tool (name t) v (_run t) (_arun t)) st, h)
  end.

Fixpoint exec_all (prog : list statement) (st : store) (h : history) : store * history :=
  match prog with
  | [] => (st, h)
  | s :: prog' => let (st', h') := exec s st h in exec_all prog' st' h'
  end.

Definition is_tool_call (s : statement) : bool :=
  match s with
  | tool_call _ _ _ => true
  | _ => false
  end.

(** What the notebooks do with a registry once it is assembled: they hand
    it to the executor and run the executor, which calls tools.  No cell
    and no method of a tool assigns a field of a tool.

    The tool calls of one run of the executor: the names and the inputs
    the model chooses, in order. *)
Definition run_calls (asynchronous : bool) (calls : list (string * string))
  : list statement :=
  map (fun c => tool_call asynchronous (fst c) (snd c)) calls.

(** The cells of 09-BingChatClone below the one that assembles the
    registry: [agent_executor.astream], [agent_executor.invoke] and
    [agent_executor.astream] again. *)
Definition cells_BingChatClone (run1 run2 run3 : list (string * string))
  : list statement :=
  (run_calls true run1 ++ run_calls false run2 ++ run_calls true run3)%list.

(** The cells of the API-search notebook below its first registry: the
    loop that runs [agent_executor.invoke] at most twice. *)
Definition cells_apichain (attempt1 attempt2 : list (string * string)) : list statement :=
  (run_calls false attempt1 ++ run_calls false attempt2)%list.

(** The cell below its second registry: [agent_executor.stream]. *)
Definition cells_simple (run : list (string * string)) : list statement :=
  run_calls false run.

End Registry.

(** ** The reasoning loop

    The notebooks only configure the agent executor of the framework; the
    loop itself is not their code. *)

Module Loop.
Section WithEnv.
Variable env : Env.

(** Modelled from the spec: the Tool contract [invoke(input) -> Observation]
    of the tool registry; the text a tool returns, or the exception it
    raises. *)
Record Tool := mk_loop_tool {
  tool_spec : ToolSpec;
  invoke : string -> M string
}.

Fixpoint find_tool (name : string) (registry : list Tool) : option Tool :=
  match registry with
  | [] => None
  | t :: rest =>
      if (spec_name (tool_spec t) =? name)%string then Some t else find_tool name rest
  end.

(** Modelled from the spec: the dispatch of one requested tool call.  A
    tool that raises yields an Observation carrying the error text; a
    request for a tool that is not registered is treated the same way. *)
Definition dispatch (registry : list Tool) (call : string * string)
  : M (ToolInvocation * Observation) :=
  fun h =>
    let inv := mk_invocation (fst call) (snd call) (List.length h) in
    match find_tool (fst call) registry with
    | None =>
        (Return (inv, mk_observation inv (error ("unknown tool: " ++ fst call)) 0), h)
    | Some t =>
        match invoke t (snd call) h with
        | (Return s, h') =>
            (Return (inv, mk_observation inv (text s) (List.length h' - List.length h)), h')
        | (Raise e, h') =>
            (Return (inv, mk_observation inv (error (exc_text e)) (List.length h' - List.length h)), h')
        end
    end.

(** The calls of one turn, dispatched and recorded in request order. *)
Fixpoint dispatch_all (registry : list Tool) (calls : list (string * string)) : M Turn :=
  match calls with
  | [] => ret []
  | call :: rest =>
      o <- dispatch registry call ;;
      os <- dispatch_all registry rest ;;
      ret (o :: os)
  end.

Inductive LoopState :=
| Thinking
| AwaitingTool (calls : list (string * string))
| Observing (turn : Turn)
| Answering (answer : string)
| Failed (why : Termination).

Record Run := mk_run {
  state : LoopState;
  run_transcript : Transcript;
  iterations : nat
}.

Definition initial (question : string) : Run :=
  mk_run Thinking (mk_transcript question []) 0.

Definition is_terminal (s : LoopState) : bool :=
  match s with
  | Answering _ | Failed _ => true
  | _ => false
  end.

(** Modelled from the spec: one transition of the state machine of the
    reasoning loop (transition rules 1 to 5). *)
Definition step (max_iterations : nat) (registry : list Tool) (r : Run) : M Run :=
  match state r with
  | Thinking =>
      if Nat.leb max_iterations (iterations r) then
        ret (mk_run (Failed MaxStepsExceeded) (run_transcript r) (iterations r))
      else
        fun h =>
          let specs := map tool_spec registry in
          let h' := (h ++ [EComplete (run_transcript r) specs])%list in
          match complete env h (run_transcript r) specs with
          | Return (ToolCalls calls) =>
              (Return (mk_run (AwaitingTool calls) (run_transcript r) (iterations r)), h')
          | Return (FinalAnswer a) =>
              (Return (mk_run (Answering a) (run_transcript r) (iterations r)), h')
          | Raise _ =>
              (Return (mk_run (Failed Error) (run_transcript r) (iterations r)), h')
          end
  | AwaitingTool calls =>
      turn <- dispatch_all registry calls ;;
      ret (mk_run (Observing turn) (run_transcript r) (iterations r))
  | Observing turn =>
      ret (mk_run Thinking
             (mk_transcript (question (run_transcript r))
                (turns (run_transcript r) ++ [turn])%list)
             (S (iterations r)))
  | Answering _ | Failed _ => ret r
  end.

Fixpoint steps (n : nat) (max_iterations : nat) (registry : list Tool) (r : Run) : M Run :=
  match n with
  | O => ret r
  | S n' =>
      r' <- step max_iterations registry r ;;
      steps n' max_iterations registry r'
  end.

Definition to_result (r : Run) : LoopResult :=
  match state r with
  | Answering a => mk_result a (run_transcript r) Answer
  | Failed why => mk_result "" (run_transcript r) why
  | _ => mk_result "" (run_transcript r) Error
  end.

(** A turn takes three transitions; one more transition ends the run. *)
Definition run_loop (max_iterations : nat) (registry : list Tool) (question : string)
  : M LoopResult :=
  r <- steps (3 * max_iterations + 1) max_iterations registry (initial question) ;;
  ret (to_result r).

End WithEnv.
End Loop.

(** ** The cells that run the agents

    The code of the notebooks around the tool classes: the cells that
    prepare the process environment, download the API description, call
    the agent executor and show what it answers.  The executor itself is
    the framework's: a cell is given what the executor hands back. *)

Module Cells.

(** *** [dict] and subscripts *)

(** [d.get(key)] on a [dict] in insertion order *)
Fixpoint dict_get {A} (key : string) (d : list (string * A)) : option A :=
  match d with
  | [] => None
  | (k, v) :: d' => if (key =? k)%string then Some v else dict_get key d'
  end.

(** [d[key] = v]: a key that is there keeps its place *)
Fixpoint dict_set {A} (key : string) (v : A) (d : list (string * A)) : list (string * A) :=
  match d with
  | [] => [(key, v)]
  | (k, x) :: d' =>
      if (key =? k)%string then (k, v) :: d' else (k, x) :: dict_set key v d'
  end.

(** [KeyError(key)]; [str(e)] is the [repr] of the key, which for a key of
    letters, digits and underscores is the key in single quotes. *)
Definition KeyError (key : string) : exn := mk_exn "KeyError" ("'" ++ key ++ "'").
Definition TypeError (msg : string) : exn := mk_exn "TypeError" msg.
Definition AttributeError (msg : string) : exn := mk_exn "AttributeError" msg.
Definition NameError (msg : string) : exn := mk_exn "NameError" msg.

(** [d[key]] *)
Definition getitem {A} (d : list (string * A)) (key : string) : outcome A :=
  match dict_get key d with
  | Some v => Return v
  | None => Raise (KeyError key)
  end.

(** [type(v).__name__] *)
Definition type_name (v : pyval) : string :=
  match v with
  | PyNone => "NoneType"
  | PyStr _ => "str"
  | PyInt _ => "int"
  | PyList _ => "list"
  | PyDict _ => "dict"
  | PyExc e => exc_class e
  end.

(** [v[key]] for a key that is a [str], with the messages of Python 3.10,
    the kernel of the notebooks *)
Definition subscript (v : pyval) (key : string) : outcome pyval :=
  match v with
  | PyDict d => getitem d key
  | PyStr _ => Raise (TypeError "string indices must be integers")
  | PyList _ => Raise (TypeError "list indices must be integers or slices, not str")
  | _ => Raise (TypeError ("'" ++ type_name v ++ "' object is not subscriptable"))
  end.

(** [str(n)] for an [int] *)
Definition str_int (z : Z) : string :=
  DecimalString.NilZero.string_of_int (Z.to_int z).

(** *** Standard output

    A cell writes to the standard output of the notebook beside what it
    does to the outside world. *)
Record console := mk_console { world : history; stdout : list string }.

Definition Cell (A : Type) : Type := console -> outcome A * console.

Definition cret {A} (a : A) : Cell A := fun c => (Return a, c).
Definition craise {A} (e : exn) : Cell A := fun c => (Raise e, c).

Definition cbind {A B} (m : Cell A) (k : A -> Cell B) : Cell B :=
  fun c =>
    match m c with
    | (Return a, c') => k a c'
    | (Raise e, c') => (Raise e, c')
    end.

Declare Scope cell_scope.
Delimit Scope cell_scope with cell.
Notation "x <- m ;; k" := (cbind m (fun x => k)) : cell_scope.
Notation "m ;;; k" := (cbind m (fun _ => k)) : cell_scope.

(** A computation on the outside world, run inside a cell. *)
Definition lift {A} (m : M A) : Cell A :=
  fun c => let (o, h) := m (world c) in (o, mk_console h (stdout c)).

(** [print] of some arguments: the arguments separated by one space; the
    line break that ends the output is not recorded. *)
Definition print (args : list string) : Cell unit :=
  fun c => (Return tt, mk_console (world c) (stdout c ++ [String.concat " " args])%list).

(** [sys.stdout.write(text)]: the text is an entry of its own; no line
    break follows it. *)
Definition write (text : string) : Cell unit :=
  fun c => (Return tt, mk_console (world c) (stdout c ++ [text])%list).

(** [for x in l: body(x)] *)
Fixpoint for_each {A} (body : A -> Cell unit) (l : list A) : Cell unit :=
  match l with
  | [] => cret tt
  | x :: l' => (body x ;;; for_each body l')%cell
  end.

(** *** The process environment *)

(** [os.environ["OPENAI_API_VERSION"] = os.environ["AZURE_OPENAI_API_VERSION"]]
    in a notebook whose cells have bound the names [names] so far: the
    name [os] is looked up first. *)
Definition set_openai_api_version (names : list string) (environ : dict) : outcome dict :=
  if existsb (String.eqb "os") names then
    match getitem environ "AZURE_OPENAI_API_VERSION" with
    | Return v => Return (dict_set "OPENAI_API_VERSION" v environ)
    | Raise e => Raise e
    end
  else Raise (NameError "name 'os' is not defined").

(** [printmd(v)] for a value that need not be a [str]: only a [str] has
    the method [replace]. *)
Definition call_printmd (printmd : string -> M unit) (v : pyval) : M unit :=
  match v with
  | PyStr s => printmd s
  | _ => raise (AttributeError ("'" ++ type_name v ++ "' object has no attribute 'replace'"))
  end.

Section WithEnv.
Variable env : Env.

(** [str(v)], as an f-string applies it to a value. *)
Variable str : pyval -> string.

(** [num_tokens_from_string] of [common.utils] *)
Variable num_tokens_from_string : string -> Z.

(** [agent_executor.invoke({"question": QUESTION})]: the run of the
    framework's executor, which returns a [dict]. *)
Variable invoke : M (list (string * pyval)).


(** *** The chunks of a streamed run *)

Record AgentAction := mk_action { tool : string; tool_input : pyval }.

(** One chunk of [agent_executor.stream]/[astream]: a [dict] that holds
    the key [actions], [steps] or [output] (and others the cells do not
    look at). *)
Record chunk := mk_chunk {
  actions : option (list AgentAction);
  steps : option (list (AgentAction * pyval));
  output : option pyval
}.

(** [print(f"Calling Tool: `{action.tool}` with input `{action.tool_input}`")] *)
Definition calling_tool (action : AgentAction) : string :=
  "Calling Tool: `" ++ tool action ++ "` with input `" ++ str (tool_input action) ++ "`".

(** The body of the loop over the chunks in 09-BingChatClone. *)
Definition astream_body (chunk : chunk) : Cell unit :=
  match actions chunk with
  | Some acts =>
      (for_each (fun action => print [calling_tool action]) acts ;;;
       print ["---"])%cell
  | None =>
      match steps chunk with
      | Some _ => cret tt (* continue *)
      | None =>
          match output chunk with
          | Some _ => cret tt (* continue *)
          | None => craise (ValueError "")
          end
      end
  end.

(** [async for chunk in agent_executor.astream({"question": QUESTION}): ...] *)
Definition astream_cell (stream : list chunk) : Cell unit :=
  for_each astream_body stream.

(** *** The streamed answer

    The language model of 09-BingChatClone is created with
    [streaming=True] and a callback manager that holds a
    [StdOutCallbackHandler]: while the executor runs, the answer reaches
    the user token by token, and the loop over the chunks shows the final
    output no second time. *)

(** Modelled from the spec: [StdOutCallbackHandler] of [common.callbacks],
    which is not part of the notebooks.  It is the display layer that
    drains the Observation Stream: an answer token is written to the
    standard output as it is. *)
Definition on_llm_new_token (token : string) : Cell unit := write token.

(** What a streamed run hands over, in order: answer tokens to the
    handler, chunks to the loop. *)
Inductive stream_item :=
| AnswerToken (token : string)
| Chunk (c : chunk).

Definition astream_item (x : stream_item) : Cell unit :=
  match x with
  | AnswerToken token => on_llm_new_token token
  | Chunk c => astream_body c
  end.

Definition astream_run (items : list stream_item) : Cell unit :=
  for_each astream_item items.

(** The body of the loop over the chunks in the API-search notebook: the
    final output is displayed. *)
Definition stream_body (chunk : chunk) : Cell unit :=
  match actions chunk with
  | Some acts =>
      (for_each (fun action => print [calling_tool action]) acts ;;;
       print ["---"])%cell
  | None =>
      match steps chunk with
      | Some _ => cret tt (* continue *)
      | None =>
          match output chunk with
          | Some v =>
              (lift (APISearch.printmd ("Final Output: " ++ str v)) ;;;
               print ["---"])%cell
          | None => craise (ValueError "")
          end
      end
  end.

(** [for chunk in agent_executor.stream({...}): ...] *)
Definition stream_cell (stream : list chunk) : Cell unit :=
  for_each stream_body stream.

(** *** Running the agent *)

(** 09-BingChatClone:
    [try: response = agent_executor.invoke({"question":QUESTION})]
    [except Exception as e: response = str(e)] *)
Definition invoke_cell : M pyval :=
  try_except (d <- invoke ;; ret (PyDict d))
    (fun e => ret (PyStr (exc_text e))).

(** [printmd(response["output"])] *)
Definition show_output_cell (response : pyval) : M unit :=
  v <- of_outcome (subscript response "output") ;;
  call_printmd BingChatClone.printmd v.

(** The API-search notebook: the loop
    [for i in range(2): try: response = agent_executor.invoke(...)["output"]; break]
    [except Exception as e: response = str(e); continue].
    [response] is what the name holds, if anything. *)
Definition invoke_output : M pyval :=
  d <- invoke ;;
  of_outcome (getitem d "output").

Fixpoint retry_loop (range : list nat) (response : option pyval) : M (option pyval) :=
  match range with
  | [] => ret response
  | i :: range' =>
      try_except
        (v <- invoke_output ;;
         ret (Some v) (* break *))
        (fun e => retry_loop range' (Some (PyStr (exc_text e))) (* continue *))
  end.

(** The loop, then [printmd(response)]. *)
Definition retry_cell : M unit :=
  response <- retry_loop (seq 0 2) None ;;
  match response with
  | Some v => call_printmd APISearch.printmd v
  | None => raise (NameError "name 'response' is not defined")
  end.

(** *** The API description *)

Definition openapi_url : string :=
  "https://datasetsgptsmartsearch.blob.core.windows.net/apispecs/openapi_kraken.json".

(** [response = requests.get(url + os.environ['BLOB_SAS_TOKEN'])], then
    [spec = response.json()] when the status is 200, and otherwise
    [spec = None] and a message.  Returns [spec]. *)
Definition openapi_spec_cell (environ : dict) : Cell pyval :=
  (token <- lift (of_outcome (getitem environ "BLOB_SAS_TOKEN")) ;;
   response <- lift (perform (EHttpGet (openapi_url ++ token) [] [])
                       (fun h => http env h (openapi_url ++ token) [] [])) ;;
   if (status_code response =? 200)%Z then
     lift (of_outcome (json_loads env (content response)))
   else
     print ["Failed to retrieve data: Status code " ++ str_int (status_code response)] ;;;
     cret PyNone)%cell.

(** *** The request of the keyless API, by hand

    [api_result = requests.get('https://api.countdownapi.com/request', params)],
    the token count of the answer and its first 2000 characters. *)
Definition countdown_demo_cell : Cell unit :=
  let params := APISearch.countdown_params "demo" "memory cards" in
  (api_result <- lift (perform (EHttpGet APISearch.countdown_endpoint [] params)
                         (fun h => http env h APISearch.countdown_endpoint [] params)) ;;
   v <- lift (of_outcome (json_loads env (content api_result))) ;;
   let num_tokens := num_tokens_from_string (str v) in
   print ["Token count:"; str_int num_tokens; nl] ;;;
   v' <- lift (of_outcome (json_loads env (content api_result))) ;;
   print [substring 0 2000 (json_dumps env v'); "..."])%cell.

End WithEnv.
End Cells.

(** * The vocabulary of the properties *)

(** ** Effects *)

Definition is_http_get (ev : effect) : bool :=
  match ev with EHttpGet _ _ _ => true | _ => false end.

Definition is_oracle_call (ev : effect) : bool :=
  match ev with EOracle _ | EComplete _ _ => true | _ => false end.

Definition is_prefix_of {A} (l1 l2 : list A) : Prop := exists l, l2 = (l1 ++ l)%list.

(** ** [printmd] *)

(** Every dollar sign of [s] written as the four characters [USD ], the
    other characters kept. *)
Fixpoint every_dollar_as_USD (s : string) : string :=
  match s with
  | EmptyString => EmptyString
  | String c s' =>
      if Ascii.eqb c "$" then "USD " ++ every_dollar_as_USD s'
      else String c (every_dollar_as_USD s')
  end.

(** ** Calling a tool twice *)

(** The backing resources are static: the web and the search provider
    answer a request the same way whatever happened before. *)
Definition static_resources (env : Env) : Prop :=
  (forall h1 h2 url hd ps, http env h1 url hd ps = http env h2 url hd ps)
  /\ (forall h1 h2 q n, bing env h1 q n = bing env h2 q n).

(** The observations of two calls in a row. *)
Definition twice {A} (m : M A) (h : history) : outcome A * outcome A :=
  let (o1, h1) := m h in
  let (o2, _) := m h1 in
  (o1, o2).

(** ** The reasoning loop *)

(** What holds of every run the loop can reach: the transcript has one
    turn per completed iteration, the iterations stay within the bound,
    a turn is only under way while an iteration is left, and the run
    fails for its budget only when the budget is used up. *)
Definition run_ok (max_iterations : nat) (r : Loop.Run) : Prop :=
  len (Loop.run_transcript r) = Loop.iterations r
  /\ Loop.iterations r <= max_iterations
  /\ match Loop.state r with
     | Loop.AwaitingTool _ | Loop.Observing _ => Loop.iterations r < max_iterations
     | Loop.Failed MaxStepsExceeded => Loop.iterations r = max_iterations
     | _ => True
     end.

(** The transitions a run can still make before it ends. *)
Definition remaining (max_iterations : nat) (r : Loop.Run) : nat :=
  match Loop.state r with
  | Loop.Thinking => 3 * (max_iterations - Loop.iterations r) + 1
  | Loop.AwaitingTool _ => 3 * (max_iterations - Loop.iterations r)
  | Loop.Observing _ => 3 * (max_iterations - Loop.iterations r) - 1
  | _ => 0
  end.

(** The Oracle never answers and never fails. *)
Definition never_answers (env : Env) : Prop :=
  forall h t specs, exists calls, complete env h t specs = Return (ToolCalls calls).

Definition only_budget_ends (max_iterations : nat) (r : Loop.Run) : Prop :=
  match Loop.state r with
  | Loop.Answering _ => False
  | Loop.Failed why => why = MaxStepsExceeded /\ Loop.iterations r = max_iterations
  | _ => True
  end.

(** ** Documents

    The documents [parse_html] is specified on: a forest of text,
    elements with attributes, elements without content, [script] and
    [style] elements, comments, document type declarations and CDATA
    sections. *)

Module Document.
Import Html.

(** An attribute: its name and, when it has one, its value. *)
Definition attribute : Type := string * option string.

#[warnings="-register-all"]
Inductive node :=
| Text (s : string)
| Element (name : string) (attrs : list attribute) (children : list node)
| VoidElement (name : string) (attrs : list attribute)
| ScriptElement (attrs : list attribute) (code : string)
| StyleElement (attrs : list attribute) (css : string)
| CommentNode (s : string)
| DoctypeNode (s : string)
| CDataNode (s : string).

Definition render_attr (a : attribute) : string :=
  " " ++ fst a ++
  match snd a with
  | Some v => String "=" (String quote (v ++ String quote EmptyString))
  | None => EmptyString
  end.

Definition render_attrs (attrs : list attribute) : string :=
  String.concat "" (map render_attr attrs).

(** The markup of a document. *)
Fixpoint render (n : node) : string :=
  match n with
  | Text s => s
  | Element name attrs children =>
      "<" ++ name ++ render_attrs attrs ++ ">"
      ++ String.concat "" (map render children) ++ "</" ++ name ++ ">"
  | VoidElement name attrs => "<" ++ name ++ render_attrs attrs ++ ">"
  | ScriptElement attrs code =>
      "<" ++ "script" ++ render_attrs attrs ++ ">" ++ code ++ "</script>"
  | StyleElement attrs css =>
      "<" ++ "style" ++ render_attrs attrs ++ ">" ++ css ++ "</style>"
  | CommentNode s => "<!--" ++ s ++ "-->"
  | DoctypeNode s => "<!DOCTYPE " ++ s ++ ">"
  | CDataNode s => "<![CDATA[" ++ s ++ "]]>"
  end.

Definition render_document (doc : list node) : string :=
  String.concat "" (map render doc).

(** A run of text that is only ASCII white space counts as one space, or
    as one line break when it contains a line break, unless it stands
    inside [pre] or [textarea]. *)
Definition collapse (preserve : bool) (s : string) : string :=
  if negb preserve && strippable s
  then (if Py.contains_char (ascii_of_nat 10) s then newline else " ")
  else s.

Definition preserves (preserve : bool) (name : string) : bool :=
  preserve || mem_string (lower name) preserve_whitespace_tags.

(** The visible text: the text nodes in document order; what stands in
    tags, comments, declarations, [script] and [style] elements is left
    out.  The content of a CDATA section counts as text, whatever it
    holds. *)
Fixpoint visible_text_of (preserve : bool) (n : node) : string :=
  match n with
  | Text s => collapse preserve s
  | Element name _ children =>
      String.concat "" (map (visible_text_of (preserves preserve name)) children)
  | VoidElement _ _ | ScriptElement _ _ | StyleElement _ _
  | CommentNode _ | DoctypeNode _ => EmptyString
  | CDataNode s => collapse preserve s
  end.

Definition visible_text (doc : list node) : string :=
  String.concat "" (map (visible_text_of false) doc).

Fixpoint forall_chars (p : ascii -> bool) (s : string) : bool :=
  match s with
  | EmptyString => true
  | String c s' => p c && forall_chars p s'
  end.

Definition is_none {A} (o : option A) : bool :=
  match o with None => true | Some _ => false end.

(** A name: a letter, then letters, digits and [-.:_]. *)
Definition is_name (name : string) : bool :=
  starts_with_letter name && forall_chars is_endname_char name && all_ascii name.

(** The names of plain elements: not [script] or [style], not a tag
    whose strings have a class of their own, not a tag without content. *)
Definition plain_name (name : string) : bool :=
  is_name name
  && negb (mem_string (lower name) CDATA_CONTENT_ELEMENTS)
  && negb (mem_string (lower name) (map fst string_containers))
  && negb (mem_string (lower name) empty_element_tags).

(** The names of elements without content. *)
Definition void_name (name : string) : bool :=
  is_name name && mem_string (lower name) empty_element_tags.

Definition wf_attr (a : attribute) : bool :=
  is_name (fst a)
  && match snd a with
     | Some v => forall_chars is_not_quote v && all_ascii v
     | None => true
     end.

Definition is_text (n : node) : bool :=
  match n with Text _ => true | _ => false end.

(** No two text nodes follow each other. *)
Fixpoint no_adjacent_text (l : list node) : bool :=
  match l with
  | n1 :: ((n2 :: _) as rest) => negb (is_text n1 && is_text n2) && no_adjacent_text rest
  | _ => true
  end.

Fixpoint wf_node (n : node) : bool :=
  match n with
  | Text s =>
      negb (s =? "")%string
      && forall_chars (fun c => negb (is_interesting_normal c)) s && all_ascii s
  | Element name attrs children =>
      plain_name name && forallb wf_attr attrs
      && forallb wf_node children && no_adjacent_text children
  | VoidElement name attrs => void_name name && forallb wf_attr attrs
  | ScriptElement attrs code =>
      forallb wf_attr attrs && all_ascii code
      && is_none (search_cdata_close "script" code)
  | StyleElement attrs css =>
      forallb wf_attr attrs && all_ascii css
      && is_none (search_cdata_close "style" css)
  | CommentNode s => all_ascii s && is_none (search_commentclose s)
  | DoctypeNode s => forall_chars (fun c => negb (Ascii.eqb c ">")) s && all_ascii s
  | CDataNode s => all_ascii s && is_none (search_markedsectionclose s)
  end.

Definition wf_document (doc : list node) : bool :=
  forallb wf_node doc && no_adjacent_text doc.

(** The handler calls of a document. *)
Fixpoint tokens (n : node) : list event :=
  match n with
  | Text s => [handle_data s]
  | Element name _ children =>
      handle_starttag (lower name) :: flat_map tokens children
        ++ [handle_endtag (lower name)]
  | VoidElement name _ => [handle_starttag (lower name)]
  | ScriptElement _ code =>
      handle_starttag "script"
        :: (if (code =? "")%string then [] else [handle_data code])
        ++ [handle_endtag "script"]
  | StyleElement _ css =>
      handle_starttag "style"
        :: (if (css =? "")%string then [] else [handle_data css])
        ++ [handle_endtag "style"]
  | CommentNode s => [handle_comment s]
  | DoctypeNode s => [handle_decl ("DOCTYPE " ++ s)]
  | CDataNode s => [unknown_decl ("CDATA[" ++ s)]
  end.

(** The iterations of the tokenizer's loop on a document. *)
Fixpoint cost (n : node) : nat :=
  match n with
  | Text _ => 1
  | Element _ _ children => 2 + list_sum (map cost children)
  | VoidElement _ _ => 1
  | ScriptElement _ _ | StyleElement _ _ => 2
  | CommentNode _ => 1
  | DoctypeNode _ => 1
  | CDataNode _ => 1
  end.

Definition total_cost (ns : list node) : nat := list_sum (map cost ns).

(** The tree of a document. *)
Fixpoint tree (preserve : bool) (n : node) : PageElement :=
  match n with
  | Text s => Str NavigableString (collapse preserve s)
  | Element name _ children =>
      Tag (lower name) (map (tree (preserves preserve name)) children)
  | VoidElement name _ => Tag (lower name) []
  | ScriptElement _ code =>
      Tag "script" (if (code =? "")%string then [] else [Str Script (collapse preserve code)])
  | StyleElement _ css =>
      Tag "style" (if (css =? "")%string then [] else [Str Stylesheet (collapse preserve css)])
  | CommentNode s => Str Comment (collapse preserve s)
  | DoctypeNode s => Str Doctype (collapse preserve s)
  | CDataNode s => Str CData (collapse preserve s)
  end.

(** The tags without content of a document, in document order. *)
Fixpoint closed_tags (n : node) : list string :=
  match n with
  | Element _ _ children => flat_map closed_tags children
  | VoidElement name _ => [lower name]
  | _ => []
  end.

End Document.

(** [html.parser] behaves on the documents the model covers as the model
    says. *)
Definition html_parser_conforms (env : Env) : Prop :=
  forall markup evs, Html.HTMLParser_feed markup = Some evs -> html_parser env markup = evs.

(** ** The tokenizer and the tree builder on documents *)

Section DocumentVocabulary.
Import Html Document.

(** A string that is empty or starts with a character failing [p]. *)
Definition stops (p : ascii -> bool) (rest : string) : Prop :=
  match rest with
  | EmptyString => True
  | String c _ => p c = false
  end.

(** What may follow a text node: nothing, or something interesting. *)
Definition clean (rest : string) : Prop :=
  stops (fun c => negb (is_interesting_normal c)) rest.

(** The handlers run on a list of handler calls. *)
Definition run (evs : list event) (b : builder) : builder :=
  fold_left (fun b ev => on_event ev b) evs b.

(** A tag without content. *)
Definition is_void (name : string) : Prop := mem_string name empty_element_tags = true.

(** Between two nodes of a well-formed document: no text is pending, the
    end tags to be ignored are those of tags without content, and no open
    tag gives its strings a class of their own. *)
Definition settled (b : builder) : Prop :=
  current_data b = []
  /\ Forall is_void (already_closed_empty_element b)
  /\ innermost_container (tagStack b) = None.

(** The builder after the nodes [kids] were parsed, in this order. *)
Definition add_kids (kids : list PageElement) (b : builder) : builder :=
  fold_left (fun b o => object_was_parsed o b) kids b.

(** The builder after the tags [names] were closed at once. *)
Definition note_closed (names : list string) (b : builder) : builder :=
  mk_builder (tagStack b) (root_kids b) (current_data b)
    (already_closed_empty_element b ++ names).

(** What the builder makes of the handler calls of one node: the tree of
    the node becomes the last child of the current tag. *)
Definition node_built (n : node) : Prop :=
  wf_node n = true ->
  forall b, settled b ->
    (is_text n = false ->
     run (tokens n) b
     = note_closed (closed_tags n) (object_was_parsed (tree (preserving_whitespace b) n) b))
    /\ endData None (run (tokens n) b)
       = note_closed (closed_tags n) (object_was_parsed (tree (preserving_whitespace b) n) b).

(** The strings [get_text] joins. *)
Definition text_strings (e : PageElement) : list string :=
  map snd
    (filter (fun cs => existsb (string_class_eqb (fst cs)) DEFAULT_INTERESTING_STRING_TYPES)
       (_all_strings e)).

End DocumentVocabulary.

(** ** Example worlds *)

(** A world in which the language model raises [e] on every prompt and the
    web answers every request with the same page. *)
Definition env_model_raises (e : exn) (page : string) : Env :=
  mk_env (fun _ _ _ _ => Return (mk_response 200 page))
         (fun _ _ => Raise e)
         (fun _ _ _ => Return [])
         (fun _ _ _ => Return (FinalAnswer ""))
         (fun _ => Raise (ValueError "Expecting value: line 1 column 1 (char 0)"))
         (fun _ => "")
         (fun _ _ => true)
         (fun _ => [])
         (fun markup => markup).

(** A world in which every request fails with [e]. *)
Definition env_web_raises (e : exn) : Env :=
  mk_env (fun _ _ _ _ => Raise e)
         (fun _ _ => Raise e)
         (fun _ _ _ => Raise e)
         (fun _ _ _ => Raise e)
         (fun _ => Raise e)
         (fun _ => "")
         (fun _ _ => true)
         (fun _ => [])
         (fun markup => markup).

(** A world for one question about a price: the model proposes a url, the
    web serves a page, the search provider knows one page. *)
Definition env_prices : Env :=
  mk_env (fun _ _ _ _ => Return (mk_response 200 "<p>X costs 10</p>"))
         (fun _ _ => Return "https://api.kraken.com/0/public/Ticker?pair=XBTUSD")
         (fun _ _ _ => Return [mk_page "A" "X costs 10" "u1"])
         (fun _ _ _ => Return (ToolCalls [("Searcher", "price of X")]))
         (fun body => Return (PyStr body))
         (fun _ => "{}")
         (fun _ _ => true)
         (fun _ => [])
         (fun markup => markup).

(** A world for one question to an API: the model first writes the url,
    with white space around it, and, once it has been asked before,
    the summary; the API answers with a ticker line. *)
Definition env_ticker : Env :=
  mk_env (fun _ _ _ _ => Return (mk_response 200 "XBTUSD 97000.1"))
         (fun h _ => if existsb is_oracle_call h
                     then Return "One bitcoin costs 97000.1 dollars."
                     else Return (" https://api.kraken.com/0/public/Ticker?pair=XBTUSD" ++ nl))
         (fun _ _ _ => Return [])
         (fun _ _ _ => Return (FinalAnswer ""))
         (fun body => Return (PyStr body))
         (fun _ => "{}")
         (fun _ _ => true)
         (fun _ => [])
         (fun markup => markup).

Definition searcher_stub : Loop.Tool :=
  Loop.mk_loop_tool (mk_spec "Searcher" "useful to search the internet." "query")
    (fun _ => ret "X costs 10").


(** The bound counts turns: one turn with two tool calls records two
    (invocation, observation) pairs within [max_iterations = 1]. *)
Definition env_two_calls : Env :=
  mk_env (fun _ _ _ _ => Return (mk_response 200 ""))
         (fun _ _ => Return "")
         (fun _ _ _ => Return [])
         (fun _ _ _ => Return (ToolCalls [("Searcher", "a"); ("Searcher", "b")]))
         (fun body => Return (PyStr body))
         (fun _ => "{}")
         (fun _ _ => true)
         (fun _ => [])
         (fun markup => markup).

(** A world whose [html.parser] is the modelled tokenizer and whose web
    serves the page of the scenario. *)
Definition env_html : Env :=
  mk_env (fun _ _ _ _ =>
            Return (mk_response 200
                      "<html><body>Hello<script>evil()</script></body></html>"))
         (fun _ _ => Return "")
         (fun _ _ _ => Return [])
         (fun _ _ _ => Return (FinalAnswer ""))
         (fun body => Return (PyStr body))
         (fun _ => "{}")
         (fun _ _ => true)
         (fun markup => match Html.HTMLParser_feed markup with
                        | Some evs => evs
                        | None => []
                        end)
         (fun markup => markup).

(** ** What the cells print *)

Definition has_key {A} (field : option A) : bool :=
  match field with Some _ => true | None => false end.

(** The chunk holds one of the keys the loops know. *)
Definition known_chunk (chunk : Cells.chunk) : bool :=
  has_key (Cells.actions chunk) || has_key (Cells.steps chunk)
  || has_key (Cells.output chunk).

(** The lines the loop of 09-BingChatClone prints for one chunk: one line
    per action and the separator when the chunk holds actions, nothing
    otherwise. *)
Definition astream_lines (str : pyval -> string) (chunk : Cells.chunk) : list string :=
  match Cells.actions chunk with
  | Some acts => (map (Cells.calling_tool str) acts ++ ["---"])%list
  | None => []
  end.

(** The lines the loop of the API-search notebook prints for one chunk. *)
Definition stream_lines (str : pyval -> string) (chunk : Cells.chunk) : list string :=
  match Cells.actions chunk, Cells.steps chunk, Cells.output chunk with
  | Some acts, _, _ => (map (Cells.calling_tool str) acts ++ ["---"])%list
  | None, None, Some _ => ["---"]
  | _, _, _ => []
  end.

(** What that loop displays for one chunk: the final output, when the
    chunk holds neither actions nor steps. *)
Definition stream_displays (str : pyval -> string) (chunk : Cells.chunk) : list effect :=
  match Cells.actions chunk, Cells.steps chunk, Cells.output chunk with
  | None, None, Some v => [EDisplay (every_dollar_as_USD ("Final Output: " ++ str v))]
  | _, _, _ => []
  end.

Definition displays_no_dollar (ev : effect) : Prop :=
  exists text, ev = EDisplay text /\ contains_char "$" text = false.

(** The number of dollar signs of a text. *)
Fixpoint count_dollars (s : string) : nat :=
  match s with
  | EmptyString => 0
  | String c s' => (if Ascii.eqb c "$" then 1 else 0) + count_dollars s'
  end.

(** [pat in s] *)
Fixpoint occurs (pat s : string) : bool :=
  prefix pat s
  || match s with
     | EmptyString => false
     | String _ s' => occurs pat s'
     end.

(** A world like [env_html] whose web serves the page of the scenario with
    the script inside a CDATA section. *)
Definition env_cdata : Env :=
  mk_env (fun _ _ _ _ =>
            Return (mk_response 200
                      "<html><body>Hello<![CDATA[<script>evil()</script>]]></body></html>"))
         (fun _ _ => Return "")
         (fun _ _ _ => Return [])
         (fun _ _ _ => Return (FinalAnswer ""))
         (fun body => Return (PyStr body))
         (fun _ => "{}")
         (fun _ _ => true)
         (fun markup => match Html.HTMLParser_feed markup with
                        | Some evs => evs
                        | None => []
                        end)
         (fun markup => markup).

(** ** Example runs of the executor *)

(** A run that answers with a price. *)
Definition invoke_answers : M (list (string * pyval)) :=
  ret [("question", PyStr "price?"); ("output", PyStr "It costs $5")].

(** A world in which every page is missing: the web answers every request
    with status 404 and a page that says so; [html.parser] is the modelled
    tokenizer. *)
Definition env_not_found : Env :=
  mk_env (fun _ _ _ _ => Return (mk_response 404 "<h1>Not Found</h1>"))
         (fun _ _ => Return "")
         (fun _ _ _ => Return [])
         (fun _ _ _ => Return (FinalAnswer ""))
         (fun body => Raise (ValueError "Expecting value: line 1 column 1 (char 0)"))
         (fun _ => "{}")
         (fun _ _ => true)
         (fun markup => match Html.HTMLParser_feed markup with
                        | Some evs => evs
                        | None => []
                        end)
         (fun markup => markup).

(** ** Text without markup characters *)

(** No character that opens a tag or a character reference. *)
Definition no_markup (s : string) : bool :=
  Document.forall_chars (fun c => negb (Html.is_interesting_normal c)) s.

(** No CDATA section in the node. *)
Fixpoint cdata_free (n : Document.node) : bool :=
  match n with
  | Document.Element _ _ children => forallb cdata_free children
  | Document.CDataNode _ => false
  | _ => true
  end.

(** ** Pages that are not well formed *)

(** The start tags of the elements [names], the outermost first, without
    attributes and without their end tags. *)
Definition open_tags (names : list string) : string :=
  String.concat "" (map (fun name => "<" ++ name ++ ">") names).

(** The document [doc] inside the elements [names], the outermost
    first. *)
Definition nest (names : list string) (doc : list Document.node) : list Document.node :=
  fold_right (fun name inner => [Document.Element name [] inner]) doc names.

(** The handler calls for the start tags of [names]. *)
Definition starts (names : list string) : list Html.event :=
  map (fun name => Html.handle_starttag (Html.lower name)) names.

(** * Properties *)

(** ** Helper lemmas on effects *)

Lemma skipn_length_app {A} (h l : list A) : skipn (List.length h) (h ++ l)%list = l.
Proof.
  induction h as [|x h IH]; simpl; auto.
Qed.

Lemma effects_of_perform {A} (ev : effect) (answer : history -> outcome A) (h : history) :
  effects_of (perform ev answer) h = [ev].
Proof.
  unfold effects_of, perform; simpl. apply skipn_length_app.
Qed.

(** ** [printmd] *)

Lemma prefix_one_char (c d : ascii) (s : string) :
  prefix (String c EmptyString) (String d s) = Ascii.eqb d c.
Proof.
  cbn [prefix]. destruct (ascii_dec c d) as [->|Hne].
  - rewrite Ascii.eqb_refl. destruct s; reflexivity.
  - symmetry. apply Ascii.eqb_neq. congruence.
Qed.

Lemma str_replace_dollar (s : string) :
  str_replace "$" "USD " s = every_dollar_as_USD s.
Proof.
  unfold str_replace. simpl (_ =? _)%string. cbv iota.
  induction s as [|c s IH].
  - reflexivity.
  - unfold replace_from; fold replace_from.
    rewrite prefix_one_char. simpl String.length. simpl Nat.sub.
    cbn [every_dollar_as_USD].
    destruct (Ascii.eqb c "$"); rewrite IH; reflexivity.
Qed.

Lemma every_dollar_as_USD_no_dollar (s : string) :
  contains_char "$" (every_dollar_as_USD s) = false.
Proof.
  induction s as [|c s IH]; [reflexivity|].
  cbn [every_dollar_as_USD].
  destruct (Ascii.eqb c "$") eqn:E.
  - cbn [append contains_char]. rewrite IH. reflexivity.
  - cbn [contains_char]. rewrite IH, Ascii.eqb_sym, E. reflexivity.
Qed.

(** C10: in both notebooks [printmd s] displays [s] with every
    ["$"] replaced by ["USD "]; what [printmd] displays never contains a
    dollar sign, and ["$9.99"] is displayed as ["USD 9.99"].  (An answer
    that is streamed does not pass through [printmd]; the lemma after
    this one runs such a stream.) *)
Theorem printmd_replaces_every_dollar (s : string) (h : history) :
  BingChatClone.printmd s h = (Return tt, (h ++ [EDisplay (every_dollar_as_USD s)])%list)
  /\ APISearch.printmd s h = (Return tt, (h ++ [EDisplay (every_dollar_as_USD s)])%list)
  /\ contains_char "$" (every_dollar_as_USD s) = false
  /\ effects_of (BingChatClone.printmd "$9.99") h = [EDisplay "USD 9.99"].
Proof.
  unfold BingChatClone.printmd, APISearch.printmd, display_Markdown.
  rewrite str_replace_dollar.
  repeat split.
  - apply every_dollar_as_USD_no_dollar.
  - apply effects_of_perform.
Qed.

(** C10 does not extend to an answer that is streamed: in
    09-BingChatClone the tokens of the final answer are written to the
    standard output as they are, and the loop over the chunks of the run
    shows the final output no second time, so nothing is displayed
    through [printmd]. *)
Lemma streamed_answer_keeps_dollar :
  Cells.astream_run (fun _ => "")
    [Cells.AnswerToken "It costs "; Cells.AnswerToken "$"; Cells.AnswerToken "169.99";
     Cells.Chunk (Cells.mk_chunk None None (Some (PyStr "It costs $169.99")))]
    (Cells.mk_console [] [])
  = (Return tt, Cells.mk_console [] ["It costs "; "$"; "169.99"])
  /\ String.concat "" ["It costs "; "$"; "169.99"] = "It costs $169.99"
  /\ contains_char "$" "It costs $169.99" = true.
Proof.
  repeat split.
Qed.

(** ** The asynchronous entry points *)

(** C9: [_arun] of [MyAPISearch] and of [MySimpleAPISearch] raises
    [NotImplementedError] for every query, without any external effect,
    and it is the entry point the registered tools carry. *)
Theorem api_tools_arun_not_implemented (env : Env) (a : APISearch.MyAPISearch)
    (b : APISearch.MySimpleAPISearch) (query : string) (h : history) :
  APISearch.MyAPISearch_arun a query h
    = (Raise (NotImplementedError "This Tool does not support async"), h)
  /\ APISearch.MySimpleAPISearch_arun b query h
    = (Raise (NotImplementedError "This Tool does not support async"), h)
  /\ _arun (APISearch.MyAPISearch_tool env a) = Some (APISearch.MyAPISearch_arun a)
  /\ _arun (APISearch.MySimpleAPISearch_tool env b) = Some (APISearch.MySimpleAPISearch_arun b).
Proof.
  repeat split.
Qed.

(** ** The keyless API tool *)

(** C5: for every search term [MySimpleAPISearch._run] performs exactly
    one external effect, a GET to the fixed endpoint whose parameters are
    the caller's key, three constants and the search term; it never calls
    the Oracle, and what it returns is the body of the response as JSON
    text (the exception object when the body is no JSON; an exception of
    the request itself is raised on, as is one that [except Exception]
    does not catch). *)
Theorem simple_api_search_one_get (env : Env) (self : APISearch.MySimpleAPISearch)
    (query : string) (h : history) :
  let params := [("api_key", APISearch.api_key self); ("type", "search");
                 ("ebay_domain", "ebay.com"); ("search_term", query)] in
  let url := "https://api.countdownapi.com/request" in
  effects_of (APISearch.MySimpleAPISearch_run env self query) h = [EHttpGet url [] params]
  /\ filter is_oracle_call (effects_of (APISearch.MySimpleAPISearch_run env self query) h) = []
  /\ result_of (APISearch.MySimpleAPISearch_run env self query) h =
       match http env h url [] params with
       | Raise e => Raise e
       | Return r =>
           match json_loads env (content r) with
           | Return v => Return (PyStr (json_dumps env v))
           | Raise e => if isinstance_Exception e then Return (PyExc e) else Raise e
           end
       end.
Proof.
  cbv zeta.
  assert (E : effects_of (APISearch.MySimpleAPISearch_run env self query) h
              = [EHttpGet "https://api.countdownapi.com/request" []
                   (APISearch.countdown_params (APISearch.api_key self) query)]).
  { unfold effects_of, APISearch.MySimpleAPISearch_run, bind, perform, try_except.
    fold APISearch.countdown_endpoint.
    destruct (http env h _ _ _) as [r|e]; simpl.
    - destruct (json_loads env (content r)) as [v|e]; simpl;
        [|destruct (isinstance_Exception e); simpl]; apply skipn_length_app.
    - apply skipn_length_app. }
  split; [exact E|]. split; [rewrite E; reflexivity|].
  unfold result_of, APISearch.MySimpleAPISearch_run, bind, perform, try_except.
  fold APISearch.countdown_endpoint.
  change (APISearch.countdown_params (APISearch.api_key self) query)
    with [("api_key", APISearch.api_key self); ("type", "search");
          ("ebay_domain", "ebay.com"); ("search_term", query)].
  destruct (http env h _ _ _) as [r|e]; simpl; auto.
  destruct (json_loads env (content r)) as [v|e]; [reflexivity|].
  simpl. destruct (isinstance_Exception e); reflexivity.
Qed.

(** ** The web search tool *)


(** ** Exceptions inside the API tools *)

(** C2, at a failing input: when the chain raises [e], an instance of
    [Exception], [MyAPISearch._run] returns the exception object [e]
    itself, which is no string; an [e] that [except Exception] does not
    catch is raised on, as is the error of the chain's constructor, which
    stands before the [try] and refuses an empty list of domains.  When
    the body of the response is no JSON, [MySimpleAPISearch._run] returns
    the exception object as well; and when the request of
    [MySimpleAPISearch._run] itself raises, nothing catches the
    exception. *)
Theorem api_tools_return_exception_object (e : exn) (page : string)
    (a : APISearch.MyAPISearch) (b : APISearch.MySimpleAPISearch)
    (query : string) (h : history) :
  result_of (APISearch.MyAPISearch_run (env_model_raises e page) a query) h
    = match APISearch.limit_to_domains a with
      | Some [] => Raise APISearch.limit_to_domains_error
      | _ => if isinstance_Exception e then Return (PyExc e) else Raise e
      end
  /\ is_str (PyExc e) = false
  /\ result_of (APISearch.MySimpleAPISearch_run (env_model_raises e page) b query) h
    = Return (PyExc (ValueError "Expecting value: line 1 column 1 (char 0)"))
  /\ result_of (APISearch.MySimpleAPISearch_run (env_web_raises e) b query) h
    = Raise e.
Proof.
  repeat split.
  unfold result_of, APISearch.MyAPISearch_run, APISearch.APIChain_from_llm_and_api_docs,
    of_outcome, bind.
  destruct (APISearch.limit_to_domains a) as [[|d ds]|]; [reflexivity| |];
    unfold try_except, APISearch.APIChain_invoke, APISearch.predict, bind, sleep, perform;
    simpl; destruct (isinstance_Exception e); reflexivity.
Qed.

(** ** The tool lists *)

Lemma NoDup_singleton {A} (x : A) : NoDup [x].
Proof.
  constructor; [intros [] | constructor].
Qed.

Lemma exec_all_tool_calls (prog : list Registry.statement) :
  forallb Registry.is_tool_call prog = true ->
  forall st h, fst (Registry.exec_all prog st h) = st.
Proof.
  induction prog as [|s prog IH]; intros Hcalls st h; [reflexivity|].
  simpl in Hcalls. apply andb_true_iff in Hcalls. destruct Hcalls as [Hs Hprog].
  destruct s as [asynchronous tool_name tool_input| |]; try discriminate Hs.
  cbn [Registry.exec_all Registry.exec].
  destruct (Registry.lookup tool_name st); apply IH; exact Hprog.
Qed.

Lemma lookup_unique (st : Registry.store) :
  NoDup (map name st) ->
  forall t, In t st -> Registry.lookup (name t) st = Some t.
Proof.
  induction st as [|t0 st IH]; intros Hnd t Hin; [destruct Hin|].
  inversion Hnd as [|x l Hnotin Hnd']; subst.
  cbn [Registry.lookup]. destruct Hin as [->|Hin].
  - rewrite String.eqb_refl. reflexivity.
  - destruct (String.eqb_spec (name t0) (name t)) as [E|_].
    + exfalso. apply Hnotin. rewrite E. apply in_map. exact Hin.
    + apply IH; assumption.
Qed.

Lemma run_calls_tool_calls (asynchronous : bool) (calls : list (string * string)) :
  forallb Registry.is_tool_call (Registry.run_calls asynchronous calls) = true.
Proof.
  induction calls as [|c calls IH]; [reflexivity|exact IH].
Qed.



(** ** Calling a tool twice *)

Lemma twice_same {A} (m : M A) :
  (forall h1 h2, fst (m h1) = fst (m h2)) ->
  forall h, fst (twice m h) = snd (twice m h).
Proof.
  intros H h. unfold twice.
  destruct (m h) as [o1 h1] eqn:E1. destruct (m h1) as [o2 h2] eqn:E2. simpl.
  specialize (H h h1). rewrite E1, E2 in H. exact H.
Qed.

(** C8: with static backing resources, calling the web search, the page
    fetch or the keyless API tool twice with the same input gives the
    same observation both times. *)
Theorem tools_idempotent_on_static_resources (env : Env)
    (s : BingChatClone.MyBingSearch) (b : APISearch.MySimpleAPISearch)
    (input : string) (h : history) :
  static_resources env ->
  fst (twice (BingChatClone.MyBingSearch_run env s input) h)
    = snd (twice (BingChatClone.MyBingSearch_run env s input) h)
  /\ fst (twice (BingChatClone.fetch_web_page env input) h)
    = snd (twice (BingChatClone.fetch_web_page env input) h)
  /\ fst (twice (APISearch.MySimpleAPISearch_run env b input) h)
    = snd (twice (APISearch.MySimpleAPISearch_run env b input) h).
Proof.
  intros [Hhttp Hbing]. repeat split; apply twice_same; intros h1 h2.
  - unfold BingChatClone.MyBingSearch_run,
      BingChatClone.BingSearchAPIWrapper_results, bind, perform.
    rewrite (Hbing h1 h2).
    destruct (bing env h2 input _) as [[|p pages]|e]; reflexivity.
  - unfold BingChatClone.fetch_web_page, bind, perform.
    rewrite (Hhttp h1 h2).
    destruct (http env h2 input _ _); reflexivity.
  - unfold APISearch.MySimpleAPISearch_run, bind, perform, try_except.
    rewrite (Hhttp h1 h2).
    destruct (http env h2 _ _ _) as [r|e]; [|reflexivity].
    destruct (json_loads env (content r)) as [v|e]; [reflexivity|].
    simpl. destruct (isinstance_Exception e); reflexivity.
Qed.

Lemma tools_idempotent_on_static_resources_witness :
  static_resources (env_model_raises (ValueError "no model") "<p>10</p>")
  /\ fst (twice (BingChatClone.fetch_web_page
                   (env_model_raises (ValueError "no model") "<p>10</p>") "u1") [])
     = snd (twice (BingChatClone.fetch_web_page
                   (env_model_raises (ValueError "no model") "<p>10</p>") "u1") []).
Proof.
  assert (S : static_resources (env_model_raises (ValueError "no model") "<p>10</p>")).
  { split; reflexivity. }
  split; [exact S|].
  exact (proj1 (proj2 (tools_idempotent_on_static_resources
                         (env_model_raises (ValueError "no model") "<p>10</p>")
                         BingChatClone.MyBingSearch_default
                         (APISearch.mk_MySimpleAPISearch "demo") "u1" [] S))).
Defined.

(** ** The generic API tool *)

Ltac unfold_api_run :=
  unfold APISearch.MyAPISearch_run, APISearch.APIChain_invoke,
    APISearch.APIChain_from_llm_and_api_docs, APISearch.predict,
    try_except, of_outcome, bind, sleep, perform, ret, raise; simpl.

Ltac same_outcomes :=
  repeat match goal with
    | H : Return _ = Return _ |- _ => inversion H; subst; clear H
    | H : Raise _ = Raise _ |- _ => inversion H; subst; clear H
    | H : Return _ = Raise _ |- _ => discriminate H
    | H : Raise _ = Return _ |- _ => discriminate H
    end.

(** Case analysis on the next stage of the chain. *)
Ltac api_stage :=
  match goal with
  | |- context [match llm ?e ?h ?p with _ => _ end] =>
      destruct (llm e h p) eqn:?; simpl
  | |- context [match http ?e ?h ?u ?a ?b with _ => _ end] =>
      destruct (http e h u a b) eqn:?; simpl
  | |- context [match APISearch.limit_to_domains ?s with _ => _ end] =>
      destruct (APISearch.limit_to_domains s) as [[|? ?]|] eqn:?; simpl
  | |- context [if in_allowed_domain ?e ?u ?d then _ else _] =>
      destruct (in_allowed_domain e u d) eqn:?; simpl
  | |- context [if isinstance_Exception ?e then _ else _] =>
      destruct (isinstance_Exception e) eqn:?; simpl
  end.



(** ** The reasoning loop *)

Section LoopProperties.
Variable env : Env.
Variable max_iterations : nat.
Variable registry : list Loop.Tool.

Local Notation step := (Loop.step env max_iterations registry).
Local Notation steps n := (Loop.steps env n max_iterations registry).

Lemma dispatch_returns (call : string * string) (h : history) :
  exists o h', Loop.dispatch registry call h = (Return o, h').
Proof.
  unfold Loop.dispatch.
  destruct (Loop.find_tool (fst call) registry) as [t|]; [|eauto].
  destruct (Loop.invoke t (snd call) h) as [[s|e] h']; eauto.
Qed.

Lemma dispatch_all_returns (calls : list (string * string)) (h : history) :
  exists turn h', Loop.dispatch_all registry calls h = (Return turn, h')
                  /\ List.length turn = List.length calls.
Proof.
  revert h. induction calls as [|call calls IH]; intros h; simpl.
  - exists [], h. split; reflexivity.
  - unfold bind. destruct (dispatch_returns call h) as (o & h1 & ->).
    destruct (IH h1) as (os & h2 & -> & Hlen).
    exists (o :: os), h2. simpl. split; [reflexivity | congruence].
Qed.

Lemma initial_ok (q : string) : run_ok max_iterations (Loop.initial q).
Proof.
  unfold run_ok, Loop.initial, len; simpl. repeat split; lia.
Qed.

Lemma step_ok (r : Loop.Run) (h : history) :
  run_ok max_iterations r -> exists r' h', step r h = (Return r', h') /\ run_ok max_iterations r'.
Proof.
  intros (Hlen & Hle & Hst). unfold Loop.step.
  destruct r as [st tr it]; simpl in *.
  destruct st as [|calls|turn|a|why].
  - destruct (Nat.leb_spec max_iterations it).
    + eexists _, _; split; [reflexivity|]. unfold run_ok; simpl; repeat split; auto; try lia.
    + destruct (complete env h tr _) as [[calls|a]|e];
        eexists _, _; (split; [reflexivity|]); unfold run_ok; simpl; repeat split; auto; try lia.
  - unfold bind. destruct (dispatch_all_returns calls h) as (turn & h' & -> & _).
    eexists _, _; split; [reflexivity|]. unfold run_ok; simpl; repeat split; auto; try lia.
  - eexists _, _; split; [reflexivity|]. unfold run_ok, len in *; simpl.
    rewrite length_app; simpl. repeat split; lia.
  - eexists _, _; split; [reflexivity|]. unfold run_ok; simpl; repeat split; auto; try lia.
  - eexists _, _; split; [reflexivity|]. unfold run_ok; simpl; repeat split; auto; try lia.
Qed.

Lemma steps_ok (n : nat) (r : Loop.Run) (h : history) :
  run_ok max_iterations r -> exists r' h', steps n r h = (Return r', h') /\ run_ok max_iterations r'.
Proof.
  revert r h. induction n as [|n IH]; intros r h Hok; simpl.
  - exists r, h. split; [reflexivity | exact Hok].
  - unfold bind. destruct (step_ok r h Hok) as (r1 & h1 & -> & Hok1).
    apply IH. exact Hok1.
Qed.

Lemma step_terminal (r : Loop.Run) (h : history) :
  Loop.is_terminal (Loop.state r) = true -> step r h = (Return r, h).
Proof.
  unfold Loop.step. destruct (Loop.state r); simpl; intros H;
    try discriminate H; reflexivity.
Qed.

Lemma steps_terminal (n : nat) (r : Loop.Run) (h : history) :
  Loop.is_terminal (Loop.state r) = true -> steps n r h = (Return r, h).
Proof.
  intros H. induction n as [|n IH]; simpl; [reflexivity|].
  unfold bind. rewrite (step_terminal r h H). exact IH.
Qed.

Lemma step_remaining (r r' : Loop.Run) (h h' : history) :
  run_ok max_iterations r -> step r h = (Return r', h') ->
  Loop.is_terminal (Loop.state r) = false ->
  remaining max_iterations r' < remaining max_iterations r.
Proof.
  intros (Hlen & Hle & Hst). unfold Loop.step, remaining.
  destruct r as [st tr it]; simpl in *.
  destruct st as [|calls|turn|a|why]; intros E Hnt; try discriminate Hnt.
  - destruct (Nat.leb_spec max_iterations it).
    + inversion E; subst; simpl. lia.
    + destruct (complete env h tr _) as [[calls|a]|e];
        inversion E; subst; simpl; lia.
  - unfold bind in E. destruct (dispatch_all_returns calls h) as (turn & h1 & Hd & _).
    rewrite Hd in E. inversion E; subst; simpl. lia.
  - inversion E; subst; simpl. lia.
Qed.

Lemma steps_terminate (n : nat) (r : Loop.Run) (h : history) :
  run_ok max_iterations r -> remaining max_iterations r <= n ->
  exists r' h', steps n r h = (Return r', h')
                /\ run_ok max_iterations r' /\ Loop.is_terminal (Loop.state r') = true.
Proof.
  revert r h. induction n as [|n IH]; intros r h Hok Hrem.
  - exists r, h. split; [reflexivity|]. split; [exact Hok|].
    unfold remaining in Hrem. destruct Hok as (_ & Hle & Hst).
    destruct (Loop.state r); simpl in *; auto; lia.
  - destruct (Loop.is_terminal (Loop.state r)) eqn:T.
    + exists r, h. rewrite (steps_terminal (S n) r h T). auto.
    + simpl. unfold bind. destruct (step_ok r h Hok) as (r1 & h1 & E & Hok1).
      rewrite E. apply IH; [exact Hok1|].
      pose proof (step_remaining r r1 h h1 Hok E T). lia.
Qed.

Lemma step_only_budget_ends (r r' : Loop.Run) (h h' : history) :
  never_answers env -> run_ok max_iterations r -> only_budget_ends max_iterations r ->
  step r h = (Return r', h') -> only_budget_ends max_iterations r'.
Proof.
  intros Hnever (Hlen & Hle & Hst) Hb. unfold Loop.step, only_budget_ends in *.
  destruct r as [st tr it]; simpl in *.
  destruct st as [|calls|turn|a|why]; intros E.
  - destruct (Nat.leb_spec max_iterations it).
    + inversion E; subst; simpl. split; [reflexivity | lia].
    + destruct (Hnever h tr (map Loop.tool_spec registry)) as (calls & Hc).
      rewrite Hc in E. inversion E; subst; simpl. exact I.
  - unfold bind in E. destruct (dispatch_all_returns calls h) as (turn & h1 & Hd & _).
    rewrite Hd in E. inversion E; subst; simpl. exact I.
  - inversion E; subst; simpl. exact I.
  - inversion E; subst; simpl. exact Hb.
  - inversion E; subst; simpl. exact Hb.
Qed.

Lemma steps_only_budget_ends (n : nat) (r r' : Loop.Run) (h h' : history) :
  never_answers env -> run_ok max_iterations r -> only_budget_ends max_iterations r ->
  steps n r h = (Return r', h') -> only_budget_ends max_iterations r'.
Proof.
  intros Hnever. revert r h. induction n as [|n IH]; intros r h Hok Hb E; simpl in E.
  - inversion E; subst. exact Hb.
  - unfold bind in E. destruct (step_ok r h Hok) as (r1 & h1 & E1 & Hok1).
    rewrite E1 in E.
    exact (IH r1 h1 Hok1 (step_only_budget_ends r r1 h h1 Hnever Hok Hb E1) E).
Qed.

End LoopProperties.

(** C6: from the initial state, after any number of transitions the
    transcript has at most [max_iterations] recorded turns; the loop
    returns a result, whose transcript is within the bound; a [Thinking]
    step that finds the bound reached ends the run as
    [Failed MaxStepsExceeded], and a run that ends this way has recorded
    exactly [max_iterations] turns; when the Oracle never answers, the
    run ends this way. *)
Theorem loop_transcript_within_max_iterations (env : Env) (max_iterations : nat)
    (registry : list Loop.Tool) (question : string) (h : history) :
  (forall n, exists r h',
      Loop.steps env n max_iterations registry (Loop.initial question) h = (Return r, h')
      /\ len (Loop.run_transcript r) <= max_iterations)
  /\ (exists res h',
        Loop.run_loop env max_iterations registry question h = (Return res, h')
        /\ len (transcript res) <= max_iterations
        /\ (terminated_by res = MaxStepsExceeded -> len (transcript res) = max_iterations)
        /\ (never_answers env ->
            terminated_by res = MaxStepsExceeded /\ len (transcript res) = max_iterations))
  /\ (forall r h0,
        Loop.state r = Loop.Thinking -> max_iterations <= Loop.iterations r ->
        Loop.step env max_iterations registry r h0
          = (Return (Loop.mk_run (Loop.Failed MaxStepsExceeded)
                       (Loop.run_transcript r) (Loop.iterations r)), h0)).
Proof.
  split; [|split].
  - intros n.
    destruct (steps_ok env max_iterations registry n _ h (initial_ok max_iterations question))
      as (r & h' & E & Hlen & Hle & _).
    exists r, h'. split; [exact E | lia].
  - destruct (steps_terminate env max_iterations registry (3 * max_iterations + 1)
                _ h (initial_ok max_iterations question)) as (r & h' & E & Hok & T).
    { unfold remaining, Loop.initial; simpl. lia. }
    exists (Loop.to_result r), h'. unfold Loop.run_loop, bind. rewrite E.
    split; [reflexivity|].
    pose proof Hok as (Hlen & Hle & Hst).
    assert (Htr : transcript (Loop.to_result r) = Loop.run_transcript r).
    { unfold Loop.to_result. destruct (Loop.state r); reflexivity. }
    rewrite Htr. split; [lia|]. split.
    + unfold Loop.to_result. destruct (Loop.state r) as [| | | |why]; simpl;
        try discriminate. intros ->. lia.
    + intros Hnever.
      pose proof (steps_only_budget_ends env max_iterations registry _ _ r h h'
                    Hnever (initial_ok max_iterations question) I E) as Hb.
      unfold only_budget_ends in Hb. unfold Loop.to_result.
      destruct (Loop.state r) as [| | | |why]; simpl in *; try discriminate T.
      * contradiction.
      * destruct Hb as [-> Hit]. split; [reflexivity | lia].
  - intros r h0 Hst Hle. unfold Loop.step. rewrite Hst.
    destruct (Nat.leb_spec max_iterations (Loop.iterations r)); [reflexivity | lia].
Qed.

Lemma loop_transcript_within_max_iterations_witness :
  never_answers env_prices
  /\ exists res h',
       Loop.run_loop env_prices 5 [searcher_stub] "price of resource X" [] = (Return res, h')
       /\ terminated_by res = MaxStepsExceeded /\ len (transcript res) = 5.
Proof.
  assert (N : never_answers env_prices).
  { intros h t specs. eexists. reflexivity. }
  split; [exact N|].
  destruct (proj1 (proj2 (loop_transcript_within_max_iterations env_prices 5
                             [searcher_stub] "price of resource X" [])))
    as (res & h' & E & _ & _ & Hnever).
  exists res, h'. split; [exact E|]. exact (Hnever N).
Defined.

Example two_pairs_in_one_turn :
  option_map (fun res => (len (transcript res), List.length (pairs (transcript res))))
    (match fst (Loop.run_loop env_two_calls 1 [searcher_stub] "q" []) with
     | Return res => Some res
     | Raise _ => None
     end)
  = Some (1, 2).
Proof.
  reflexivity.
Qed.

(** ** [parse_html] on documents *)

Import Html Document.

(** ** Strings *)

Lemma append_assoc (a b c : string) : (a ++ b) ++ c = a ++ (b ++ c).
Proof.
  induction a as [|x a IH]; simpl; congruence.
Qed.

Lemma append_nil_r (a : string) : a ++ "" = a.
Proof.
  induction a as [|x a IH]; simpl; congruence.
Qed.

Lemma concat_cons (x : string) (xs : list string) :
  String.concat "" (x :: xs) = x ++ String.concat "" xs.
Proof.
  destruct xs as [|y ys]; simpl; [rewrite append_nil_r|]; reflexivity.
Qed.

Lemma concat_app (l1 l2 : list string) :
  String.concat "" (l1 ++ l2) = String.concat "" l1 ++ String.concat "" l2.
Proof.
  induction l1 as [|x l1 IH]; [reflexivity|].
  rewrite <- app_comm_cons, !concat_cons, IH, append_assoc. reflexivity.
Qed.

Lemma all_ascii_app (a b : string) : all_ascii (a ++ b) = all_ascii a && all_ascii b.
Proof.
  induction a as [|x a IH]; simpl; [reflexivity|].
  rewrite IH, andb_assoc. reflexivity.
Qed.

Lemma span_app (p : ascii -> bool) (s rest : string) :
  forall_chars p s = true -> stops p rest -> span p (s ++ rest) = (s, rest).
Proof.
  intros Hs Hr. induction s as [|c s IH]; simpl in *.
  - destruct rest as [|d r]; [reflexivity|]. simpl in *. rewrite Hr. reflexivity.
  - apply andb_prop in Hs as [Hc Hs]. rewrite Hc, (IH Hs). reflexivity.
Qed.

Lemma strip_prefix_app (p r : string) : strip_prefix p (p ++ r) = Some r.
Proof.
  induction p as [|c p IH]; simpl; [destruct r; reflexivity|].
  rewrite Ascii.eqb_refl. exact IH.
Qed.

(** ** Character classes *)

Lemma is_letter_not_space (c : ascii) : is_letter c = true -> is_space c = false.
Proof.
  unfold is_letter, is_space, is_upper, is_lower, between.
  intros H. apply orb_prop in H.
  destruct H as [H|H]; apply andb_prop in H as [H1 H2];
    apply Nat.leb_le in H1; apply Nat.leb_le in H2;
    apply orb_false_iff; split; apply andb_false_iff;
    right; apply Nat.leb_gt; lia.
Qed.

Lemma is_letter_interesting (c : ascii) :
  is_letter c = true -> is_interesting_normal c = true -> False.
Proof.
  unfold is_letter, is_upper, is_lower, between, is_interesting_normal, code.
  intros H Hi. apply orb_prop in Hi.
  destruct Hi as [Hi|Hi]; apply Ascii.eqb_eq in Hi; subst c; discriminate H.
Qed.

Lemma endname_is_tagname (c : ascii) :
  is_endname_char c = true -> is_tagname_char c = true.
Proof.
  unfold is_endname_char, is_tagname_char, is_letter, is_upper, is_lower, is_digit, between.
  intros H. apply negb_true_iff.
  destruct (existsb (Nat.eqb (code c)) [9; 10; 13; 12; 32; 47; 62; 0]) eqn:E; [|reflexivity].
  exfalso. simpl in E, H.
  repeat (apply orb_prop in E; destruct E as [E|E]); try discriminate E;
    apply Nat.eqb_eq in E; rewrite E in H; discriminate H.
Qed.

Lemma forall_chars_impl (p q : ascii -> bool) (s : string) :
  (forall c, p c = true -> q c = true) ->
  forall_chars p s = true -> forall_chars q s = true.
Proof.
  intros Hpq. induction s as [|c s IH]; simpl; [reflexivity|].
  intros H. apply andb_prop in H as [Hc Hs]. rewrite (Hpq c Hc), (IH Hs). reflexivity.
Qed.

(** ** One token at a time *)

Lemma goahead_text (f : nat) (s rest : string) :
  (s =? "") = false ->
  forall_chars (fun c => negb (is_interesting_normal c)) s = true ->
  clean rest ->
  goahead (S f) None (s ++ rest)
  = option_map (cons (handle_data s)) (goahead f None rest).
Proof.
  intros Hne Hs Hr. destruct s as [|c s]; [discriminate Hne|].
  pose proof (span_app _ (String c s) rest Hs Hr) as Hspan.
  simpl in Hs. apply andb_prop in Hs as [Hc _].
  cbn [goahead append]. rewrite Hc.
  change (String c (s ++ rest)) with (String c s ++ rest). rewrite Hspan. reflexivity.
Qed.

Lemma length_append (a b : string) :
  String.length (a ++ b) = String.length a + String.length b.
Proof.
  induction a as [|x a IH]; simpl; congruence.
Qed.

(** *** Attributes *)

Lemma is_name_facts (name : string) :
  is_name name = true ->
  starts_with_letter name = true
  /\ forall_chars is_endname_char name = true
  /\ all_ascii name = true.
Proof.
  unfold is_name. intros H.
  apply andb_prop in H as [H H3]. apply andb_prop in H as [H1 H2]. auto.
Qed.

(** What follows the attributes rendered so far starts with a space or
    with the closing bracket. *)
Lemma after_attr_shape (attrs : list attribute) (rest : string) :
  exists c r, render_attrs attrs ++ ">" ++ rest = String c r
              /\ (c = " "%char \/ c = ">"%char).
Proof.
  destruct attrs as [|a attrs].
  - exists ">"%char, rest. split; [reflexivity | auto].
  - unfold render_attrs. cbn [map]. rewrite concat_cons. unfold render_attr at 1.
    rewrite !append_assoc. cbn [append]. eexists _, _. split; [reflexivity | auto].
Qed.

Lemma skip_attrs_S (f : nat) (s : string) :
  skip_attrs (S f) s =
  match strip_prefix ">" (skip_spaces s) with
  | Some rest => Some rest
  | None =>
      if starts_with_letter (skip_spaces s)
         && Nat.ltb (String.length (skip_spaces s)) (String.length s) then
        match strip_prefix (String "=" (String quote ""))
                (snd (span is_endname_char (skip_spaces s))) with
        | Some v =>
            match strip_prefix (String quote "") (snd (span is_not_quote v)) with
            | Some r'' => skip_attrs f r''
            | None => None
            end
        | None => skip_attrs f (snd (span is_endname_char (skip_spaces s)))
        end
      else None
  end.
Proof.
  cbn [skip_attrs].
  destruct (span is_endname_char (skip_spaces s)) as [x r]. cbn [snd].
  destruct (strip_prefix (String "=" (String quote "")) r) as [v|]; [|reflexivity].
  destruct (span is_not_quote v); reflexivity.
Qed.

Lemma skip_spaces_letter (s : string) :
  starts_with_letter s = true -> skip_spaces s = s.
Proof.
  destruct s as [|c s]; [reflexivity|]. simpl. intros H.
  rewrite (is_letter_not_space c H). reflexivity.
Qed.

Lemma strip_prefix_other (c : ascii) (s : string) :
  match s with String d _ => Ascii.eqb c d = false | EmptyString => True end ->
  forall p, strip_prefix (String c p) s = None.
Proof.
  destruct s as [|d s]; [reflexivity|]. intros H p. cbn [strip_prefix]. rewrite H. reflexivity.
Qed.

Lemma skip_attrs_render (attrs : list attribute) (rest : string) (fuel : nat) :
  forallb wf_attr attrs = true ->
  List.length attrs < fuel ->
  skip_attrs fuel (render_attrs attrs ++ ">" ++ rest) = Some rest.
Proof.
  revert fuel. induction attrs as [|[a v] attrs IH]; intros fuel Hwf Hfuel.
  - destruct fuel as [|f]; [simpl in Hfuel; lia|]. reflexivity.
  - destruct fuel as [|f]; [simpl in Hfuel; lia|].
    simpl in Hfuel. cbn [forallb] in Hwf. apply andb_prop in Hwf as [Ha Hwf].
    unfold wf_attr in Ha. cbn [fst snd] in Ha. apply andb_prop in Ha as [Hname Hv].
    destruct (is_name_facts a Hname) as (Hl & Hn & _).
    specialize (IH f Hwf ltac:(lia)).
    unfold render_attrs. cbn [map]. rewrite concat_cons. fold (render_attrs attrs).
    unfold render_attr. cbn [fst snd]. rewrite !append_assoc.
    set (R := render_attrs attrs ++ ">" ++ rest) in *.
    destruct (after_attr_shape attrs rest) as (c & r & HR & Hc). fold R in HR.
    set (V := match v with
              | Some v0 => String "=" (String quote (v0 ++ String quote ""))
              | None => ""
              end).
    assert (HX : starts_with_letter (a ++ V ++ R) = true).
    { destruct a; [discriminate Hl | exact Hl]. }
    rewrite skip_attrs_S.
    change (skip_spaces (" " ++ a ++ V ++ R)) with (skip_spaces (a ++ V ++ R)).
    rewrite (skip_spaces_letter _ HX).
    rewrite strip_prefix_other.
    2:{ destruct a as [|a0 a]; [discriminate Hl|]. cbn [append].
        apply Ascii.eqb_neq. intros <-. cbv in Hl. discriminate Hl. }
    rewrite HX.
    rewrite (proj2 (Nat.ltb_lt _ _)) by (cbn [append String.length]; lia).
    cbn [andb].
    rewrite (span_app is_endname_char a (V ++ R) Hn).
    2:{ subst V. destruct v; [reflexivity|]. cbn [append]. rewrite HR.
        destruct Hc as [-> | ->]; reflexivity. }
    cbn [snd]. subst V. destruct v as [v|].
    + apply andb_prop in Hv as [Hq _].
      change (String "=" (String quote (v ++ String quote "")) ++ R)
        with ((String "=" (String quote "")) ++ ((v ++ String quote "") ++ R)).
      rewrite strip_prefix_app, append_assoc.
      rewrite (span_app is_not_quote v (String quote "" ++ R) Hq) by reflexivity.
      cbn [snd]. rewrite strip_prefix_app. exact IH.
    + cbn [append]. rewrite strip_prefix_other; [exact IH|].
      rewrite HR. destruct Hc as [-> | ->]; reflexivity.
Qed.

Lemma length_render_attrs (attrs : list attribute) :
  List.length attrs <= String.length (render_attrs attrs).
Proof.
  induction attrs as [|a attrs IH]; [simpl; lia|].
  unfold render_attrs in *. cbn [map]. rewrite concat_cons, length_append.
  unfold render_attr at 1. cbn [append String.length List.length]. lia.
Qed.

Lemma parse_starttag_render (name rest : string) (attrs : list attribute) :
  forall_chars is_endname_char name = true ->
  forallb wf_attr attrs = true ->
  parse_starttag (name ++ render_attrs attrs ++ ">" ++ rest)
  = Some (lower name,
          if mem_string (lower name) CDATA_CONTENT_ELEMENTS then Some (lower name) else None,
          rest).
Proof.
  intros Hn Hattrs. unfold parse_starttag.
  rewrite (span_app is_tagname_char name (render_attrs attrs ++ ">" ++ rest)).
  - rewrite skip_attrs_render; [reflexivity | exact Hattrs |].
    rewrite length_append. pose proof (length_render_attrs attrs). lia.
  - eapply forall_chars_impl; [apply endname_is_tagname | exact Hn].
  - destruct (after_attr_shape attrs rest) as (c & r & -> & [-> | ->]); reflexivity.
Qed.

Lemma goahead_starttag_any (f : nat) (name rest : string) (attrs : list attribute) :
  starts_with_letter name = true ->
  forall_chars is_endname_char name = true ->
  forallb wf_attr attrs = true ->
  goahead (S f) None ("<" ++ name ++ render_attrs attrs ++ ">" ++ rest)
  = option_map (cons (handle_starttag (lower name)))
      (goahead f (if mem_string (lower name) CDATA_CONTENT_ELEMENTS
                  then Some (lower name) else None) rest).
Proof.
  intros Hl Hn Hattrs. destruct name as [|c name]; [discriminate Hl|]. simpl in Hl.
  cbn [goahead append]. cbn [is_interesting_normal Ascii.eqb negb orb Bool.eqb].
  cbv iota. rewrite Hl.
  change (String c (name ++ render_attrs attrs ++ String ">" rest))
    with (String c name ++ render_attrs attrs ++ ">" ++ rest).
  rewrite parse_starttag_render by assumption.
  reflexivity.
Qed.

Lemma plain_name_split (name : string) :
  plain_name name = true ->
  is_name name = true
  /\ mem_string (lower name) CDATA_CONTENT_ELEMENTS = false
  /\ mem_string (lower name) (map fst string_containers) = false
  /\ mem_string (lower name) empty_element_tags = false.
Proof.
  unfold plain_name. intros H.
  apply andb_prop in H as [H H4]. apply andb_prop in H as [H H3].
  apply andb_prop in H as [H1 H2].
  apply negb_true_iff in H2, H3, H4. auto.
Qed.

Lemma goahead_starttag (f : nat) (name rest : string) (attrs : list attribute) :
  is_name name = true ->
  mem_string (lower name) CDATA_CONTENT_ELEMENTS = false ->
  forallb wf_attr attrs = true ->
  goahead (S f) None ("<" ++ name ++ render_attrs attrs ++ ">" ++ rest)
  = option_map (cons (handle_starttag (lower name))) (goahead f None rest).
Proof.
  intros Hname Hc Hattrs. destruct (is_name_facts name Hname) as (Hl & Hn & _).
  rewrite goahead_starttag_any by assumption.
  rewrite Hc. reflexivity.
Qed.

Lemma match_endtagfind_plain (name rest : string) :
  is_name name = true ->
  match_endtagfind (name ++ ">" ++ rest) = Some (name, rest).
Proof.
  intros Hname. destruct (is_name_facts name Hname) as (Hp & Hn & _).
  destruct name as [|c name]; [discriminate Hp|]. simpl in Hp.
  unfold match_endtagfind. cbn [append skip_spaces].
  rewrite (is_letter_not_space c Hp), Hp.
  change (String c (name ++ String ">" rest)) with (String c name ++ ">" ++ rest).
  rewrite (span_app is_endname_char (String c name) (">" ++ rest)) by (assumption || reflexivity).
  reflexivity.
Qed.

Lemma goahead_endtag (f : nat) (name rest : string) :
  is_name name = true ->
  goahead (S f) None ("</" ++ name ++ ">" ++ rest)
  = option_map (cons (handle_endtag (lower name))) (goahead f None rest).
Proof.
  intros Hp. cbn [goahead append].
  cbn [is_interesting_normal Ascii.eqb negb orb Bool.eqb]. cbv iota.
  change (is_letter "/") with false. cbv iota.
  change (strip_prefix "/" (String "/" (name ++ String ">" rest)))
    with (Some (name ++ ">" ++ rest)).
  cbv iota. rewrite (match_endtagfind_plain name rest Hp). reflexivity.
Qed.

Lemma skip_spaces_app (t x : string) :
  stops is_space x -> skip_spaces (t ++ x) = skip_spaces t ++ x.
Proof.
  intros Hx. induction t as [|e t IH]; simpl.
  - destruct x as [|c x]; [reflexivity|]. simpl in *. rewrite Hx. reflexivity.
  - destruct (is_space e); [exact IH | reflexivity].
Qed.

Lemma strip_prefix_one_app (c : ascii) (y x r : string) :
  stops (Ascii.eqb c) x ->
  strip_prefix (String c "") (y ++ x) = Some r ->
  exists r', strip_prefix (String c "") y = Some r'.
Proof.
  intros Hx. destruct y as [|b y]; simpl.
  - destruct x as [|d x]; simpl in *; [discriminate|]. rewrite Hx. discriminate.
  - destruct (Ascii.eqb c b); [|discriminate]. intros _. destruct y; eauto.
Qed.

(** *** Comments *)

Lemma strip_prefix_two (a b : ascii) (s r : string) :
  strip_prefix (String a (String b "")) s = Some r -> s = String a (String b r).
Proof.
  destruct s as [|c [|d s]]; simpl.
  - discriminate.
  - destruct (Ascii.eqb a c); discriminate.
  - destruct (Ascii.eqb_spec a c); [|discriminate].
    destruct (Ascii.eqb_spec b d); [|discriminate].
    destruct s; intros [= <-]; subst; reflexivity.
Qed.

Lemma match_commentclose_app (s rest r : string) :
  s <> "" ->
  match_commentclose (s ++ "-->" ++ rest) = Some r ->
  exists r', match_commentclose s = Some r'.
Proof.
  intros Hne. unfold match_commentclose.
  destruct (strip_prefix "--" (s ++ "-->" ++ rest)) as [r0|] eqn:E0; [|discriminate].
  apply strip_prefix_two in E0.
  destruct s as [|c [|d s]]; [congruence| |].
  - inversion E0; subst. discriminate.
  - inversion E0; subst.
    change (String "-" (String "-" s)) with ("--" ++ s). rewrite strip_prefix_app.
    rewrite skip_spaces_app by reflexivity.
    apply strip_prefix_one_app. reflexivity.
Qed.

Lemma search_commentclose_app (s rest : string) :
  search_commentclose s = None ->
  search_commentclose (s ++ "-->" ++ rest) = Some (s, rest).
Proof.
  induction s as [|c s IH]; intros Hs.
  - cbn. destruct rest; reflexivity.
  - cbn [search_commentclose] in Hs.
    destruct (match_commentclose (String c s)) eqn:Hm; [discriminate|].
    destruct (search_commentclose s) as [[? ?]|] eqn:Hs'; [discriminate|].
    change (String c s ++ "-->" ++ rest) with (String c (s ++ "-->" ++ rest)).
    cbn [search_commentclose].
    destruct (match_commentclose (String c (s ++ "-->" ++ rest))) eqn:Hm'.
    + change (String c (s ++ "-->" ++ rest)) with (String c s ++ "-->" ++ rest) in Hm'.
      apply match_commentclose_app in Hm' as [r' Hr']; [congruence | discriminate].
    + rewrite (IH eq_refl). reflexivity.
Qed.

Lemma goahead_comment (f : nat) (s rest : string) :
  search_commentclose s = None ->
  goahead (S f) None ("<!--" ++ s ++ "-->" ++ rest)
  = option_map (cons (handle_comment s)) (goahead f None rest).
Proof.
  intros Hs. cbn [goahead append].
  cbn [is_interesting_normal Ascii.eqb negb orb Bool.eqb]. cbv iota.
  change (is_letter "!") with false. cbv iota.
  change (strip_prefix "/" (String "!" (String "-" (String "-" (s ++ String "-" (String "-" (String ">" rest)))))))
    with (@None string).
  cbv iota.
  replace (strip_prefix "!--" (String "!" (String "-" (String "-" (s ++ String "-" (String "-" (String ">" rest)))))))
    with (Some (s ++ "-->" ++ rest)) by (symmetry; apply (strip_prefix_app "!--")).
  cbv iota. rewrite (search_commentclose_app s rest Hs). reflexivity.
Qed.

(** *** The end of a CDATA element *)

Lemma strip_prefix_ci_app (elem y x r : string) :
  forall_chars (fun a => negb (Ascii.eqb a "<")) elem = true ->
  strip_prefix_ci elem (y ++ "<" ++ x) = Some r ->
  exists y', strip_prefix_ci elem y = Some y' /\ r = y' ++ "<" ++ x.
Proof.
  revert y. induction elem as [|a elem IH]; intros y He.
  - simpl. intros [= <-]. exists y. destruct y; auto.
  - simpl in He. apply andb_prop in He as [Ha He].
    destruct y as [|b y].
    + cbn. change (lower_char "<") with "<"%char.
      apply negb_true_iff in Ha. rewrite Ha. discriminate.
    + cbn [append strip_prefix_ci]. destruct (Ascii.eqb a (lower_char b)); [|discriminate].
      apply IH. exact He.
Qed.

Lemma match_cdata_close_app (elem s x r : string) :
  forall_chars (fun a => negb (Ascii.eqb a "<")) elem = true ->
  s <> "" ->
  match_cdata_close elem (s ++ "<" ++ x) = Some r ->
  exists r', match_cdata_close elem s = Some r'.
Proof.
  intros He Hne. unfold match_cdata_close.
  destruct (strip_prefix "</" (s ++ "<" ++ x)) as [r0|] eqn:E0; [|discriminate].
  apply strip_prefix_two in E0.
  destruct s as [|c [|d s]]; [congruence| |].
  - inversion E0.
  - inversion E0; subst.
    change (String "<" (String "/" s)) with ("</" ++ s). rewrite strip_prefix_app.
    rewrite skip_spaces_app by reflexivity.
    match goal with
    | |- context [strip_prefix_ci elem (skip_spaces s ++ ?z)] =>
        change z with ("<" ++ x);
        destruct (strip_prefix_ci elem (skip_spaces s ++ "<" ++ x)) as [r1|] eqn:E;
        [|discriminate]
    end.
    apply strip_prefix_ci_app in E; [|exact He].
    destruct E as (y' & E1 & ->). rewrite E1.
    rewrite skip_spaces_app by reflexivity.
    apply strip_prefix_one_app. reflexivity.
Qed.

Lemma search_cdata_close_app (elem code rest : string) :
  forall_chars (fun a => negb (Ascii.eqb a "<")) elem = true ->
  match_cdata_close elem ("</" ++ elem ++ ">" ++ rest) = Some rest ->
  search_cdata_close elem code = None ->
  search_cdata_close elem (code ++ "</" ++ elem ++ ">" ++ rest) = Some (code, rest).
Proof.
  intros He Hclose. induction code as [|c code IH]; intros Hs.
  - change ("" ++ "</" ++ elem ++ ">" ++ rest) with ("</" ++ elem ++ ">" ++ rest).
    change ("</" ++ elem ++ ">" ++ rest) with (String "<" ("/" ++ elem ++ ">" ++ rest)) in *.
    cbn [search_cdata_close]. rewrite Hclose. reflexivity.
  - cbn [search_cdata_close] in Hs.
    destruct (match_cdata_close elem (String c code)) eqn:Hm; [discriminate|].
    destruct (search_cdata_close elem code) as [[? ?]|] eqn:Hs'; [discriminate|].
    change (String c code ++ "</" ++ elem ++ ">" ++ rest)
      with (String c (code ++ "</" ++ elem ++ ">" ++ rest)).
    cbn [search_cdata_close].
    destruct (match_cdata_close elem (String c (code ++ "</" ++ elem ++ ">" ++ rest))) eqn:Hm'.
    + change (String c (code ++ "</" ++ elem ++ ">" ++ rest))
        with (String c code ++ "<" ++ ("/" ++ elem ++ ">" ++ rest)) in Hm'.
      apply match_cdata_close_app in Hm' as [r' Hr']; [congruence | exact He | discriminate].
    + rewrite (IH eq_refl). reflexivity.
Qed.

Lemma goahead_cdata (f : nat) (elem code rest : string) :
  forall_chars (fun a => negb (Ascii.eqb a "<")) elem = true ->
  match_cdata_close elem ("</" ++ elem ++ ">" ++ rest) = Some rest ->
  search_cdata_close elem code = None ->
  goahead (S f) (Some elem) (code ++ "</" ++ elem ++ ">" ++ rest)
  = option_map (app ((if (code =? "") then [] else [handle_data code]) ++ [handle_endtag elem]))
      (goahead f None rest).
Proof.
  intros He Hclose Hs.
  pose proof (search_cdata_close_app elem code rest He Hclose Hs) as Hfound.
  assert (U : forall raw, raw <> "" ->
            goahead (S f) (Some elem) raw =
            match search_cdata_close elem raw with
            | None => Some []
            | Some (data, rest) =>
                option_map (app (if (data =? "") then [handle_endtag elem]
                                 else [handle_data data; handle_endtag elem]))
                  (goahead f None rest)
            end).
  { intros raw Hraw. destruct raw; [congruence | reflexivity]. }
  rewrite U, Hfound.
  - destruct (code =? ""); reflexivity.
  - destruct code; discriminate.
Qed.

(** *** The document type declaration *)

Lemma goahead_doctype (f : nat) (s rest : string) :
  forall_chars (fun c => negb (Ascii.eqb c ">")) s = true ->
  goahead (S f) None ("<!DOCTYPE " ++ s ++ ">" ++ rest)
  = option_map (cons (handle_decl ("DOCTYPE " ++ s))) (goahead f None rest).
Proof.
  intros Hs.
  assert (P : parse_doctype ("!DOCTYPE " ++ s ++ ">" ++ rest) = Some ("DOCTYPE " ++ s, rest)).
  { unfold parse_doctype.
    change (strip_prefix_ci "!doctype" ("!DOCTYPE " ++ s ++ ">" ++ rest))
      with (Some (" " ++ s ++ ">" ++ rest)).
    cbv iota.
    change (" " ++ s ++ ">" ++ rest) with ((" " ++ s) ++ ">" ++ rest).
    rewrite (span_app (fun c => negb (Ascii.eqb c ">")) (" " ++ s) (">" ++ rest))
      by (exact Hs || reflexivity).
    change (strip_prefix ">" (">" ++ rest)) with (strip_prefix ">" (String ">" rest)).
    cbn [strip_prefix]. rewrite Ascii.eqb_refl.
    replace (match rest with "" | _ => Some rest end) with (Some rest)
      by (destruct rest; reflexivity).
    reflexivity. }
  change ("<!DOCTYPE " ++ s ++ ">" ++ rest)
    with (String "<" ("!DOCTYPE " ++ s ++ ">" ++ rest)).
  set (after := "!DOCTYPE " ++ s ++ ">" ++ rest) in *.
  assert (U : goahead (S f) None (String "<" after)
              = match parse_doctype after with
                | Some (decl, rest) => option_map (cons (handle_decl decl)) (goahead f None rest)
                | None => None
                end).
  { subst after. reflexivity. }
  rewrite U, P. reflexivity.
Qed.

(** *** CDATA sections *)

Lemma strip_prefix_one (c : ascii) (s : string) :
  strip_prefix (String c "") s
  = match s with
    | String d s' => if Ascii.eqb c d then Some s' else None
    | EmptyString => None
    end.
Proof.
  destruct s as [|d s]; [reflexivity|]. cbn [strip_prefix].
  destruct (Ascii.eqb c d); [|reflexivity]. destruct s; reflexivity.
Qed.

Lemma match_markedsectionclose_app (s rest r : string) :
  s <> "" ->
  match_markedsectionclose (s ++ "]]>" ++ rest) = Some r ->
  exists r', match_markedsectionclose s = Some r'.
Proof.
  intros Hne. unfold match_markedsectionclose. rewrite !strip_prefix_one.
  remember ("]]>" ++ rest) as X eqn:HX.
  assert (Hsp : stops is_space X) by (subst X; reflexivity).
  destruct s as [|c s]; [congruence|]. cbn [append].
  destruct (Ascii.eqb "]" c); [|discriminate].
  rewrite (skip_spaces_app s X Hsp), !strip_prefix_one.
  destruct (skip_spaces s) as [|d t]; cbn [append].
  - subst X. cbn. discriminate.
  - destruct (Ascii.eqb "]" d); [|discriminate].
    rewrite (skip_spaces_app t X Hsp), !strip_prefix_one.
    destruct (skip_spaces t) as [|e u]; cbn [append].
    + subst X. cbn. discriminate.
    + destruct (Ascii.eqb ">" e); [|discriminate]. eauto.
Qed.

Lemma search_markedsectionclose_app (s rest : string) :
  search_markedsectionclose s = None ->
  search_markedsectionclose (s ++ "]]>" ++ rest) = Some (s, rest).
Proof.
  induction s as [|c s IH]; intros Hs.
  - cbn. destruct rest; reflexivity.
  - cbn [search_markedsectionclose] in Hs.
    destruct (match_markedsectionclose (String c s)) eqn:Hm; [discriminate|].
    destruct (search_markedsectionclose s) as [[? ?]|] eqn:Hs'; [discriminate|].
    change (String c s ++ "]]>" ++ rest) with (String c (s ++ "]]>" ++ rest)).
    cbn [search_markedsectionclose].
    destruct (match_markedsectionclose (String c (s ++ "]]>" ++ rest))) eqn:Hm'.
    + change (String c (s ++ "]]>" ++ rest)) with (String c s ++ "]]>" ++ rest) in Hm'.
      apply match_markedsectionclose_app in Hm' as [r' Hr']; [congruence | discriminate].
    + rewrite (IH eq_refl). reflexivity.
Qed.

Lemma goahead_marked_section (f : nat) (body : string) :
  goahead (S f) None ("<![CDATA[" ++ body)
  = match search_markedsectionclose body with
    | Some (data, rest) =>
        option_map (cons (unknown_decl ("CDATA[" ++ data))) (goahead f None rest)
    | None => None
    end.
Proof.
  destruct body; reflexivity.
Qed.

Lemma goahead_cdata_section (f : nat) (s rest : string) :
  search_markedsectionclose s = None ->
  goahead (S f) None ("<![CDATA[" ++ s ++ "]]>" ++ rest)
  = option_map (cons (unknown_decl ("CDATA[" ++ s))) (goahead f None rest).
Proof.
  intros Hs. rewrite goahead_marked_section, (search_markedsectionclose_app s rest Hs).
  reflexivity.
Qed.

(** ** Induction on documents *)

Lemma node_ind' (P : node -> Prop) :
  (forall s, P (Text s)) ->
  (forall name attrs children, Forall P children -> P (Element name attrs children)) ->
  (forall name attrs, P (VoidElement name attrs)) ->
  (forall attrs code, P (ScriptElement attrs code)) ->
  (forall attrs css, P (StyleElement attrs css)) ->
  (forall s, P (CommentNode s)) ->
  (forall s, P (DoctypeNode s)) ->
  (forall s, P (CDataNode s)) ->
  forall n, P n.
Proof.
  intros HT HE HV HS HY HC HD HA.
  fix IH 1. intros [s|name attrs children|name attrs|attrs code|attrs css|s|s|s].
  - apply HT.
  - apply HE. induction children as [|c cs IHcs]; constructor; [apply IH | exact IHcs].
  - apply HV.
  - apply HS.
  - apply HY.
  - apply HC.
  - apply HD.
  - apply HA.
Qed.

Lemma option_map_app_cons {A} (a : A) (l : list A) (o : option (list A)) :
  option_map (cons a) (option_map (app l) o) = option_map (app (a :: l)) o.
Proof.
  destruct o; reflexivity.
Qed.

Lemma option_map_app_app {A} (l1 l2 : list A) (o : option (list A)) :
  option_map (app l1) (option_map (app l2) o) = option_map (app (l1 ++ l2)) o.
Proof.
  destruct o; simpl; [rewrite app_assoc|]; reflexivity.
Qed.

Lemma option_map_cons_app {A} (a : A) (o : option (list A)) :
  option_map (cons a) o = option_map (app [a]) o.
Proof.
  destruct o; reflexivity.
Qed.

(** The markup of a node that is no text starts with an opening bracket. *)
Lemma render_not_text_clean (n : node) (rest : string) :
  is_text n = false -> clean (render n ++ rest).
Proof.
  destruct n; simpl; intros H; try discriminate H; reflexivity.
Qed.

Lemma clean_after (ns : list node) (n : node) (rest : string) :
  no_adjacent_text (n :: ns) = true -> clean rest ->
  is_text n = true -> clean (render_document ns ++ rest).
Proof.
  intros Hadj Hrest Ht. destruct ns as [|n2 ns]; [exact Hrest|].
  simpl in Hadj. rewrite Ht in Hadj. simpl in Hadj.
  apply andb_prop in Hadj as [Hn2 _]. apply negb_true_iff in Hn2.
  unfold render_document. simpl map. rewrite concat_cons, append_assoc.
  apply render_not_text_clean. exact Hn2.
Qed.

Lemma no_adjacent_text_tail (n : node) (ns : list node) :
  no_adjacent_text (n :: ns) = true -> no_adjacent_text ns = true.
Proof.
  destruct ns as [|n2 ns]; [reflexivity|].
  simpl. intros H. apply andb_prop in H as [_ H]. exact H.
Qed.

(** The tokenizer on a list of nodes, given the statement for each node. *)
Lemma goahead_nodes (ns : list node) :
  Forall (fun n => wf_node n = true ->
            forall f rest, (is_text n = true -> clean rest) ->
              goahead (cost n + f) None (render n ++ rest)
              = option_map (app (tokens n)) (goahead f None rest)) ns ->
  forallb wf_node ns = true -> no_adjacent_text ns = true ->
  forall f rest, clean rest ->
    goahead (total_cost ns + f) None (render_document ns ++ rest)
    = option_map (app (flat_map tokens ns)) (goahead f None rest).
Proof.
  intros HF. induction HF as [|n ns Hn HF IH]; intros Hwf Hadj f rest Hrest.
  - simpl. destruct (goahead f None rest); reflexivity.
  - simpl in Hwf. apply andb_prop in Hwf as [Hwn Hwf].
    unfold render_document, total_cost. simpl map. simpl list_sum. simpl flat_map.
    rewrite concat_cons, append_assoc, <- Nat.add_assoc.
    rewrite (Hn Hwn).
    + fold (render_document ns). fold (total_cost ns).
      rewrite (IH Hwf (no_adjacent_text_tail _ _ Hadj) f rest Hrest).
      apply option_map_app_app.
    + intros Ht. apply (clean_after ns n rest Hadj Hrest Ht).
Qed.

Lemma goahead_node (n : node) :
  wf_node n = true ->
  forall f rest, (is_text n = true -> clean rest) ->
    goahead (cost n + f) None (render n ++ rest)
    = option_map (app (tokens n)) (goahead f None rest).
Proof.
  induction n as [s|name attrs children IH|name attrs|attrs code|attrs css|s|s|s]
    using node_ind'; intros Hwf f rest Hclean; simpl in Hwf.
  - apply andb_prop in Hwf as [Hwf _]. apply andb_prop in Hwf as [Hne Hs].
    apply negb_true_iff in Hne.
    cbn [render cost tokens]. change (1 + f) with (S f).
    rewrite (goahead_text f s rest Hne Hs (Hclean eq_refl)).
    apply option_map_cons_app.
  - apply andb_prop in Hwf as [Hwf Hadj]. apply andb_prop in Hwf as [Hwf Hch].
    apply andb_prop in Hwf as [Hname Hattrs].
    destruct (plain_name_split name Hname) as (Hn & Hc & _).
    cbn [render cost tokens]. fold (render_document children).
    rewrite !append_assoc.
    change (2 + list_sum (map cost children) + f)
      with (S (S (total_cost children + f))).
    rewrite (goahead_starttag _ name _ attrs Hn Hc Hattrs).
    rewrite <- Nat.add_succ_r.
    rewrite (goahead_nodes children IH Hch Hadj (S f)) by reflexivity.
    rewrite (goahead_endtag f name rest Hn).
    destruct (goahead f None rest); simpl; [|reflexivity].
    rewrite <- app_assoc. reflexivity.
  - apply andb_prop in Hwf as [Hname Hattrs].
    unfold void_name in Hname. apply andb_prop in Hname as [Hn Hv].
    assert (Hc : mem_string (lower name) CDATA_CONTENT_ELEMENTS = false).
    { revert Hv. generalize (lower name). intros m Hv.
      unfold mem_string, CDATA_CONTENT_ELEMENTS. cbn [existsb].
      destruct (String.eqb_spec m "script") as [->|_]; [discriminate Hv|].
      destruct (String.eqb_spec m "style") as [->|_]; [discriminate Hv|]. reflexivity. }
    cbn [render cost tokens]. rewrite !append_assoc. change (1 + f) with (S f).
    rewrite (goahead_starttag f name rest attrs Hn Hc Hattrs).
    apply option_map_cons_app.
  - apply andb_prop in Hwf as [Hwf Hs]. apply andb_prop in Hwf as [Hattrs _].
    destruct (search_cdata_close "script" code) eqn:E; [discriminate Hs|].
    cbn [render cost tokens]. rewrite !append_assoc.
    change (2 + f) with (S (S f)).
    change ("</script>" ++ rest) with ("</" ++ "script" ++ ">" ++ rest).
    rewrite goahead_starttag_any by (reflexivity || exact Hattrs).
    change (lower "script") with "script".
    change (mem_string "script" CDATA_CONTENT_ELEMENTS) with true. cbv iota.
    rewrite goahead_cdata by (reflexivity || exact E).
    rewrite option_map_app_cons. reflexivity.
  - apply andb_prop in Hwf as [Hwf Hs]. apply andb_prop in Hwf as [Hattrs _].
    destruct (search_cdata_close "style" css) eqn:E; [discriminate Hs|].
    cbn [render cost tokens]. rewrite !append_assoc.
    change (2 + f) with (S (S f)).
    change ("</style>" ++ rest) with ("</" ++ "style" ++ ">" ++ rest).
    rewrite goahead_starttag_any by (reflexivity || exact Hattrs).
    change (lower "style") with "style".
    change (mem_string "style" CDATA_CONTENT_ELEMENTS) with true. cbv iota.
    rewrite goahead_cdata by (reflexivity || exact E).
    rewrite option_map_app_cons. reflexivity.
  - apply andb_prop in Hwf as [_ Hs].
    destruct (search_commentclose s) eqn:E; [discriminate Hs|].
    cbn [render cost tokens]. rewrite !append_assoc.
    change (1 + f) with (S f).
    rewrite (goahead_comment f s rest E). apply option_map_cons_app.
  - apply andb_prop in Hwf as [Hs _].
    cbn [render cost tokens]. rewrite !append_assoc.
    change (1 + f) with (S f).
    rewrite (goahead_doctype f s rest Hs). apply option_map_cons_app.
  - apply andb_prop in Hwf as [_ Hs].
    destruct (search_markedsectionclose s) eqn:E; [discriminate Hs|].
    cbn [render cost tokens]. rewrite !append_assoc.
    change (1 + f) with (S f).
    rewrite (goahead_cdata_section f s rest E). apply option_map_cons_app.
Qed.

Lemma all_ascii_concat (l : list string) :
  forallb all_ascii l = true -> all_ascii (String.concat "" l) = true.
Proof.
  induction l as [|x l IH]; [reflexivity|].
  simpl forallb. intros H. apply andb_prop in H as [Hx Hl].
  rewrite concat_cons, all_ascii_app, Hx, (IH Hl). reflexivity.
Qed.

Lemma forallb_map_Forall {A B} (P : A -> Prop) (p : A -> bool) (f : A -> B) (q : B -> bool)
    (l : list A) :
  Forall (fun a => p a = true -> q (f a) = true) l ->
  forallb p l = true -> forallb q (map f l) = true.
Proof.
  induction 1 as [|a l Ha _ IH]; [reflexivity|].
  simpl. intros H. apply andb_prop in H as [Hpa Hl]. rewrite (Ha Hpa), (IH Hl). reflexivity.
Qed.

Lemma all_ascii_render_attrs (attrs : list attribute) :
  forallb wf_attr attrs = true -> all_ascii (render_attrs attrs) = true.
Proof.
  intros H. apply all_ascii_concat. rewrite forallb_forall in *.
  intros x Hx. apply in_map_iff in Hx as ([a v] & <- & Hin).
  specialize (H _ Hin). unfold wf_attr in H. cbn [fst snd] in H.
  apply andb_prop in H as [Hname Hv].
  destruct (is_name_facts a Hname) as (_ & _ & Ha).
  unfold render_attr. cbn [fst snd]. rewrite !all_ascii_app, Ha.
  destruct v as [v|]; [|reflexivity].
  apply andb_prop in Hv as [_ Hv]. cbn [all_ascii]. rewrite all_ascii_app, Hv. reflexivity.
Qed.

Lemma all_ascii_render (n : node) : wf_node n = true -> all_ascii (render n) = true.
Proof.
  induction n as [s|name attrs children IH|name attrs|attrs code|attrs css|s|s|s]
    using node_ind'; simpl wf_node; intros Hwf.
  - apply andb_prop in Hwf as [_ Hs]. exact Hs.
  - apply andb_prop in Hwf as [Hwf _]. apply andb_prop in Hwf as [Hwf Hch].
    apply andb_prop in Hwf as [Hname Hattrs].
    destruct (plain_name_split name Hname) as (Hn & _).
    destruct (is_name_facts name Hn) as (_ & _ & Ha).
    cbn [render]. rewrite !all_ascii_app, Ha, (all_ascii_render_attrs attrs Hattrs).
    rewrite (all_ascii_concat (map render children)).
    + reflexivity.
    + apply (forallb_map_Forall (fun _ => True) wf_node render all_ascii); assumption.
  - apply andb_prop in Hwf as [Hname Hattrs].
    unfold void_name in Hname. apply andb_prop in Hname as [Hn _].
    destruct (is_name_facts name Hn) as (_ & _ & Ha).
    cbn [render]. rewrite !all_ascii_app, Ha, (all_ascii_render_attrs attrs Hattrs).
    reflexivity.
  - apply andb_prop in Hwf as [Hwf _]. apply andb_prop in Hwf as [Hattrs Hs].
    cbn [render]. rewrite !all_ascii_app, Hs, (all_ascii_render_attrs attrs Hattrs).
    reflexivity.
  - apply andb_prop in Hwf as [Hwf _]. apply andb_prop in Hwf as [Hattrs Hs].
    cbn [render]. rewrite !all_ascii_app, Hs, (all_ascii_render_attrs attrs Hattrs).
    reflexivity.
  - apply andb_prop in Hwf as [Hs _]. cbn [render]. rewrite !all_ascii_app, Hs. reflexivity.
  - apply andb_prop in Hwf as [_ Hs]. cbn [render]. rewrite !all_ascii_app, Hs. reflexivity.
  - apply andb_prop in Hwf as [Hs _]. cbn [render]. rewrite !all_ascii_app, Hs. reflexivity.
Qed.

Lemma length_concat_cost (children : list node) :
  Forall (fun n => wf_node n = true -> cost n <= String.length (render n)) children ->
  forallb wf_node children = true ->
  total_cost children <= String.length (String.concat "" (map render children)).
Proof.
  induction 1 as [|n l Hn _ IH]; [unfold total_cost; simpl; lia|].
  simpl forallb. intros H. apply andb_prop in H as [Hwn Hl].
  unfold total_cost in *. simpl map. rewrite concat_cons, length_append. simpl list_sum.
  specialize (Hn Hwn). specialize (IH Hl). lia.
Qed.

Lemma cost_le_length (n : node) : wf_node n = true -> cost n <= String.length (render n).
Proof.
  induction n as [s|name attrs children IH|name attrs|attrs code|attrs css|s|s|s]
    using node_ind'; simpl wf_node; intros Hwf.
  - destruct s; [discriminate Hwf|]. simpl. lia.
  - apply andb_prop in Hwf as [Hwf _]. apply andb_prop in Hwf as [_ Hch].
    pose proof (length_concat_cost children IH Hch) as Hc. unfold total_cost in Hc.
    cbn [render cost]. rewrite !length_append. simpl String.length. lia.
  - cbn [render cost]. rewrite !length_append. simpl. lia.
  - cbn [render cost]. rewrite !length_append. simpl. lia.
  - cbn [render cost]. rewrite !length_append. simpl. lia.
  - cbn [render cost]. rewrite !length_append. simpl. lia.
  - cbn [render cost]. rewrite !length_append. simpl. lia.
  - cbn [render cost]. rewrite !length_append. simpl. lia.
Qed.

Lemma Forall_all {A} (P : A -> Prop) (l : list A) : (forall a, P a) -> Forall P l.
Proof.
  intros H. induction l; constructor; auto.
Qed.

(** On a well-formed document the tokenizer makes exactly the handler
    calls of the document. *)
Lemma HTMLParser_feed_render (doc : list node) :
  wf_document doc = true ->
  HTMLParser_feed (render_document doc) = Some (flat_map tokens doc).
Proof.
  intros Hwf. unfold wf_document in Hwf. apply andb_prop in Hwf as [Hwf Hadj].
  unfold HTMLParser_feed.
  assert (Ha : all_ascii (render_document doc) = true).
  { apply all_ascii_concat.
    apply (forallb_map_Forall (fun _ => True) wf_node render all_ascii); [|exact Hwf].
    apply Forall_all. apply all_ascii_render. }
  rewrite Ha.
  pose proof (length_concat_cost doc (Forall_all _ _ cost_le_length) Hwf) as Hc.
  fold (render_document doc) in Hc.
  assert (exists k, S (String.length (render_document doc)) = total_cost doc + S k)
    as [k ->] by (exists (String.length (render_document doc) - total_cost doc); lia).
  rewrite <- (append_nil_r (render_document doc)).
  rewrite (goahead_nodes doc (Forall_all _ _ goahead_node) Hwf Hadj) by exact I.
  simpl. rewrite app_nil_r. reflexivity.
Qed.

(** ** The tree builder on a document *)

Lemma run_app (e1 e2 : list event) (b : builder) :
  run (e1 ++ e2) b = run e2 (run e1 b).
Proof.
  apply fold_left_app.
Qed.

Lemma note_closed_nil (b : builder) : note_closed [] b = b.
Proof.
  destruct b. unfold note_closed. simpl. rewrite app_nil_r. reflexivity.
Qed.

Lemma note_closed_app (l1 l2 : list string) (b : builder) :
  note_closed l2 (note_closed l1 b) = note_closed (l1 ++ l2) b.
Proof.
  unfold note_closed. simpl. rewrite app_assoc. reflexivity.
Qed.

Lemma object_was_parsed_note_closed (o : PageElement) (l : list string) (b : builder) :
  object_was_parsed o (note_closed l b) = note_closed l (object_was_parsed o b).
Proof.
  destruct b as [[|f fs] rk cd ac]; reflexivity.
Qed.

Lemma add_kids_note_closed (kids : list PageElement) (l : list string) (b : builder) :
  add_kids kids (note_closed l b) = note_closed l (add_kids kids b).
Proof.
  revert b. induction kids as [|k kids IH]; intros b; [reflexivity|].
  unfold add_kids in *. cbn [fold_left].
  rewrite object_was_parsed_note_closed. apply IH.
Qed.

Lemma settled_object_was_parsed (o : PageElement) (b : builder) :
  settled b ->
  settled (object_was_parsed o b)
  /\ preserving_whitespace (object_was_parsed o b) = preserving_whitespace b.
Proof.
  intros (Hd & Ha & Hc). destruct b as [[|f fs] rk cd ac]; simpl in *; subst.
  - repeat split; assumption.
  - unfold settled, object_was_parsed, preserving_whitespace; simpl.
    repeat split; assumption.
Qed.

Lemma settled_note_closed (l : list string) (b : builder) :
  settled b -> Forall is_void l ->
  settled (note_closed l b)
  /\ preserving_whitespace (note_closed l b) = preserving_whitespace b.
Proof.
  intros (Hd & Ha & Hc) Hl. unfold settled, note_closed, preserving_whitespace; simpl.
  repeat split; try assumption. apply Forall_app. split; assumption.
Qed.

Lemma settled_add_kids (kids : list PageElement) (b : builder) :
  settled b ->
  settled (add_kids kids b)
  /\ preserving_whitespace (add_kids kids b) = preserving_whitespace b.
Proof.
  revert b. induction kids as [|k kids IH]; intros b Hs; [split; [exact Hs | reflexivity]|].
  simpl. destruct (settled_object_was_parsed k b Hs) as [Hs1 Hp1].
  destruct (IH _ Hs1) as [Hs2 Hp2]. split; [exact Hs2 | congruence].
Qed.

Lemma endData_settled (cls : option string_class) (b : builder) :
  current_data b = [] -> endData cls b = b.
Proof.
  unfold endData. intros ->. reflexivity.
Qed.

Lemma endData_one (b : builder) (s : string) (cls : option string_class) :
  current_data b = [] ->
  endData cls (set_current_data [s] b)
  = object_was_parsed
      (Str (string_container b cls) (collapse (preserving_whitespace b) s)) b.
Proof.
  intros Hd. destruct b as [stack rk cd ac]. simpl in Hd. subst cd.
  unfold endData, set_current_data; simpl.
  unfold collapse, preserving_whitespace, string_container; simpl.
  reflexivity.
Qed.

Lemma lower_name_not_root (name : string) :
  is_name name = true -> (lower name =? ROOT_TAG_NAME) = false.
Proof.
  intros H. destruct (is_name_facts name H) as (Hl & _).
  destruct name as [|c name]; [discriminate|]. simpl in Hl.
  apply String.eqb_neq. intros E. simpl in E. injection E as E _.
  revert Hl E. clear.
  destruct c as [[] [] [] [] [] [] [] []]; simpl; intros; discriminate.
Qed.

Lemma not_container (m : string) :
  mem_string m (map fst string_containers) = false ->
  assoc_string m string_containers = None.
Proof.
  unfold string_containers. simpl.
  repeat (destruct (m =? _); [discriminate|]). reflexivity.
Qed.

Lemma not_closed (m : string) (l : list string) :
  Forall is_void l -> mem_string m empty_element_tags = false -> mem_string m l = false.
Proof.
  intros Hl Hm. induction Hl as [|x l Hx _ IH]; [reflexivity|].
  unfold mem_string in *. cbn [existsb]. rewrite IH, orb_false_r.
  destruct (String.eqb_spec m x) as [->|_]; [|reflexivity].
  unfold is_void, mem_string in Hx. congruence.
Qed.

(** Closing the tag that was just filled. *)
Lemma popToTag_top (m : string) (kids : list PageElement) (stack : list frame)
    (rk : list PageElement) (ac : list string) :
  (m =? ROOT_TAG_NAME) = false ->
  _popToTag m (mk_builder (mk_frame m kids :: stack) rk [] ac)
  = object_was_parsed (Tag m (rev kids)) (mk_builder stack rk [] ac).
Proof.
  intros Hr. unfold _popToTag, mem_string. rewrite Hr.
  cbn [tagStack map fname existsb]. rewrite String.eqb_refl.
  cbn [orb List.length pop_through tagStack fname]. rewrite String.eqb_refl.
  reflexivity.
Qed.

Lemma add_kids_pushed (m : string) (kids : list PageElement) (stack : list frame)
    (rk : list PageElement) (acc : list PageElement) (ac : list string) :
  add_kids kids (mk_builder (mk_frame m acc :: stack) rk [] ac)
  = mk_builder (mk_frame m (rev kids ++ acc) :: stack) rk [] ac.
Proof.
  revert acc. induction kids as [|k kids IH]; intros acc; [reflexivity|].
  change (add_kids (k :: kids) (mk_builder (mk_frame m acc :: stack) rk [] ac))
    with (add_kids kids (mk_builder (mk_frame m (k :: acc) :: stack) rk [] ac)).
  rewrite IH. simpl. rewrite <- app_assoc. reflexivity.
Qed.

(** The first handler call of a node that is no text starts by flushing
    the pending text. *)
Lemma first_event_flushes (n : node) (b : builder) :
  is_text n = false ->
  run (tokens n) b = run (tokens n) (endData None b).
Proof.
  assert (Idem : endData None (endData None b) = endData None b).
  { apply endData_settled. unfold endData.
    destruct (current_data b) eqn:E; [exact E|].
    destruct b as [[|f fs] rk cd ac]; reflexivity. }
  intros Ht.
  destruct n as [s|name attrs children|name attrs|attrs code|attrs css|s|s|s];
    try discriminate Ht;
    cbn [tokens run fold_left on_event]; unfold soup_handle_starttag;
    rewrite ?Idem; reflexivity.
Qed.

Lemma closed_tags_void (n : node) : wf_node n = true -> Forall is_void (closed_tags n).
Proof.
  induction n as [s|name attrs children IH|name attrs|attrs code|attrs css|s|s|s]
    using node_ind'; simpl wf_node; intros Hwf; cbn [closed_tags]; try constructor.
  - apply andb_prop in Hwf as [Hwf _]. apply andb_prop in Hwf as [_ Hch].
    induction IH as [|c cs Hc _ IHcs]; [constructor|].
    cbn [forallb] in Hch. apply andb_prop in Hch as [Hwc Hch].
    cbn [flat_map]. apply Forall_app. split; auto.
  - apply andb_prop in Hwf as [Hname _]. unfold void_name in Hname.
    apply andb_prop in Hname as [_ Hv]. exact Hv.
  - constructor.
Qed.

Lemma closed_tags_void_all (ns : list node) :
  forallb wf_node ns = true -> Forall is_void (flat_map closed_tags ns).
Proof.
  induction ns as [|n ns IH]; [constructor|].
  cbn [forallb flat_map]. intros H. apply andb_prop in H as [Hn Hns].
  apply Forall_app. split; [apply closed_tags_void; exact Hn | apply IH; exact Hns].
Qed.

Lemma run_nodes (ns : list node) :
  Forall node_built ns ->
  forallb wf_node ns = true -> no_adjacent_text ns = true ->
  forall b, settled b ->
    endData None (run (flat_map tokens ns) b)
    = note_closed (flat_map closed_tags ns)
        (add_kids (map (tree (preserving_whitespace b)) ns) b).
Proof.
  intros HF. induction HF as [|n ns Hn HF IH]; intros Hwf Hadj b Hb.
  - simpl. rewrite note_closed_nil. apply endData_settled. apply Hb.
  - simpl in Hwf. apply andb_prop in Hwf as [Hwn Hwf].
    pose proof (no_adjacent_text_tail _ _ Hadj) as Hadj'.
    destruct (Hn Hwn b Hb) as [Hnt Hfl].
    destruct (settled_object_was_parsed (tree (preserving_whitespace b) n) b Hb)
      as [Hs1 Hp1].
    destruct (settled_note_closed (closed_tags n) _ Hs1 (closed_tags_void n Hwn))
      as [Hs2 Hp2].
    assert (Next :
      endData None
        (run (flat_map tokens ns)
           (note_closed (closed_tags n)
              (object_was_parsed (tree (preserving_whitespace b) n) b)))
      = note_closed (flat_map closed_tags (n :: ns))
          (add_kids (map (tree (preserving_whitespace b)) (n :: ns)) b)).
    { rewrite (IH Hwf Hadj' _ Hs2), Hp2, Hp1.
      rewrite add_kids_note_closed, note_closed_app. reflexivity. }
    change (flat_map tokens (n :: ns)) with (tokens n ++ flat_map tokens ns)%list.
    rewrite run_app.
    destruct (is_text n) eqn:Ht.
    + destruct ns as [|n2 ns].
      * cbn [flat_map run fold_left] in *. rewrite Hfl. cbn [map add_kids fold_left].
        rewrite app_nil_r. reflexivity.
      * assert (Ht2 : is_text n2 = false).
        { simpl in Hadj. rewrite Ht in Hadj. simpl in Hadj.
          apply andb_prop in Hadj as [H _]. apply negb_true_iff in H. exact H. }
        change (flat_map tokens (n2 :: ns)) with (tokens n2 ++ flat_map tokens ns)%list.
        rewrite run_app, (first_event_flushes n2 _ Ht2), Hfl, <- run_app.
        exact Next.
    + rewrite (Hnt eq_refl). exact Next.
Qed.

Lemma settled_shape (b : builder) :
  settled b ->
  b = mk_builder (tagStack b) (root_kids b) [] (already_closed_empty_element b).
Proof.
  intros (Hd & _ & _). destruct b; simpl in *; subst; reflexivity.
Qed.

(** A [script] or [style] element seen by the builder. *)
Lemma run_cdata_element (elem code : string) (cls : string_class) (b : builder) :
  settled b ->
  mem_string elem empty_element_tags = false ->
  mem_string elem preserve_whitespace_tags = false ->
  assoc_string elem string_containers = Some cls ->
  (elem =? ROOT_TAG_NAME) = false ->
  run (handle_starttag elem
         :: (if (code =? "") then [] else [handle_data code]) ++ [handle_endtag elem])%list b
  = object_was_parsed
      (Tag elem (if (code =? "") then []
                 else [Str cls (collapse (preserving_whitespace b) code)])) b.
Proof.
  intros Hb Hvoid Hpre Hcls Hroot.
  rewrite (settled_shape b Hb). destruct Hb as (_ & Hac & Hc).
  set (stack := tagStack b) in *. set (rk := root_kids b).
  set (ac := already_closed_empty_element b) in *. clearbody stack rk ac. clear b.
  pose proof (not_closed elem ac Hac Hvoid) as Hnc.
  cbn [run fold_left on_event]. rewrite Hvoid.
  unfold soup_handle_starttag. rewrite endData_settled by reflexivity.
  unfold pushTag. cbn [tagStack root_kids current_data already_closed_empty_element].
  destruct (code =? "") eqn:Ecode.
  - cbn [app fold_left on_event already_closed_empty_element]. rewrite Hnc.
    unfold soup_handle_endtag. rewrite endData_settled by reflexivity.
    rewrite (popToTag_top elem [] stack rk ac Hroot). reflexivity.
  - cbn [app fold_left on_event already_closed_empty_element current_data].
    change (already_closed_empty_element
              (set_current_data [code] (mk_builder (mk_frame elem [] :: stack) rk [] ac)))
      with ac.
    rewrite Hnc.
    unfold soup_handle_endtag.
    rewrite (endData_one (mk_builder (mk_frame elem [] :: stack) rk [] ac) code None eq_refl).
    unfold string_container, preserving_whitespace.
    cbn [tagStack innermost_container fname existsb]. rewrite Hcls, Hpre.
    cbn [orb object_was_parsed tagStack fname fkids root_kids current_data
           already_closed_empty_element].
    rewrite (popToTag_top elem _ stack rk ac Hroot). reflexivity.
Qed.

Lemma substring_all (s : string) : substring 0 (String.length s) s = s.
Proof.
  induction s as [|c s IH]; [reflexivity|]. simpl. rewrite IH. reflexivity.
Qed.

Lemma substring_skip (c : ascii) (n m : nat) (s : string) :
  substring (S n) m (String c s) = substring n m s.
Proof.
  destruct m; reflexivity.
Qed.

Lemma drop_doctype (s : string) :
  substring 8 (String.length ("DOCTYPE " ++ s) - 8) ("DOCTYPE " ++ s) = s.
Proof.
  replace (String.length ("DOCTYPE " ++ s) - 8) with (String.length s)
    by (cbn [append String.length]; lia).
  cbn [append]. rewrite !substring_skip. apply substring_all.
Qed.

Lemma drop_cdata (s : string) :
  substring 6 (String.length ("CDATA[" ++ s) - 6) ("CDATA[" ++ s) = s.
Proof.
  replace (String.length ("CDATA[" ++ s) - 6) with (String.length s)
    by (cbn [append String.length]; lia).
  cbn [append]. rewrite !substring_skip. apply substring_all.
Qed.

Lemma is_cdata (s : string) : is_some (strip_prefix "CDATA[" (upper ("CDATA[" ++ s))) = true.
Proof.
  change (upper ("CDATA[" ++ s)) with ("CDATA[" ++ upper s).
  rewrite strip_prefix_app. reflexivity.
Qed.

Lemma run_node (n : node) : node_built n.
Proof.
  induction n as [s|name attrs children IH|name attrs|attrs code|attrs css|s|s|s]
    using node_ind'; intros Hwf b Hb.
  - split; [discriminate|].
    cbn [tokens run fold_left on_event tree closed_tags]. rewrite note_closed_nil.
    destruct Hb as (Hd & _ & Hc). rewrite Hd.
    rewrite (endData_one b s None Hd). unfold string_container. rewrite Hc. reflexivity.
  - simpl in Hwf. apply andb_prop in Hwf as [Hwf Hadj]. apply andb_prop in Hwf as [Hwf Hch].
    apply andb_prop in Hwf as [Hname Hattrs].
    destruct (plain_name_split name Hname) as (Hn & _ & Hcont & Hvoid).
    apply not_container in Hcont.
    pose proof (lower_name_not_root name Hn) as Hroot.
    assert (E : run (tokens (Element name attrs children)) b
                = note_closed (closed_tags (Element name attrs children))
                    (object_was_parsed
                       (tree (preserving_whitespace b) (Element name attrs children)) b)).
    { rewrite (settled_shape b Hb). pose proof Hb as (_ & Hac & Hc).
      set (stack := tagStack b) in *. set (rk := root_kids b).
      set (ac := already_closed_empty_element b) in *.
      assert (Hpw : preserving_whitespace (mk_builder stack rk [] ac)
                    = preserving_whitespace b) by reflexivity.
      clearbody rk ac.
      cbn [tokens]. change (handle_starttag (lower name)
                              :: flat_map tokens children ++ [handle_endtag (lower name)])%list
        with ([handle_starttag (lower name)]
                ++ flat_map tokens children ++ [handle_endtag (lower name)])%list.
      rewrite !run_app.
      cbn [run fold_left on_event]. rewrite Hvoid.
      unfold soup_handle_starttag. rewrite endData_settled by reflexivity.
      unfold pushTag. cbn [tagStack root_kids current_data already_closed_empty_element].
      set (b1 := mk_builder (mk_frame (lower name) [] :: stack) rk [] ac).
      assert (Hb1 : settled b1).
      { repeat split; [exact Hac|].
        cbn [b1 tagStack innermost_container fname]. rewrite Hcont. exact Hc. }
      pose proof (run_nodes children IH Hch Hadj b1 Hb1) as Hkids.
      fold (run (flat_map tokens children) b1).
      pose proof (closed_tags_void_all children Hch) as Hvoids.
      assert (Hac2 : already_closed_empty_element (run (flat_map tokens children) b1)
                     = (ac ++ flat_map closed_tags children)%list).
      { assert (H : already_closed_empty_element
                      (endData None (run (flat_map tokens children) b1))
                    = (ac ++ flat_map closed_tags children)%list).
        { rewrite Hkids. unfold b1. rewrite add_kids_pushed. reflexivity. }
        revert H. generalize (run (flat_map tokens children) b1). intros b2.
        unfold endData. destruct (current_data b2); [auto|].
        destruct b2 as [[|f fs] ? ? ?]; simpl; auto. }
      rewrite Hac2, (not_closed (lower name) _ (proj2 (Forall_app _ _ _) (conj Hac Hvoids)) Hvoid).
      unfold soup_handle_endtag. rewrite Hkids.
      unfold b1 at 2. rewrite add_kids_pushed, app_nil_r.
      unfold note_closed.
      cbn [tagStack root_kids current_data already_closed_empty_element].
      rewrite (popToTag_top _ _ stack rk _ Hroot), rev_involutive.
      cbn [tree closed_tags]. unfold preserves.
      replace (preserving_whitespace b1)
        with (preserving_whitespace (mk_builder stack rk [] ac)
              || mem_string (lower name) preserve_whitespace_tags).
      - destruct stack; reflexivity.
      - unfold preserving_whitespace, b1. cbn [tagStack existsb fname]. apply orb_comm. }
    split; [intros _; exact E|].
    rewrite E. apply endData_settled.
    apply settled_note_closed; [|apply (closed_tags_void (Element name attrs children))].
    + apply settled_object_was_parsed. exact Hb.
    + simpl. rewrite Hname, Hattrs, Hch, Hadj. reflexivity.
  - simpl in Hwf. apply andb_prop in Hwf as [Hname _].
    unfold void_name in Hname. apply andb_prop in Hname as [Hn Hvoid].
    pose proof (lower_name_not_root name Hn) as Hroot.
    assert (E : run (tokens (VoidElement name attrs)) b
                = note_closed (closed_tags (VoidElement name attrs))
                    (object_was_parsed
                       (tree (preserving_whitespace b) (VoidElement name attrs)) b)).
    { rewrite (settled_shape b Hb).
      set (stack := tagStack b). set (rk := root_kids b).
      set (ac := already_closed_empty_element b). clearbody stack rk ac.
      cbn [tokens run fold_left on_event]. rewrite Hvoid.
      unfold soup_handle_starttag, soup_handle_endtag.
      rewrite endData_settled by reflexivity.
      unfold pushTag. cbn [tagStack root_kids current_data already_closed_empty_element].
      rewrite endData_settled by reflexivity.
      cbn [tagStack root_kids current_data already_closed_empty_element].
      rewrite (popToTag_top _ [] stack rk ac Hroot).
      cbn [tree closed_tags rev]. destruct stack; reflexivity. }
    split; [intros _; exact E|].
    rewrite E. apply endData_settled.
    apply settled_note_closed.
    + apply settled_object_was_parsed. exact Hb.
    + constructor; [exact Hvoid | constructor].
  - assert (E : run (tokens (ScriptElement attrs code)) b
                = object_was_parsed
                    (tree (preserving_whitespace b) (ScriptElement attrs code)) b).
    { apply (run_cdata_element "script" code Script b Hb); reflexivity. }
    cbn [closed_tags]. rewrite note_closed_nil.
    split; [intros _; exact E|].
    rewrite E. apply endData_settled. apply settled_object_was_parsed. exact Hb.
  - assert (E : run (tokens (StyleElement attrs css)) b
                = object_was_parsed
                    (tree (preserving_whitespace b) (StyleElement attrs css)) b).
    { apply (run_cdata_element "style" css Stylesheet b Hb); reflexivity. }
    cbn [closed_tags]. rewrite note_closed_nil.
    split; [intros _; exact E|].
    rewrite E. apply endData_settled. apply settled_object_was_parsed. exact Hb.
  - assert (E : run (tokens (CommentNode s)) b
                = object_was_parsed (tree (preserving_whitespace b) (CommentNode s)) b).
    { cbn [tokens run fold_left on_event tree].
      destruct Hb as (Hd & _ & _).
      rewrite (endData_settled None b Hd). apply (endData_one b s (Some Comment) Hd). }
    cbn [closed_tags]. rewrite note_closed_nil.
    split; [intros _; exact E|].
    rewrite E. apply endData_settled. apply settled_object_was_parsed. exact Hb.
  - assert (E : run (tokens (DoctypeNode s)) b
                = object_was_parsed (tree (preserving_whitespace b) (DoctypeNode s)) b).
    { cbn [tokens run fold_left on_event tree].
      destruct Hb as (Hd & _ & _).
      rewrite (endData_settled None b Hd).
      rewrite drop_doctype. apply (endData_one b s (Some Doctype) Hd). }
    cbn [closed_tags]. rewrite note_closed_nil.
    split; [intros _; exact E|].
    rewrite E. apply endData_settled. apply settled_object_was_parsed. exact Hb.
  - assert (E : run (tokens (CDataNode s)) b
                = object_was_parsed (tree (preserving_whitespace b) (CDataNode s)) b).
    { cbn [tokens run fold_left on_event tree].
      destruct Hb as (Hd & _ & _).
      rewrite is_cdata. cbv zeta.
      rewrite (endData_settled None b Hd).
      rewrite drop_cdata. apply (endData_one b s (Some CData) Hd). }
    cbn [closed_tags]. rewrite note_closed_nil.
    split; [intros _; exact E|].
    rewrite E. apply endData_settled. apply settled_object_was_parsed. exact Hb.
Qed.

(** The tree of a well-formed document. *)
Lemma build_tokens (doc : list node) :
  wf_document doc = true ->
  build (flat_map tokens doc) = Tag ROOT_TAG_NAME (map (tree false) doc).
Proof.
  intros Hwf. unfold wf_document in Hwf. apply andb_prop in Hwf as [Hwf Hadj].
  unfold build. fold (run (flat_map tokens doc) reset).
  assert (Hr : settled reset) by (repeat split; constructor).
  rewrite (run_nodes doc (Forall_all _ _ run_node) Hwf Hadj reset Hr).
  change (preserving_whitespace reset) with false.
  assert (H : forall kids acc,
             add_kids kids (mk_builder [] acc [] []) = mk_builder [] (rev kids ++ acc) [] []).
  { induction kids as [|k kids IH]; intros acc; [reflexivity|].
    change (add_kids (k :: kids) (mk_builder [] acc [] []))
      with (add_kids kids (mk_builder [] (k :: acc) [] [])).
    rewrite IH. simpl. rewrite <- app_assoc. reflexivity. }
  unfold reset. rewrite H, app_nil_r. simpl. rewrite rev_involutive. reflexivity.
Qed.

(** ** The text of the tree *)

Lemma text_strings_Tag (name : string) (contents : list PageElement) :
  text_strings (Tag name contents) = flat_map text_strings contents.
Proof.
  unfold text_strings. cbn [_all_strings].
  induction contents as [|c cs IH]; [reflexivity|].
  cbn [flat_map]. rewrite filter_app, map_app, IH. reflexivity.
Qed.

Lemma concat_flat_map {A} (f : A -> list string) (l : list A) :
  String.concat "" (flat_map f l) = String.concat "" (map (fun a => String.concat "" (f a)) l).
Proof.
  induction l as [|a l IH]; [reflexivity|].
  cbn [flat_map map]. rewrite concat_app, concat_cons, IH. reflexivity.
Qed.

Lemma text_of_tree (n : node) (p : bool) :
  String.concat "" (text_strings (tree p n)) = visible_text_of p n.
Proof.
  revert p.
  induction n as [s|name attrs children IH|name attrs|attrs code|attrs css|s|s|s]
    using node_ind'; intros p.
  - reflexivity.
  - cbn [tree visible_text_of]. rewrite text_strings_Tag, concat_flat_map, map_map.
    f_equal. induction IH as [|c cs Hc _ IHcs]; [reflexivity|].
    cbn [map]. rewrite Hc, IHcs. reflexivity.
  - reflexivity.
  - cbn [tree visible_text_of]. destruct (code =? ""); reflexivity.
  - cbn [tree visible_text_of]. destruct (css =? ""); reflexivity.
  - reflexivity.
  - reflexivity.
  - reflexivity.
Qed.

Lemma get_text_document (doc : list node) :
  get_text (Tag ROOT_TAG_NAME (map (tree false) doc)) = visible_text doc.
Proof.
  unfold get_text. fold (text_strings (Tag ROOT_TAG_NAME (map (tree false) doc))).
  rewrite text_strings_Tag, concat_flat_map, map_map. unfold visible_text.
  f_equal. apply map_ext. intros n. apply text_of_tree.
Qed.

(** *** Text and bytes *)

(** [parse_html] depends on what it is given only through the text that
    Beautiful Soup parses. *)
Lemma parse_html_decoded (env : Env) (content : markup) (page : string) :
  BingChatClone.decoded env content = page ->
  BingChatClone.parse_html env content = BingChatClone.parse_html env page.
Proof.
  intros <-. reflexivity.
Qed.

Lemma parse_html_render (env : Env) (doc : list node) :
  html_parser_conforms env -> wf_document doc = true ->
  BingChatClone.parse_html env (render_document doc) = visible_text doc.
Proof.
  intros Hconf Hwf.
  unfold BingChatClone.parse_html, BingChatClone.BeautifulSoup, BingChatClone.decoded.
  rewrite (Hconf _ _ (HTMLParser_feed_render doc Hwf)).
  rewrite (build_tokens doc Hwf). apply get_text_document.
Qed.

Lemma env_html_conforms : html_parser_conforms env_html.
Proof.
  intros markup evs E. unfold env_html; simpl. rewrite E. reflexivity.
Qed.

(** *** End tags left out at the end of the page *)

Lemma open_tags_cons (name : string) (names : list string) (rest : string) :
  open_tags (name :: names) ++ rest
  = "<" ++ name ++ render_attrs [] ++ ">" ++ open_tags names ++ rest.
Proof.
  unfold open_tags. cbn [map]. rewrite concat_cons, !append_assoc. reflexivity.
Qed.

Lemma goahead_open_tags (names : list string) :
  forallb plain_name names = true ->
  forall f rest,
    goahead (List.length names + f) None (open_tags names ++ rest)
    = option_map (app (starts names)) (goahead f None rest).
Proof.
  induction names as [|name names IH]; intros Hp f rest.
  - cbn. destruct (goahead f None rest); reflexivity.
  - cbn [forallb] in Hp. apply andb_prop in Hp as [Hname Hp].
    destruct (plain_name_split name Hname) as (Hn & Hc & _ & _).
    rewrite open_tags_cons. cbn [List.length Nat.add].
    rewrite (goahead_starttag _ name _ [] Hn Hc eq_refl), (IH Hp).
    apply option_map_app_cons.
Qed.

Lemma all_ascii_open_tags (names : list string) :
  forallb plain_name names = true -> all_ascii (open_tags names) = true.
Proof.
  induction names as [|name names IH]; [reflexivity|].
  cbn [forallb]. intros Hp. apply andb_prop in Hp as [Hname Hp].
  destruct (plain_name_split name Hname) as (Hn & _).
  destruct (is_name_facts name Hn) as (_ & _ & Ha).
  unfold open_tags. cbn [map]. rewrite concat_cons, !all_ascii_app, Ha.
  fold (open_tags names). rewrite (IH Hp). reflexivity.
Qed.

Lemma length_open_tags (names : list string) :
  List.length names <= String.length (open_tags names).
Proof.
  induction names as [|name names IH]; [reflexivity|].
  unfold open_tags. cbn [map]. rewrite concat_cons, !length_append.
  fold (open_tags names). cbn [List.length String.length]. lia.
Qed.

Lemma all_ascii_render_document (doc : list node) :
  forallb wf_node doc = true -> all_ascii (render_document doc) = true.
Proof.
  intros Hwf. apply all_ascii_concat.
  apply (forallb_map_Forall (fun _ => True) wf_node render all_ascii); [|exact Hwf].
  apply Forall_all. apply all_ascii_render.
Qed.

Lemma HTMLParser_feed_unclosed (names : list string) (doc : list node) :
  forallb plain_name names = true ->
  wf_document doc = true ->
  HTMLParser_feed (open_tags names ++ render_document doc)
  = Some (starts names ++ flat_map tokens doc)%list.
Proof.
  intros Hp Hwf. unfold wf_document in Hwf. apply andb_prop in Hwf as [Hwf Hadj].
  unfold HTMLParser_feed.
  rewrite all_ascii_app, (all_ascii_open_tags names Hp), (all_ascii_render_document doc Hwf).
  cbn [andb].
  pose proof (length_concat_cost doc (Forall_all _ _ cost_le_length) Hwf) as Hc.
  fold (render_document doc) in Hc.
  pose proof (length_open_tags names) as Hn.
  assert (exists k, S (String.length (open_tags names ++ render_document doc))
                    = List.length names + (total_cost doc + S k)) as [k ->].
  { rewrite length_append.
    exists (String.length (open_tags names) + String.length (render_document doc)
            - List.length names - total_cost doc). lia. }
  rewrite (goahead_open_tags names Hp).
  rewrite <- (append_nil_r (render_document doc)).
  rewrite (goahead_nodes doc (Forall_all _ _ goahead_node) Hwf Hadj) by exact I.
  cbn. rewrite app_nil_r. reflexivity.
Qed.

(** The frames of the elements [names], the innermost first. *)
Lemma run_starts (names : list string) (stack : list frame) (rk : list PageElement)
    (ac : list string) :
  forallb plain_name names = true ->
  run (starts names) (mk_builder stack rk [] ac)
  = mk_builder (rev (map (fun name => mk_frame (lower name) []) names) ++ stack)%list rk [] ac.
Proof.
  revert stack. induction names as [|name names IH]; intros stack Hp; [reflexivity|].
  cbn [forallb] in Hp. apply andb_prop in Hp as [Hname Hp].
  destruct (plain_name_split name Hname) as (_ & _ & _ & Hvoid).
  cbn [starts map run fold_left on_event]. rewrite Hvoid.
  unfold soup_handle_starttag. rewrite endData_settled by reflexivity.
  unfold pushTag. cbn [tagStack root_kids current_data already_closed_empty_element].
  fold (starts names). fold (run (starts names)
                               (mk_builder (mk_frame (lower name) [] :: stack) rk [] ac)).
  rewrite (IH _ Hp). cbn [rev]. rewrite <- app_assoc. reflexivity.
Qed.

Lemma innermost_container_plain (names : list string) (stack : list frame) :
  forallb plain_name names = true ->
  innermost_container (map (fun name => mk_frame (lower name) []) names ++ stack)%list
  = innermost_container stack.
Proof.
  induction names as [|name names IH]; [reflexivity|].
  cbn [forallb]. intros Hp. apply andb_prop in Hp as [Hname Hp].
  destruct (plain_name_split name Hname) as (_ & _ & Hcont & _).
  cbn [map app innermost_container fname]. rewrite (not_container _ Hcont). apply IH. exact Hp.
Qed.

Lemma forallb_rev {A} (p : A -> bool) (l : list A) :
  forallb p (rev l) = forallb p l.
Proof.
  induction l as [|a l IH]; [reflexivity|].
  cbn [rev forallb]. rewrite forallb_app, IH. cbn [forallb]. rewrite andb_true_r.
  apply andb_comm.
Qed.

Lemma settled_starts (names : list string) :
  forallb plain_name names = true ->
  settled (mk_builder (rev (map (fun name => mk_frame (lower name) []) names)) [] [] []).
Proof.
  intros Hp. repeat split; [constructor|].
  cbn [tagStack]. rewrite <- map_rev, <- (app_nil_r (map _ (rev names))).
  apply innermost_container_plain. rewrite forallb_rev. exact Hp.
Qed.

Lemma already_closed_endData (cls : option string_class) (b : builder) :
  already_closed_empty_element (endData cls b) = already_closed_empty_element b.
Proof.
  unfold endData. destruct (current_data b); [reflexivity|].
  destruct b as [[|f fs] ? ? ?]; reflexivity.
Qed.

Lemma current_data_endData (cls : option string_class) (b : builder) :
  current_data (endData cls b) = [].
Proof.
  unfold endData. destruct (current_data b) eqn:E; [exact E|].
  destruct b as [[|f fs] ? ? ?]; reflexivity.
Qed.

(** An end tag for the innermost open tag, as the last handler call,
    changes nothing: the tree builder closes the open tags itself. *)
Lemma build_endtag_redundant (evs : list event) (m : string) (kids : list PageElement)
    (stack : list frame) :
  tagStack (endData None (run evs reset)) = mk_frame m kids :: stack ->
  mem_string m (already_closed_empty_element (endData None (run evs reset))) = false ->
  (m =? ROOT_TAG_NAME) = false ->
  build (evs ++ [handle_endtag m]) = build evs.
Proof.
  intros Hstack Hclosed Hroot. unfold build.
  fold (run (evs ++ [handle_endtag m]) reset). fold (run evs reset).
  rewrite run_app. cbn [run fold_left on_event].
  rewrite already_closed_endData in Hclosed. rewrite Hclosed.
  unfold soup_handle_endtag.
  pose proof (current_data_endData None (run evs reset)) as Hdata.
  destruct (endData None (run evs reset)) as [st rk cd ac] eqn:E.
  cbn [tagStack current_data] in Hstack, Hdata. subst st cd.
  rewrite (popToTag_top m kids stack rk ac Hroot).
  rewrite endData_settled by (destruct stack; reflexivity).
  cbn [tagStack List.length close_all]. unfold popTag.
  cbn [tagStack root_kids current_data already_closed_empty_element fname fkids].
  destruct stack; reflexivity.
Qed.

Lemma wf_nest (names : list string) (doc : list node) :
  forallb plain_name names = true -> wf_document doc = true ->
  wf_document (nest names doc) = true.
Proof.
  intros Hp Hwf. induction names as [|name names IH]; [exact Hwf|].
  cbn [forallb] in Hp. apply andb_prop in Hp as [Hname Hp]. specialize (IH Hp).
  unfold wf_document in *. cbn [nest fold_right forallb wf_node no_adjacent_text].
  fold (nest names doc). rewrite Hname.
  apply andb_prop in IH as [-> ->]. reflexivity.
Qed.

Lemma nest_app (outer : list string) (m : string) (doc : list node) :
  nest (outer ++ [m]) doc = nest outer [Element m [] doc].
Proof.
  unfold nest. rewrite fold_right_app. reflexivity.
Qed.

Lemma build_unclosed (names : list string) :
  forallb plain_name names = true ->
  forall doc, wf_document doc = true ->
    build (starts names ++ flat_map tokens doc) = build (flat_map tokens (nest names doc)).
Proof.
  induction names as [|m outer IH] using rev_ind; intros Hp doc Hwf; [reflexivity|].
  rewrite forallb_app in Hp. apply andb_prop in Hp as [Houter Hm].
  cbn [forallb] in Hm. apply andb_prop in Hm as [Hm _].
  destruct (plain_name_split m Hm) as (Hn & _ & _ & Hvoid).
  assert (Hwf' : wf_document [Element m [] doc] = true)
    by (apply (wf_nest [m] doc); [cbn [forallb]; rewrite Hm; reflexivity|exact Hwf]).
  rewrite nest_app, <- (IH Houter _ Hwf').
  cbn [flat_map tokens]. rewrite app_nil_r.
  unfold starts. rewrite map_app. cbn [map]. fold (starts outer).
  set (evs := ((starts outer ++ [handle_starttag (lower m)]) ++ flat_map tokens doc)%list).
  replace (starts outer
           ++ handle_starttag (lower m) :: flat_map tokens doc ++ [handle_endtag (lower m)])%list
    with (evs ++ [handle_endtag (lower m)])%list
    by (unfold evs; rewrite <- !app_assoc; reflexivity).
  symmetry.
  (* the builder after the start tags and the document *)
  assert (Hp' : forallb plain_name (outer ++ [m]) = true)
    by (rewrite forallb_app, Houter; cbn [forallb]; rewrite Hm; reflexivity).
  assert (Hrun : endData None (run evs reset)
                 = note_closed (flat_map closed_tags doc)
                     (add_kids (map (tree (preserving_whitespace
                                             (run (starts (outer ++ [m])) reset))) doc)
                        (run (starts (outer ++ [m])) reset))).
  { unfold evs. rewrite run_app.
    replace (starts outer ++ [handle_starttag (lower m)])%list with (starts (outer ++ [m]))
      by (unfold starts; rewrite map_app; reflexivity).
    unfold wf_document in Hwf. apply andb_prop in Hwf as [Hnodes Hadj].
    apply (run_nodes doc (Forall_all _ _ run_node) Hnodes Hadj).
    unfold reset. rewrite (run_starts _ [] [] [] Hp'), app_nil_r.
    apply settled_starts. exact Hp'. }
  unfold reset in Hrun. rewrite (run_starts _ [] [] [] Hp'), app_nil_r in Hrun.
  rewrite map_app, rev_app_distr in Hrun. cbn [map rev app] in Hrun.
  rewrite add_kids_pushed in Hrun.
  eapply build_endtag_redundant.
  - fold reset in Hrun. rewrite Hrun. reflexivity.
  - fold reset in Hrun. rewrite Hrun.
    cbn [note_closed already_closed_empty_element app].
    apply not_closed; [|exact Hvoid].
    apply closed_tags_void_all. unfold wf_document in Hwf.
    apply andb_prop in Hwf as [Hnodes _]. exact Hnodes.
  - apply lower_name_not_root. exact Hn.
Qed.

Lemma parse_html_unclosed (env : Env) (names : list string) (doc : list node) :
  html_parser_conforms env ->
  forallb plain_name names = true ->
  wf_document doc = true ->
  BingChatClone.parse_html env (open_tags names ++ render_document doc)
  = visible_text (nest names doc).
Proof.
  intros Hconf Hp Hwf.
  unfold BingChatClone.parse_html, BingChatClone.BeautifulSoup, BingChatClone.decoded.
  rewrite (Hconf _ _ (HTMLParser_feed_unclosed names doc Hp Hwf)).
  rewrite (build_unclosed names Hp doc Hwf).
  rewrite (build_tokens _ (wf_nest names doc Hp Hwf)). apply get_text_document.
Qed.

(** *** The text of a fetched page *)

Lemma fetch_web_page_result (env : Env) (url : string) (h : history) (response : Response) :
  http env h url BingChatClone.HEADERS [] = Return response ->
  result_of (BingChatClone.fetch_web_page env url) h
  = Return (PyStr (BingChatClone.parse_html env (of_bytes (content response)))).
Proof.
  intros Hget.
  unfold result_of, BingChatClone.fetch_web_page, bind, perform, ret. cbn [fst].
  rewrite Hget. reflexivity.
Qed.




(** * Further properties of the tools and the cells *)

(** ** The tools, beyond their first use *)

(** X1: [fetch_web_page] makes exactly one request, a GET of the url with
    the browser's [User-Agent] header and no parameters.  It does not
    look at the status of the response: the body of an error page, which
    is [bytes], is parsed and returned like any other page.  An exception
    of the request is not caught. *)
Theorem fetch_web_page_no_status_check (env : Env) (url : string) (h : history) :
  effects_of (BingChatClone.fetch_web_page env url) h
  = [EHttpGet url
       [("User-Agent",
         "Mozilla/5.0 (Macintosh; Intel Mac OS X 10.15; rv:90.0) Gecko/20100101 Firefox/90.0")]
       []]
  /\ (forall status body,
        http env h url BingChatClone.HEADERS [] = Return (mk_response status body) ->
        result_of (BingChatClone.fetch_web_page env url) h
        = Return (PyStr (BingChatClone.parse_html env (of_bytes body))))
  /\ (forall e,
        http env h url BingChatClone.HEADERS [] = Raise e ->
        BingChatClone.fetch_web_page env url h
        = (Raise e, (h ++ [EHttpGet url BingChatClone.HEADERS []])%list)).
Proof.
  unfold effects_of, result_of, BingChatClone.fetch_web_page, bind, perform, ret.
  fold BingChatClone.HEADERS.
  split; [|split].
  - destruct (http env h url BingChatClone.HEADERS []); cbn [snd]; apply skipn_length_app.
  - intros status body E. rewrite E. reflexivity.
  - intros e E. rewrite E. reflexivity.
Qed.

Lemma fetch_web_page_no_status_check_witness :
  result_of (BingChatClone.fetch_web_page env_not_found "https://example.org/missing") []
  = Return (PyStr "Not Found")
  /\ BingChatClone.fetch_web_page (env_web_raises (ValueError "no route")) "u" []
     = (Raise (ValueError "no route"), [EHttpGet "u" BingChatClone.HEADERS []]).
Proof.
  split.
  - exact (proj1 (proj2 (fetch_web_page_no_status_check env_not_found
                           "https://example.org/missing" []))
             404%Z "<h1>Not Found</h1>" eq_refl).
  - exact (proj2 (proj2 (fetch_web_page_no_status_check
                           (env_web_raises (ValueError "no route")) "u" []))
             (ValueError "no route") eq_refl).
Defined.

(** X2: the asynchronous entry point of [MyBingSearch] asks the provider
    for one thing: exactly [k] results for the query, the fourth argument
    of [run_in_executor] being the number of results; it hands back the
    list the wrapper builds.  In the registry of 09-BingChatClone a call
    of either tool leaves the same trace in an asynchronous run as in a
    synchronous one: one request for 5 results for [Searcher], one GET
    of the url for [WebFetcher].  Both registered tools carry an
    asynchronous entry point: [_arun] for [Searcher], and for
    [WebFetcher] one that runs [fetch_web_page]. *)
Theorem bing_search_arun_as_run (env : Env) (self : BingChatClone.MyBingSearch)
    (query : string) (h : history) :
  effects_of (BingChatClone.MyBingSearch_arun env self query) h
  = [EBingSearch query (BingChatClone.k self)]
  /\ result_of (BingChatClone.MyBingSearch_arun env self query) h
     = match bing env h query (BingChatClone.k self) with
       | Return [] =>
           Return (PyList [PyDict [("Result",
                                    PyStr "No good Bing Search Result was found")]])
       | Return pages =>
           Return (PyList (map (fun p => PyDict [("snippet", PyStr (page_snippet p));
                                                 ("title", PyStr (page_name p));
                                                 ("link", PyStr (page_url p))]) pages))
       | Raise e => Raise e
       end
  /\ (forall asynchronous,
        Registry.exec (Registry.tool_call asynchronous "Searcher" query)
          (BingChatClone.tools env) h
        = (BingChatClone.tools env, (h ++ [EBingSearch query 5%Z])%list))
  /\ (forall asynchronous,
        Registry.exec (Registry.tool_call asynchronous "WebFetcher" query)
          (BingChatClone.tools env) h
        = (BingChatClone.tools env, (h ++ [EHttpGet query BingChatClone.HEADERS []])%list))
  /\ option_map (fun f => f query h) (_arun (BingChatClone.MyBingSearch_tool env self))
     = Some (BingChatClone.MyBingSearch_arun env self query h)
  /\ option_map (fun f => f query h) (_arun (BingChatClone.web_fetch_tool env))
     = Some (BingChatClone.fetch_web_page env query h).
Proof.
  split; [|split; [|split; [|split; [|split; reflexivity]]]].
  - unfold effects_of, BingChatClone.MyBingSearch_arun,
      BingChatClone.BingSearchAPIWrapper_results, bind, perform.
    destruct (bing env h query _) as [[|p pages]|e]; cbn [snd]; apply skipn_length_app.
  - unfold result_of, BingChatClone.MyBingSearch_arun,
      BingChatClone.BingSearchAPIWrapper_results, bind, perform.
    destruct (bing env h query _) as [[|p pages]|e]; reflexivity.
  - intros [|]; cbn; unfold BingChatClone.MyBingSearch_arun, BingChatClone.MyBingSearch_run,
      BingChatClone.BingSearchAPIWrapper_results, bind, perform; cbn;
      destruct (bing env h query 5%Z) as [[|p pages]|e]; reflexivity.
  - intros [|]; cbn; unfold BingChatClone.fetch_web_page, bind, perform;
      destruct (http env h query BingChatClone.HEADERS []); reflexivity.
Qed.

(** X3: [MyAPISearch._run] builds the chain before its [try] block: with
    an empty list of domains the error of the constructor is raised at
    once, without the pause and without any effect.  Otherwise the tool
    pauses two seconds before anything else, an exception of a stage that
    is an instance of [Exception] is handed back as a value, and the only
    exceptions the tool lets through are those [except Exception] does
    not catch, such as an interrupt during the call of the model. *)
Theorem api_search_run_guard (env : Env) (self : APISearch.MyAPISearch)
    (query : string) (h : history) :
  let run := APISearch.MyAPISearch_run env self query in
  let p1 := APISearch.API_URL_PROMPT (APISearch.api_spec self) query in
  (APISearch.limit_to_domains self = Some [] ->
     run h = (Raise APISearch.limit_to_domains_error, h))
  /\ (APISearch.limit_to_domains self <> Some [] ->
      (exists rest, effects_of run h = ESleep 2 :: rest)
      /\ (forall e, result_of run h = Raise e -> isinstance_Exception e = false)
      /\ (forall e, llm env (h ++ [ESleep 2])%list p1 = Raise e ->
            run h = (if isinstance_Exception e then Return (PyExc e) else Raise e,
                     (h ++ [ESleep 2; EOracle p1])%list))).
Proof.
  cbv zeta. split.
  { intros Hempty. unfold_api_run. rewrite Hempty. reflexivity. }
  intros Hlimit. split; [|split].
  - unfold effects_of; unfold_api_run.
    destruct (APISearch.limit_to_domains self) as [[|d ds]|] eqn:E; [congruence| |]; simpl;
      repeat api_stage; rewrite <- ?app_assoc, skipn_length_app; eexists; reflexivity.
  - intros e. unfold result_of; unfold_api_run.
    destruct (APISearch.limit_to_domains self) as [[|d ds]|] eqn:E; [congruence| |]; simpl;
      repeat api_stage; intros Hr; same_outcomes; try discriminate Hr; assumption.
  - intros e He. unfold_api_run.
    destruct (APISearch.limit_to_domains self) as [[|d ds]|] eqn:E; [congruence| |]; simpl;
      rewrite He; simpl; rewrite <- app_assoc;
      destruct (isinstance_Exception e); reflexivity.
Qed.

Lemma api_search_run_guard_witness :
  let interrupt := mk_exn "KeyboardInterrupt" "" in
  APISearch.MyAPISearch_run (env_model_raises interrupt "") (APISearch.MyAPISearch_new "docs" None)
    "price of bitcoin" []
  = (Raise interrupt, [ESleep 2; EOracle (APISearch.API_URL_PROMPT "docs" "price of bitcoin")])
  /\ APISearch.MyAPISearch_run env_ticker (APISearch.MyAPISearch_new "docs" (Some []))
       "price of bitcoin" []
     = (Raise APISearch.limit_to_domains_error, []).
Proof.
  cbv zeta. split.
  - refine (proj2 (proj2 (proj2 (api_search_run_guard (env_model_raises (mk_exn "KeyboardInterrupt" "") "")
                     (APISearch.MyAPISearch_new "docs" None) "price of bitcoin" []) _))
              (mk_exn "KeyboardInterrupt" "") eq_refl).
    discriminate.
  - exact (proj1 (api_search_run_guard env_ticker (APISearch.MyAPISearch_new "docs" (Some []))
                    "price of bitcoin" []) eq_refl).
Defined.

(** ** [printmd], beyond the replacement *)

Lemma printmd_display (s : string) (h : history) :
  APISearch.printmd s h = (Return tt, (h ++ [EDisplay (every_dollar_as_USD s)])%list).
Proof.
  unfold APISearch.printmd, display_Markdown, perform. rewrite str_replace_dollar.
  reflexivity.
Qed.

Lemma printmd_display_bing (s : string) (h : history) :
  BingChatClone.printmd s h = (Return tt, (h ++ [EDisplay (every_dollar_as_USD s)])%list).
Proof.
  unfold BingChatClone.printmd, display_Markdown, perform. rewrite str_replace_dollar.
  reflexivity.
Qed.

Lemma length_every_dollar_as_USD (s : string) :
  String.length (every_dollar_as_USD s) = String.length s + 3 * count_dollars s.
Proof.
  induction s as [|c s IH]; [reflexivity|].
  cbn [every_dollar_as_USD count_dollars String.length].
  destruct (Ascii.eqb c "$"); cbn [append String.length]; rewrite IH; lia.
Qed.

Lemma every_dollar_as_USD_fixed (s : string) :
  contains_char "$" s = false -> every_dollar_as_USD s = s.
Proof.
  induction s as [|c s IH]; [reflexivity|].
  cbn [contains_char every_dollar_as_USD]. intros H.
  apply orb_false_iff in H as [Hc Hs]. rewrite Ascii.eqb_sym, Hc, (IH Hs). reflexivity.
Qed.

(** X4: [printmd] displays a text without dollar signs as it is; in
    general the text displayed is three characters longer for every
    dollar sign, and displaying what was displayed changes nothing
    more. *)
Theorem printmd_without_dollar_unchanged (s : string) (h : history) :
  (contains_char "$" s = false -> effects_of (BingChatClone.printmd s) h = [EDisplay s])
  /\ exists text,
       effects_of (BingChatClone.printmd s) h = [EDisplay text]
       /\ String.length text = String.length s + 3 * count_dollars s
       /\ effects_of (BingChatClone.printmd text) h = [EDisplay text].
Proof.
  assert (E : forall t, effects_of (BingChatClone.printmd t) h
                        = [EDisplay (every_dollar_as_USD t)]).
  { intros t. unfold effects_of. rewrite printmd_display_bing. cbn [snd].
    apply skipn_length_app. }
  split.
  - intros H. rewrite E, (every_dollar_as_USD_fixed s H). reflexivity.
  - exists (every_dollar_as_USD s). split; [apply E|].
    split; [apply length_every_dollar_as_USD|].
    rewrite E, every_dollar_as_USD_fixed; [reflexivity|].
    apply every_dollar_as_USD_no_dollar.
Qed.

Lemma printmd_without_dollar_unchanged_witness :
  effects_of (BingChatClone.printmd "10 euros") [] = [EDisplay "10 euros"].
Proof.
  exact (proj1 (printmd_without_dollar_unchanged "10 euros" []) eq_refl).
Defined.

Lemma prefix_USD_every_dollar (s : string) :
  prefix "USD " (every_dollar_as_USD s) = true ->
  prefix "USD " s = true \/ exists s', s = String "$" s'.
Proof.
  intros H.
  destruct s as [|c1 s]; [discriminate H|]. cbn [every_dollar_as_USD] in H.
  destruct (Ascii.eqb c1 "$") eqn:E1; [apply Ascii.eqb_eq in E1; subst; eauto|].
  left. cbn [prefix] in *. destruct (ascii_dec "U" c1); [|discriminate H].
  destruct s as [|c2 s]; [discriminate H|]. cbn [every_dollar_as_USD] in H.
  destruct (Ascii.eqb c2 "$") eqn:E2; [discriminate H|].
  cbn [prefix] in *. destruct (ascii_dec "S" c2); [|discriminate H].
  destruct s as [|c3 s]; [discriminate H|]. cbn [every_dollar_as_USD] in H.
  destruct (Ascii.eqb c3 "$") eqn:E3; [discriminate H|].
  cbn [prefix] in *. destruct (ascii_dec "D" c3); [|discriminate H].
  destruct s as [|c4 s]; [discriminate H|]. cbn [every_dollar_as_USD] in H.
  destruct (Ascii.eqb c4 "$") eqn:E4; [discriminate H|].
  cbn [prefix] in *. destruct (ascii_dec " " c4); [|discriminate H].
  destruct s; reflexivity.
Qed.

Lemma replace_from_USD (rest : string) :
  replace_from 0 "USD " "$" ("USD " ++ rest) = "$" ++ replace_from 0 "USD " "$" rest.
Proof.
  destruct rest; reflexivity.
Qed.

Lemma replace_back (s : string) :
  occurs "USD " s = false ->
  replace_from 0 "USD " "$" (every_dollar_as_USD s) = s.
Proof.
  induction s as [|c s IH]; [reflexivity|].
  intros Hocc. cbn [occurs] in Hocc. apply orb_false_iff in Hocc as [Hhead Htail].
  specialize (IH Htail).
  assert (Hstep : every_dollar_as_USD (String c s)
                  = if Ascii.eqb c "$" then "USD " ++ every_dollar_as_USD s
                    else String c (every_dollar_as_USD s)) by reflexivity.
  destruct (Ascii.eqb c "$") eqn:E.
  - apply Ascii.eqb_eq in E. subst c. rewrite Hstep.
    rewrite replace_from_USD, IH. reflexivity.
  - destruct (prefix "USD " (every_dollar_as_USD (String c s))) eqn:P.
    + destruct (prefix_USD_every_dollar _ P) as [Q|[s' Q]].
      * rewrite Q in Hhead. discriminate Hhead.
      * inversion Q; subst. discriminate E.
    + rewrite Hstep in *. unfold replace_from; fold replace_from. rewrite P, IH. reflexivity.
Qed.

(** X5: the replacement of [printmd] can be undone on a text that does not
    hold the four characters [USD ] already: replacing them back by a
    dollar sign in what is displayed gives the text again.  A text that
    holds them is displayed like the text with a dollar sign in their
    place, so the two cannot be told apart. *)
Theorem printmd_replacement_reversible (s : string) (h : history) :
  (occurs "USD " s = false ->
   exists text,
     effects_of (BingChatClone.printmd s) h = [EDisplay text]
     /\ str_replace "USD " "$" text = s)
  /\ effects_of (BingChatClone.printmd "USD 5") h = effects_of (BingChatClone.printmd "$5") h.
Proof.
  assert (E : forall t, effects_of (BingChatClone.printmd t) h
                        = [EDisplay (every_dollar_as_USD t)]).
  { intros t. unfold effects_of. rewrite printmd_display_bing. cbn [snd].
    apply skipn_length_app. }
  split; [|rewrite !E; reflexivity].
  intros Hocc. exists (every_dollar_as_USD s). split; [apply E|].
  unfold str_replace. cbn [String.eqb Ascii.eqb Bool.eqb]. apply replace_back. exact Hocc.
Qed.

Lemma printmd_replacement_reversible_witness :
  exists text,
    effects_of (BingChatClone.printmd "$5 or 5 USD") [] = [EDisplay text]
    /\ str_replace "USD " "$" text = "$5 or 5 USD".
Proof.
  exact (proj1 (printmd_replacement_reversible "$5 or 5 USD" []) eq_refl).
Defined.

(** ** The process environment *)

Lemma dict_get_set_same {A} (key : string) (v : A) (d : list (string * A)) :
  Cells.dict_get key (Cells.dict_set key v d) = Some v.
Proof.
  induction d as [|[k x] d IH]; cbn [Cells.dict_set Cells.dict_get].
  - rewrite String.eqb_refl. reflexivity.
  - destruct (key =? k)%string eqn:E; cbn [Cells.dict_get]; rewrite E; auto.
Qed.

Lemma dict_get_set_other {A} (key key' : string) (v : A) (d : list (string * A)) :
  key' <> key ->
  Cells.dict_get key' (Cells.dict_set key v d) = Cells.dict_get key' d.
Proof.
  intros Hne. induction d as [|[k x] d IH]; cbn [Cells.dict_set Cells.dict_get].
  - apply String.eqb_neq in Hne. rewrite Hne. reflexivity.
  - destruct (key =? k)%string eqn:E; cbn [Cells.dict_get].
    + apply String.eqb_eq in E. subst k.
      apply String.eqb_neq in Hne. rewrite Hne. reflexivity.
    + destruct (key' =? k)%string; auto.
Qed.

Lemma dict_set_keys {A} (key : string) (v : A) (d : list (string * A)) :
  map fst (Cells.dict_set key v d)
  = if existsb (String.eqb key) (map fst d) then map fst d
    else (map fst d ++ [key])%list.
Proof.
  induction d as [|[k x] d IH]; cbn [Cells.dict_set map fst existsb app]; [reflexivity|].
  destruct (key =? k)%string eqn:E; cbn [map fst orb]; [reflexivity|].
  rewrite IH. destruct (existsb (String.eqb key) (map fst d)); reflexivity.
Qed.

(** X6: the cell that sets [OPENAI_API_VERSION] needs the name [os].  The
    first cell of 09-BingChatClone does not import it: there the cell
    raises [NameError], whatever the environment holds.  In the
    API-search notebook, which imports [os], the cell raises [KeyError]
    when [AZURE_OPENAI_API_VERSION] is not set; when it is set, both
    variables hold its value afterwards, every other variable is as
    before, and the variables keep their order, a new one coming last. *)
Theorem openai_api_version_copied (environ : dict) :
  Cells.set_openai_api_version BingChatClone.IMPORTS environ
  = Raise (Cells.NameError "name 'os' is not defined")
  /\ match Cells.dict_get "AZURE_OPENAI_API_VERSION" environ with
     | None =>
         Cells.set_openai_api_version APISearch.IMPORTS environ
         = Raise (Cells.KeyError "AZURE_OPENAI_API_VERSION")
     | Some v =>
         exists environ',
           Cells.set_openai_api_version APISearch.IMPORTS environ = Return environ'
           /\ Cells.dict_get "OPENAI_API_VERSION" environ' = Some v
           /\ Cells.dict_get "AZURE_OPENAI_API_VERSION" environ' = Some v
           /\ (forall key, key <> "OPENAI_API_VERSION" ->
                 Cells.dict_get key environ' = Cells.dict_get key environ)
           /\ map fst environ'
              = if existsb (String.eqb "OPENAI_API_VERSION") (map fst environ)
                then map fst environ
                else (map fst environ ++ ["OPENAI_API_VERSION"])%list
     end.
Proof.
  split; [reflexivity|].
  unfold Cells.set_openai_api_version, Cells.getitem.
  change (existsb (String.eqb "os") APISearch.IMPORTS) with true. cbv iota.
  destruct (Cells.dict_get "AZURE_OPENAI_API_VERSION" environ) as [v|] eqn:E; [|reflexivity].
  exists (Cells.dict_set "OPENAI_API_VERSION" v environ).
  split; [reflexivity|]. split; [apply dict_get_set_same|].
  split; [rewrite dict_get_set_other; [exact E|discriminate]|].
  split; [intros key Hne; apply dict_get_set_other; exact Hne|].
  apply dict_set_keys.
Qed.

Lemma openai_api_version_copied_witness :
  exists environ',
    Cells.set_openai_api_version APISearch.IMPORTS
      [("PATH", "/usr/bin"); ("AZURE_OPENAI_API_VERSION", "2023-12-01-preview")]
    = Return environ'
    /\ Cells.dict_get "PATH" environ' = Some "/usr/bin".
Proof.
  destruct (proj2 (openai_api_version_copied
              [("PATH", "/usr/bin"); ("AZURE_OPENAI_API_VERSION", "2023-12-01-preview")]))
    as (environ' & Hset & _ & _ & Hother & _).
  exists environ'. split; [exact Hset|].
  rewrite (Hother "PATH"); [reflexivity|discriminate].
Defined.

(** ** The API description *)

(** X7: the cell that downloads the API description makes no request when
    [BLOB_SAS_TOKEN] is not set ([KeyError]); otherwise it makes one GET
    of the address followed by the token.  An exception of the request is
    raised on.  With status 200 the description is the JSON of the body
    and nothing is printed (a body that is no JSON raises); with any
    other status the description is [None], whatever the body holds, and
    one line with the status code is printed. *)
Theorem openapi_spec_cell_status (env : Env) (environ : dict) (c : Cells.console) :
  match Cells.dict_get "BLOB_SAS_TOKEN" environ with
  | None =>
      Cells.openapi_spec_cell env environ c = (Raise (Cells.KeyError "BLOB_SAS_TOKEN"), c)
  | Some token =>
      let url := Cells.openapi_url ++ token in
      let world' := (Cells.world c ++ [EHttpGet url [] []])%list in
      match http env (Cells.world c) url [] [] with
      | Raise e =>
          Cells.openapi_spec_cell env environ c
          = (Raise e, Cells.mk_console world' (Cells.stdout c))
      | Return response =>
          if (status_code response =? 200)%Z then
            Cells.openapi_spec_cell env environ c
            = (json_loads env (content response), Cells.mk_console world' (Cells.stdout c))
          else
            Cells.openapi_spec_cell env environ c
            = (Return PyNone,
               Cells.mk_console world'
                 (Cells.stdout c
                  ++ [("Failed to retrieve data: Status code "
                       ++ Cells.str_int (status_code response))%string])%list)
      end
  end.
Proof.
  unfold Cells.openapi_spec_cell, Cells.cbind, Cells.lift, of_outcome, Cells.getitem,
    perform.
  destruct (Cells.dict_get "BLOB_SAS_TOKEN" environ) as [token|]; [|destruct c; reflexivity].
  cbv zeta. cbn [Cells.world Cells.stdout].
  destruct (http env (Cells.world c) _ [] []) as [response|e]; [|reflexivity].
  destruct (status_code response =? 200)%Z; [|reflexivity].
  cbn [Cells.world Cells.stdout]. destruct (json_loads env (content response)); reflexivity.
Qed.

(** ** Running the agent and showing the answer *)

Lemma retry_cell_shape (invoke : M (list (string * pyval))) (h : history) :
  match Cells.invoke_output invoke h with
  | (Return v, h1) =>
      Cells.retry_cell invoke h = Cells.call_printmd APISearch.printmd v h1
  | (Raise e1, h1) =>
      if isinstance_Exception e1 then
        match Cells.invoke_output invoke h1 with
        | (Return v, h2) =>
            Cells.retry_cell invoke h = Cells.call_printmd APISearch.printmd v h2
        | (Raise e2, h2) =>
            if isinstance_Exception e2 then
              Cells.retry_cell invoke h
              = (Return tt, (h2 ++ [EDisplay (every_dollar_as_USD (exc_text e2))])%list)
            else Cells.retry_cell invoke h = (Raise e2, h2)
        end
      else Cells.retry_cell invoke h = (Raise e1, h1)
  end.
Proof.
  unfold Cells.retry_cell. cbn [seq Cells.retry_loop]. unfold try_except, bind, ret.
  destruct (Cells.invoke_output invoke h) as [[v|e1] h1]; [reflexivity|].
  destruct (isinstance_Exception e1); [|reflexivity].
  destruct (Cells.invoke_output invoke h1) as [[v|e2] h2]; [reflexivity|].
  destruct (isinstance_Exception e2); [|reflexivity].
  cbn [Cells.call_printmd]. apply printmd_display.
Qed.

(** X8: the cell of the API-search notebook that runs the agent runs the
    executor once when the run returns a [dict] with the key [output],
    and otherwise a second time and no more; it then shows the output of
    the attempt that succeeded or, when both failed, the text of the
    second exception: the error of the first attempt is dropped.  A
    result without the key [output] counts as a failed attempt.  An
    exception that [except Exception] does not catch ends the cell at
    the attempt that raised it. *)
Theorem retry_cell_two_attempts (invoke : M (list (string * pyval))) (h : history) :
  match Cells.invoke_output invoke h with
  | (Return v, h1) =>
      Cells.retry_cell invoke h = Cells.call_printmd APISearch.printmd v h1
  | (Raise e1, h1) =>
      if isinstance_Exception e1 then
        match Cells.invoke_output invoke h1 with
        | (Return v, h2) =>
            Cells.retry_cell invoke h = Cells.call_printmd APISearch.printmd v h2
        | (Raise e2, h2) =>
            if isinstance_Exception e2 then
              Cells.retry_cell invoke h
              = (Return tt, (h2 ++ [EDisplay (every_dollar_as_USD (exc_text e2))])%list)
            else Cells.retry_cell invoke h = (Raise e2, h2)
        end
      else Cells.retry_cell invoke h = (Raise e1, h1)
  end
  /\ (forall d h1, invoke h = (Return d, h1) -> Cells.dict_get "output" d = None ->
        Cells.invoke_output invoke h = (Raise (Cells.KeyError "output"), h1)).
Proof.
  split; [apply retry_cell_shape|].
  intros d h1 E Hnone. unfold Cells.invoke_output, bind, of_outcome, Cells.getitem.
  rewrite E, Hnone. reflexivity.
Qed.

Lemma retry_cell_two_attempts_witness :
  Cells.invoke_output (ret [("question", PyStr "price?")]) []
  = (Raise (Cells.KeyError "output"), []).
Proof.
  exact (proj2 (retry_cell_two_attempts (ret [("question", PyStr "price?")]) [])
           [("question", PyStr "price?")] [] eq_refl eq_refl).
Defined.

Lemma invoke_output_raises (invoke : M (list (string * pyval))) (h h1 : history) (e : exn) :
  Cells.invoke_output invoke h = (Raise e, h1) ->
  isinstance_Exception e = false ->
  invoke h = (Raise e, h1).
Proof.
  unfold Cells.invoke_output, bind, of_outcome, Cells.getitem.
  destruct (invoke h) as [[d|e0] h0]; [|intros E _; inversion E; reflexivity].
  destruct (Cells.dict_get "output" d); intros E Hi; inversion E; subst.
  discriminate Hi.
Qed.

(** X9: when the output of a run is a [str] whenever the run has one, that
    cell ends in one of two ways: it displays one text, which contains
    no dollar sign, or it raises an exception that the executor raised
    and that is no instance of [Exception] (an interrupt).  With an
    executor that raises instances of [Exception] only, the cell never
    raises. *)
Theorem retry_cell_raises_only_interrupts (invoke : M (list (string * pyval))) (h : history) :
  (forall h d v, fst (invoke h) = Return d -> Cells.dict_get "output" d = Some v ->
     is_str v = true) ->
  ((exists h' text,
       Cells.retry_cell invoke h = (Return tt, (h' ++ [EDisplay text])%list)
       /\ contains_char "$" text = false)
   \/ (exists e h0 h',
         Cells.retry_cell invoke h = (Raise e, h')
         /\ invoke h0 = (Raise e, h')
         /\ isinstance_Exception e = false))
  /\ ((forall h0 e, fst (invoke h0) = Raise e -> isinstance_Exception e = true) ->
      exists h' text,
        Cells.retry_cell invoke h = (Return tt, (h' ++ [EDisplay text])%list)
        /\ contains_char "$" text = false).
Proof.
  intros Hstr.
  assert (Hout : forall h v h1, Cells.invoke_output invoke h = (Return v, h1) ->
                   exists s, v = PyStr s).
  { intros h0 v h1. unfold Cells.invoke_output, bind, of_outcome, Cells.getitem.
    destruct (invoke h0) as [[d|e] h0'] eqn:E; [|discriminate].
    destruct (Cells.dict_get "output" d) as [v'|] eqn:G; [|discriminate].
    intros Heq. inversion Heq; subst.
    assert (Hs := Hstr h0 d v (f_equal fst E) G).
    destruct v; try discriminate Hs. eexists; reflexivity. }
  assert (Main :
    (exists h' text,
       Cells.retry_cell invoke h = (Return tt, (h' ++ [EDisplay text])%list)
       /\ contains_char "$" text = false)
    \/ (exists e h0 h',
         Cells.retry_cell invoke h = (Raise e, h')
         /\ invoke h0 = (Raise e, h')
         /\ isinstance_Exception e = false)).
  { generalize (retry_cell_shape invoke h).
    destruct (Cells.invoke_output invoke h) as [[v|e1] h1] eqn:E1.
    - destruct (Hout _ _ _ E1) as [s ->]. intros ->. cbn [Cells.call_printmd].
      rewrite printmd_display. left. eexists _, _. split; [reflexivity|].
      apply every_dollar_as_USD_no_dollar.
    - destruct (isinstance_Exception e1) eqn:I1.
      + destruct (Cells.invoke_output invoke h1) as [[v|e2] h2] eqn:E2.
        * destruct (Hout _ _ _ E2) as [s ->]. intros ->. cbn [Cells.call_printmd].
          rewrite printmd_display. left. eexists _, _. split; [reflexivity|].
          apply every_dollar_as_USD_no_dollar.
        * destruct (isinstance_Exception e2) eqn:I2; intros ->.
          -- left. eexists _, _. split; [reflexivity|].
             apply every_dollar_as_USD_no_dollar.
          -- right. exists e2, h1, h2. split; [reflexivity|].
             split; [apply invoke_output_raises; assumption|exact I2].
      + intros ->. right. exists e1, h, h1. split; [reflexivity|].
        split; [apply invoke_output_raises; assumption|exact I1]. }
  split; [exact Main|].
  intros Hexc. destruct Main as [Hshown | (e & h0 & h' & _ & Hraise & Hi)]; [exact Hshown|].
  rewrite (Hexc h0 e (f_equal fst Hraise)) in Hi. discriminate Hi.
Qed.

Lemma retry_cell_raises_only_interrupts_witness :
  (forall h d v, fst (invoke_answers h) = Return d -> Cells.dict_get "output" d = Some v ->
     is_str v = true)
  /\ exists h' text,
       Cells.retry_cell invoke_answers [] = (Return tt, (h' ++ [EDisplay text])%list)
       /\ contains_char "$" text = false.
Proof.
  assert (H : forall h d v, fst (invoke_answers h) = Return d ->
                Cells.dict_get "output" d = Some v -> is_str v = true).
  { intros h d v E G. unfold invoke_answers, ret in E. cbn [fst] in E.
    inversion E; subst d. cbn in G. inversion G. reflexivity. }
  split; [exact H|].
  refine (proj2 (retry_cell_raises_only_interrupts invoke_answers [] H) _).
  intros h0 e E. discriminate E.
Defined.

(** X10: in 09-BingChatClone the cell that runs the agent keeps the text of
    an exception as the response, and the next cell subscripts the
    response with ["output"]: after a failed run it raises [TypeError]
    and displays nothing, so the text of the error is never shown.  After
    a run that returns, it displays the output with the dollar signs
    replaced, raises [KeyError] when the result has no output and
    [AttributeError] when the output is no [str].  An exception of the
    run that [except Exception] does not catch ends the first cell. *)
Theorem failed_run_is_not_shown (invoke : M (list (string * pyval))) (h : history) :
  let cells := response <- Cells.invoke_cell invoke ;; Cells.show_output_cell response in
  match invoke h with
  | (Raise e, h1) =>
      if isinstance_Exception e then
        cells h = (Raise (Cells.TypeError "string indices must be integers"), h1)
      else cells h = (Raise e, h1)
  | (Return d, h1) =>
      match Cells.dict_get "output" d with
      | Some (PyStr s) => cells h = (Return tt, (h1 ++ [EDisplay (every_dollar_as_USD s)])%list)
      | Some v =>
          cells h
          = (Raise (Cells.AttributeError
                      ("'" ++ Cells.type_name v ++ "' object has no attribute 'replace'")), h1)
      | None => cells h = (Raise (Cells.KeyError "output"), h1)
      end
  end.
Proof.
  cbv zeta. unfold Cells.invoke_cell, Cells.show_output_cell, try_except, bind, ret,
    of_outcome.
  destruct (invoke h) as [[d|e] h1]; [|destruct (isinstance_Exception e); reflexivity].
  cbn [Cells.subscript]. unfold Cells.getitem.
  destruct (Cells.dict_get "output" d) as [v|]; [|reflexivity].
  destruct v; try reflexivity.
  cbn [Cells.call_printmd]. apply printmd_display_bing.
Qed.

(** ** The loops over the chunks of a run *)

Lemma print_all_lines {A} (line : A -> string) (l : list A) (c : Cells.console) :
  Cells.for_each (fun a => Cells.print [line a]) l c
  = (Return tt, Cells.mk_console (Cells.world c) (Cells.stdout c ++ map line l)%list).
Proof.
  revert c. induction l as [|a l IH]; intros c; cbn [Cells.for_each map].
  - unfold Cells.cret. rewrite app_nil_r. destruct c; reflexivity.
  - unfold Cells.cbind, Cells.print at 1. rewrite IH.
    cbn [Cells.world Cells.stdout String.concat]. rewrite <- app_assoc. reflexivity.
Qed.

Lemma astream_body_known (str : pyval -> string) (chunk : Cells.chunk) (c : Cells.console) :
  known_chunk chunk = true ->
  Cells.astream_body str chunk c
  = (Return tt, Cells.mk_console (Cells.world c)
                  (Cells.stdout c ++ astream_lines str chunk)%list).
Proof.
  unfold known_chunk, Cells.astream_body, astream_lines. intros Hk.
  destruct (Cells.actions chunk) as [acts|].
  - unfold Cells.cbind. rewrite print_all_lines. unfold Cells.print.
    cbn [Cells.world Cells.stdout String.concat]. rewrite <- app_assoc. reflexivity.
  - destruct (Cells.steps chunk); [|destruct (Cells.output chunk); [|discriminate Hk]];
      unfold Cells.cret; rewrite app_nil_r; destruct c; reflexivity.
Qed.

Lemma astream_cell_known (str : pyval -> string) (stream : list Cells.chunk)
    (c : Cells.console) :
  forallb known_chunk stream = true ->
  Cells.astream_cell str stream c
  = (Return tt, Cells.mk_console (Cells.world c)
                  (Cells.stdout c ++ flat_map (astream_lines str) stream)%list).
Proof.
  unfold Cells.astream_cell. revert c.
  induction stream as [|chunk stream IH]; intros c Hk; cbn [Cells.for_each flat_map].
  - unfold Cells.cret. rewrite app_nil_r. destruct c; reflexivity.
  - cbn [forallb] in Hk. apply andb_prop in Hk as [Hk Hks].
    unfold Cells.cbind. rewrite (astream_body_known str chunk c Hk), (IH _ Hks).
    cbn [Cells.world Cells.stdout]. rewrite <- app_assoc. reflexivity.
Qed.

Lemma calling_tool_not_separator (str : pyval -> string) (action : Cells.AgentAction) :
  Cells.calling_tool str action <> "---".
Proof.
  unfold Cells.calling_tool. cbn [append]. discriminate.
Qed.

Lemma count_occ_lines (str : pyval -> string) (acts : list Cells.AgentAction) :
  count_occ string_dec (map (Cells.calling_tool str) acts) "---" = 0.
Proof.
  induction acts as [|a acts IH]; [reflexivity|].
  cbn [map]. rewrite count_occ_cons_neq; [exact IH|apply calling_tool_not_separator].
Qed.

(** X11: when every chunk of the stream holds one of the keys [actions],
    [steps] and [output], the loop of 09-BingChatClone ends normally and
    prints, for each chunk with actions and in the order of the stream,
    one line per action and then the separator; chunks with steps or with
    the output print nothing, so the final output is not printed and
    there are as many separators as chunks with actions.  The loop does
    nothing to the outside world. *)
Theorem astream_cell_prints_actions (str : pyval -> string) (stream : list Cells.chunk)
    (c : Cells.console) :
  forallb known_chunk stream = true ->
  Cells.astream_cell str stream c
  = (Return tt, Cells.mk_console (Cells.world c)
                  (Cells.stdout c ++ flat_map (astream_lines str) stream)%list)
  /\ count_occ string_dec (flat_map (astream_lines str) stream) "---"
     = List.length (filter (fun chunk => has_key (Cells.actions chunk)) stream).
Proof.
  intros Hk. split; [apply astream_cell_known; exact Hk|]. clear Hk.
  induction stream as [|chunk stream IH]; [reflexivity|].
  cbn [flat_map filter]. rewrite count_occ_app, IH. unfold astream_lines.
  destruct (Cells.actions chunk) as [acts|]; cbn [has_key]; [|reflexivity].
  rewrite count_occ_app, count_occ_lines. reflexivity.
Qed.

Lemma astream_cell_prints_actions_witness :
  Cells.astream_cell (fun _ => "price of X")
    [Cells.mk_chunk (Some [Cells.mk_action "Searcher" (PyStr "price of X")]) None None;
     Cells.mk_chunk None
       (Some [(Cells.mk_action "Searcher" (PyStr "price of X"), PyStr "X costs 10")]) None;
     Cells.mk_chunk None None (Some (PyStr "10"))]
    (Cells.mk_console [] [])
  = (Return tt,
     Cells.mk_console [] ["Calling Tool: `Searcher` with input `price of X`"; "---"]).
Proof.
  exact (proj1 (astream_cell_prints_actions (fun _ => "price of X")
                  [Cells.mk_chunk (Some [Cells.mk_action "Searcher" (PyStr "price of X")])
                     None None;
                   Cells.mk_chunk None
                     (Some [(Cells.mk_action "Searcher" (PyStr "price of X"),
                             PyStr "X costs 10")]) None;
                   Cells.mk_chunk None None (Some (PyStr "10"))]
                  (Cells.mk_console [] []) eq_refl)).
Defined.

(** X12: a chunk that holds none of the three keys makes the loop raise
    [ValueError]: the chunks before it are printed, the chunks after it
    are not looked at. *)
Theorem astream_cell_unknown_chunk (str : pyval -> string)
    (before after : list Cells.chunk) (chunk : Cells.chunk) (c : Cells.console) :
  forallb known_chunk before = true ->
  known_chunk chunk = false ->
  Cells.astream_cell str (before ++ chunk :: after)%list c
  = (Raise (ValueError ""),
     Cells.mk_console (Cells.world c)
       (Cells.stdout c ++ flat_map (astream_lines str) before)%list).
Proof.
  unfold Cells.astream_cell. revert c.
  induction before as [|b before IH]; intros c Hk Hbad.
  - cbn [app Cells.for_each flat_map]. unfold Cells.cbind, Cells.astream_body.
    unfold known_chunk in Hbad.
    destruct (Cells.actions chunk); [discriminate Hbad|].
    destruct (Cells.steps chunk); [discriminate Hbad|].
    destruct (Cells.output chunk); [discriminate Hbad|].
    unfold Cells.craise. rewrite app_nil_r. destruct c; reflexivity.
  - cbn [forallb] in Hk. apply andb_prop in Hk as [Hb Hk].
    cbn [app Cells.for_each flat_map]. unfold Cells.cbind.
    rewrite (astream_body_known str b c Hb), (IH _ Hk Hbad).
    cbn [Cells.world Cells.stdout]. rewrite <- app_assoc. reflexivity.
Qed.

Lemma astream_cell_unknown_chunk_witness :
  let search := Cells.mk_action "Searcher" (PyStr "price of X") in
  Cells.astream_cell (fun _ => "price of X")
    [Cells.mk_chunk (Some [search]) None None;
     Cells.mk_chunk None None None;
     Cells.mk_chunk None None (Some (PyStr "10"))]
    (Cells.mk_console [] [])
  = (Raise (ValueError ""),
     Cells.mk_console [] ["Calling Tool: `Searcher` with input `price of X`"; "---"]).
Proof.
  cbv zeta.
  exact (astream_cell_unknown_chunk (fun _ => "price of X")
           [Cells.mk_chunk (Some [Cells.mk_action "Searcher" (PyStr "price of X")]) None None]
           [Cells.mk_chunk None None (Some (PyStr "10"))]
           (Cells.mk_chunk None None None) (Cells.mk_console [] []) eq_refl eq_refl).
Defined.

Lemma stream_body_known (str : pyval -> string) (chunk : Cells.chunk) (c : Cells.console) :
  known_chunk chunk = true ->
  Cells.stream_body str chunk c
  = (Return tt, Cells.mk_console (Cells.world c ++ stream_displays str chunk)%list
                  (Cells.stdout c ++ stream_lines str chunk)%list).
Proof.
  unfold known_chunk, Cells.stream_body, stream_lines, stream_displays. intros Hk.
  destruct (Cells.actions chunk) as [acts|].
  - unfold Cells.cbind. rewrite print_all_lines. unfold Cells.print.
    cbn [Cells.world Cells.stdout String.concat]. rewrite <- app_assoc, app_nil_r.
    reflexivity.
  - destruct (Cells.steps chunk).
    + unfold Cells.cret. rewrite !app_nil_r. destruct c; reflexivity.
    + destruct (Cells.output chunk) as [v|]; [|discriminate Hk].
      unfold Cells.cbind, Cells.lift, Cells.print, APISearch.printmd, display_Markdown,
        perform.
      rewrite str_replace_dollar. reflexivity.
Qed.

(** X13: when every chunk holds one of the three keys, the loop of the
    API-search notebook ends normally; it prints the actions as the other
    loop does, prints a separator also after a final output, and every
    final output goes through [printmd]: what the loop displays is the
    text [Final Output: ...] of each chunk that holds an output and
    neither actions nor steps, and no text it displays contains a dollar
    sign. *)
Theorem stream_cell_displays_outputs (str : pyval -> string) (stream : list Cells.chunk)
    (c : Cells.console) :
  forallb known_chunk stream = true ->
  Cells.stream_cell str stream c
  = (Return tt,
     Cells.mk_console (Cells.world c ++ flat_map (stream_displays str) stream)%list
       (Cells.stdout c ++ flat_map (stream_lines str) stream)%list)
  /\ Forall displays_no_dollar (flat_map (stream_displays str) stream).
Proof.
  intros Hk. split.
  - unfold Cells.stream_cell. revert c Hk.
    induction stream as [|chunk stream IH]; intros c Hk; cbn [Cells.for_each flat_map].
    + unfold Cells.cret. rewrite !app_nil_r. destruct c; reflexivity.
    + cbn [forallb] in Hk. apply andb_prop in Hk as [Hk Hks].
      unfold Cells.cbind. rewrite (stream_body_known str chunk c Hk), (IH _ Hks).
      cbn [Cells.world Cells.stdout]. rewrite <- !app_assoc. reflexivity.
  - clear Hk. induction stream as [|chunk stream IH]; [constructor|].
    cbn [flat_map]. apply Forall_app. split; [|exact IH].
    unfold stream_displays.
    destruct (Cells.actions chunk), (Cells.steps chunk), (Cells.output chunk);
      try constructor; [|constructor].
    eexists. split; [reflexivity|apply every_dollar_as_USD_no_dollar].
Qed.

Lemma stream_cell_displays_outputs_witness :
  let search := Cells.mk_action "apisearch" (PyStr "SanDisk") in
  Cells.stream_cell (fun _ => "$5")
    [Cells.mk_chunk (Some [search]) None None;
     Cells.mk_chunk None (Some [(search, PyStr "five")]) None;
     Cells.mk_chunk None None (Some (PyStr "$5"))]
    (Cells.mk_console [] [])
  = (Return tt,
     Cells.mk_console [EDisplay "Final Output: USD 5"]
       ["Calling Tool: `apisearch` with input `$5`"; "---"; "---"]).
Proof.
  cbv zeta.
  exact (proj1 (stream_cell_displays_outputs (fun _ => "$5")
                  [Cells.mk_chunk (Some [Cells.mk_action "apisearch" (PyStr "SanDisk")]) None None;
                   Cells.mk_chunk None
                     (Some [(Cells.mk_action "apisearch" (PyStr "SanDisk"), PyStr "five")]) None;
                   Cells.mk_chunk None None (Some (PyStr "$5"))]
                  (Cells.mk_console [] []) eq_refl)).
Defined.

(** ** The request of the keyless API, by hand *)

Lemma substring_0_length (n : nat) (s : string) :
  String.length (substring 0 n s) = Nat.min n (String.length s).
Proof.
  revert s. induction n as [|n IH]; intros [|ch s]; cbn [substring String.length Nat.min];
    auto.
Qed.

Lemma substring_0_prefix (n : nat) (s : string) : prefix (substring 0 n s) s = true.
Proof.
  revert s. induction n as [|n IH]; intros [|ch s]; cbn [substring prefix]; auto.
  destruct (ascii_dec ch ch) as [_|Hne]; [apply IH|congruence].
Qed.

Lemma substring_0_short (n : nat) (s : string) :
  String.length s <= n -> substring 0 n s = s.
Proof.
  revert s. induction n as [|n IH]; intros [|ch s]; cbn [substring String.length]; auto.
  - intros H. lia.
  - intros H. f_equal. apply IH. lia.
Qed.

(** X14: when the request returns and the body is JSON, the cell that calls
    the keyless API by hand makes the request that the tool
    [MySimpleAPISearch(api_key='demo')] makes for the term
    [memory cards], and prints two texts: the token count and an excerpt
    of the JSON text followed by three dots.  The excerpt is the start of
    the JSON text, never longer than 2000 characters, and the whole text
    when that has at most 2000 characters. *)
Theorem countdown_demo_cell_excerpt (env : Env) (str : pyval -> string)
    (num_tokens_from_string : string -> Z) (c : Cells.console)
    (response : Response) (v : pyval) :
  let params := [("api_key", "demo"); ("type", "search"); ("ebay_domain", "ebay.com");
                 ("search_term", "memory cards")] in
  let url := "https://api.countdownapi.com/request" in
  http env (Cells.world c) url [] params = Return response ->
  json_loads env (content response) = Return v ->
  exists excerpt,
    Cells.countdown_demo_cell env str num_tokens_from_string c
    = (Return tt,
       Cells.mk_console (Cells.world c ++ [EHttpGet url [] params])%list
         (Cells.stdout c
          ++ [("Token count: " ++ Cells.str_int (num_tokens_from_string (str v))
               ++ " " ++ nl)%string;
              (excerpt ++ " ...")%string])%list)
    /\ String.length excerpt <= 2000
    /\ prefix excerpt (json_dumps env v) = true
    /\ (String.length (json_dumps env v) <= 2000 -> excerpt = json_dumps env v)
    /\ effects_of (APISearch.MySimpleAPISearch_run env (APISearch.mk_MySimpleAPISearch "demo")
                     "memory cards") (Cells.world c)
       = [EHttpGet url [] params].
Proof.
  cbv zeta. intros Hget Hjson.
  exists (substring 0 2000 (json_dumps env v)).
  split; [|split; [|split; [|split]]].
  - unfold Cells.countdown_demo_cell, Cells.cbind, Cells.lift, of_outcome, Cells.print,
      perform, APISearch.countdown_endpoint, APISearch.countdown_params.
    rewrite Hget. cbn [Cells.world Cells.stdout]. rewrite Hjson.
    cbn [Cells.world Cells.stdout String.concat]. rewrite <- app_assoc. reflexivity.
  - rewrite substring_0_length. apply Nat.le_min_l.
  - apply substring_0_prefix.
  - apply substring_0_short.
  - unfold effects_of, APISearch.MySimpleAPISearch_run, bind, perform, try_except,
      APISearch.countdown_endpoint, APISearch.countdown_params. cbn [APISearch.api_key].
    rewrite Hget, Hjson. cbn [snd]. apply skipn_length_app.
Qed.

Lemma countdown_demo_cell_excerpt_witness :
  Cells.stdout
    (snd (Cells.countdown_demo_cell env_prices (fun _ => "") (fun _ => 3%Z)
            (Cells.mk_console [] [])))
  = ["Token count: 3 " ++ nl; "{} ..."].
Proof.
  destruct (countdown_demo_cell_excerpt env_prices (fun _ => "") (fun _ => 3%Z)
              (Cells.mk_console [] []) (mk_response 200 "<p>X costs 10</p>")
              (PyStr "<p>X costs 10</p>") eq_refl eq_refl)
    as (excerpt & Hrun & _ & _ & Hshort & _).
  rewrite Hrun. cbn [snd Cells.stdout app]. rewrite Hshort; [reflexivity|].
  cbn. lia.
Defined.

(** ** [parse_html], beyond the visible text *)

(** *** Documents side by side *)

Lemma no_adjacent_text_app (d1 d2 : list node) :
  no_adjacent_text (d1 ++ d2) = true ->
  no_adjacent_text d1 = true /\ no_adjacent_text d2 = true.
Proof.
  induction d1 as [|n d1 IH]; [intros H; split; [reflexivity|exact H]|].
  destruct d1 as [|m d1].
  - cbn [app]. intros H. split; [reflexivity|].
    destruct d2 as [|k d2]; [reflexivity|].
    cbn [no_adjacent_text] in H. apply andb_prop in H as [_ H]. exact H.
  - intros H. change (no_adjacent_text (n :: m :: (d1 ++ d2)) = true) in H.
    cbn [no_adjacent_text] in H. apply andb_prop in H as [Hnm H].
    destruct (IH H) as [H1 H2]. split; [|exact H2].
    cbn [no_adjacent_text]. rewrite Hnm. exact H1.
Qed.

Lemma wf_document_app (d1 d2 : list node) :
  wf_document (d1 ++ d2) = true -> wf_document d1 = true /\ wf_document d2 = true.
Proof.
  unfold wf_document. rewrite forallb_app. intros H.
  apply andb_prop in H as [H Hadj]. apply andb_prop in H as [H1 H2].
  destruct (no_adjacent_text_app d1 d2 Hadj) as [A1 A2].
  rewrite H1, H2, A1, A2. split; reflexivity.
Qed.

(** X15: text extraction goes through concatenation: when two documents
    put side by side are a well-formed document, the text of the whole is
    the text of the first followed by the text of the second. *)
Theorem parse_html_concat (env : Env) (d1 d2 : list node) :
  html_parser_conforms env ->
  wf_document (d1 ++ d2) = true ->
  BingChatClone.parse_html env (render_document d1 ++ render_document d2)
  = BingChatClone.parse_html env (render_document d1)
    ++ BingChatClone.parse_html env (render_document d2).
Proof.
  intros Hconf Hwf. destruct (wf_document_app d1 d2 Hwf) as [H1 H2].
  rewrite (parse_html_render env d1 Hconf H1), (parse_html_render env d2 Hconf H2).
  replace (render_document d1 ++ render_document d2) with (render_document (d1 ++ d2)).
  - rewrite (parse_html_render env _ Hconf Hwf).
    unfold visible_text. rewrite map_app. apply concat_app.
  - unfold render_document. rewrite map_app. apply concat_app.
Qed.

Lemma parse_html_concat_witness :
  html_parser_conforms env_html
  /\ BingChatClone.parse_html env_html ("<p class=" ++ String quote ("x" ++ String quote ">10</p>")
                                        ++ "<!-- price --> euros")
     = "10" ++ " euros".
Proof.
  split; [exact env_html_conforms|].
  exact (parse_html_concat env_html
           [Element "p" [("class", Some "x")] [Text "10"]]
           [CommentNode " price "; Text " euros"] env_html_conforms eq_refl).
Defined.

(** *** What the text is made of *)

Lemma forall_chars_app (p : ascii -> bool) (a b : string) :
  forall_chars p (a ++ b) = forall_chars p a && forall_chars p b.
Proof.
  induction a as [|x a IH]; cbn [append forall_chars]; [reflexivity|].
  rewrite IH, andb_assoc. reflexivity.
Qed.

Lemma forall_chars_concat (p : ascii -> bool) (l : list string) :
  Forall (fun s => forall_chars p s = true) l ->
  forall_chars p (String.concat "" l) = true.
Proof.
  induction 1 as [|x l Hx _ IH]; [reflexivity|].
  rewrite concat_cons, forall_chars_app, Hx, IH. reflexivity.
Qed.

Lemma collapse_cases (p : bool) (s : string) :
  collapse p s = s \/ collapse p s = " " \/ collapse p s = newline.
Proof.
  unfold collapse. destruct (negb p && strippable s); [|auto].
  destruct (contains_char _ s); auto.
Qed.

Lemma forallb_Forall_true {A} (p : A -> bool) (l : list A) :
  forallb p l = true -> Forall (fun a => p a = true) l.
Proof.
  intros H. apply Forall_forall. apply forallb_forall. exact H.
Qed.

Lemma wf_children (name : string) (attrs : list attribute) (children : list node) :
  wf_node (Element name attrs children) = true ->
  Forall (fun n => wf_node n = true) children.
Proof.
  cbn [wf_node]. intros H. apply andb_prop in H as [H _]. apply andb_prop in H as [_ H].
  apply forallb_Forall_true. exact H.
Qed.

Lemma visible_text_no_markup (n : node) (p : bool) :
  wf_node n = true -> cdata_free n = true -> no_markup (visible_text_of p n) = true.
Proof.
  revert p.
  induction n as [s|name attrs children IH|name attrs|attrs code|attrs css|s|s|s]
    using node_ind'; intros p Hwf Hfree; cbn [visible_text_of]; try reflexivity.
  - cbn [wf_node] in Hwf. apply andb_prop in Hwf as [Hwf _].
    apply andb_prop in Hwf as [_ Hs].
    destruct (collapse_cases p s) as [-> | [-> | ->]]; [exact Hs|reflexivity|reflexivity].
  - apply forall_chars_concat. apply wf_children in Hwf.
    cbn [cdata_free] in Hfree. apply forallb_Forall_true in Hfree.
    induction IH as [|c cs Hc _ IHcs]; [constructor|].
    inversion Hwf; subst. inversion Hfree; subst.
    constructor; [apply Hc; assumption|apply IHcs; assumption].
  - discriminate Hfree.
Qed.

Lemma visible_text_ascii (n : node) (p : bool) :
  wf_node n = true -> all_ascii (visible_text_of p n) = true.
Proof.
  revert p.
  induction n as [s|name attrs children IH|name attrs|attrs code|attrs css|s|s|s]
    using node_ind'; intros p Hwf; cbn [visible_text_of]; try reflexivity.
  - cbn [wf_node] in Hwf. apply andb_prop in Hwf as [_ Hs].
    destruct (collapse_cases p s) as [-> | [-> | ->]]; [exact Hs|reflexivity|reflexivity].
  - apply all_ascii_concat. apply wf_children in Hwf.
    induction IH as [|c cs Hc _ IHcs]; [reflexivity|].
    inversion Hwf; subst. cbn [map forallb]. rewrite Hc, IHcs by assumption. reflexivity.
  - cbn [wf_node] in Hwf. apply andb_prop in Hwf as [Hs _].
    destruct (collapse_cases p s) as [-> | [-> | ->]]; [exact Hs|reflexivity|reflexivity].
Qed.

Lemma length_collapse (p : bool) (s : string) :
  s <> "" -> String.length (collapse p s) <= String.length s.
Proof.
  intros Hne. destruct (collapse_cases p s) as [-> | [-> | ->]]; [lia| |];
    destruct s; try congruence; cbn; lia.
Qed.

Lemma length_concat_le (f g : node -> string) (children : list node) :
  Forall (fun n => wf_node n = true -> String.length (f n) <= String.length (g n)) children ->
  Forall (fun n => wf_node n = true) children ->
  String.length (String.concat "" (map f children))
  <= String.length (String.concat "" (map g children)).
Proof.
  induction 1 as [|c cs Hc _ IH]; intros Hwf; [reflexivity|].
  inversion Hwf; subst. cbn [map]. rewrite !concat_cons, !length_append.
  specialize (Hc H1). specialize (IH H2). lia.
Qed.

Lemma length_visible_text (n : node) (p : bool) :
  wf_node n = true -> String.length (visible_text_of p n) <= String.length (render n).
Proof.
  revert p.
  induction n as [s|name attrs children IH|name attrs|attrs code|attrs css|s|s|s]
    using node_ind'; intros p Hwf; cbn [visible_text_of render];
    try (cbn [String.length]; lia).
  - apply length_collapse. cbn [wf_node] in Hwf. apply andb_prop in Hwf as [Hwf _].
    apply andb_prop in Hwf as [Hne _]. intros ->. discriminate Hne.
  - rewrite !length_append.
    assert (H : String.length
                  (String.concat "" (map (visible_text_of (preserves p name)) children))
                <= String.length (String.concat "" (map render children))).
    { apply length_concat_le; [|apply (wf_children name attrs); exact Hwf].
      eapply Forall_impl; [|exact IH]. intros c Hc Hw. apply Hc. exact Hw. }
    lia.
  - rewrite !length_append.
    destruct (collapse_cases p s) as [-> | [-> | ->]]; simpl; lia.
Qed.

Lemma visible_text_document_facts (doc : list node) :
  wf_document doc = true ->
  forallb cdata_free doc = true ->
  no_markup (visible_text doc) = true /\ all_ascii (visible_text doc) = true.
Proof.
  intros Hwf Hfree. unfold wf_document in Hwf. apply andb_prop in Hwf as [Hwf _].
  apply forallb_Forall_true in Hwf. apply forallb_Forall_true in Hfree.
  unfold visible_text. split.
  - apply forall_chars_concat. revert Hfree.
    induction Hwf as [|n l Hn _ IH]; intros Hfree; [constructor|].
    inversion Hfree; subst. constructor; [|apply IH; assumption].
    apply visible_text_no_markup; assumption.
  - apply all_ascii_concat. clear Hfree.
    induction Hwf as [|n l Hn _ IH]; [reflexivity|].
    cbn [map forallb]. rewrite (visible_text_ascii n false Hn), IH. reflexivity.
Qed.

Lemma parse_html_no_markup_facts (env : Env) (doc : list node) :
  html_parser_conforms env ->
  wf_document doc = true ->
  forallb cdata_free doc = true ->
  no_markup (BingChatClone.parse_html env (render_document doc)) = true
  /\ all_ascii (BingChatClone.parse_html env (render_document doc)) = true.
Proof.
  intros Hconf Hwf Hfree. rewrite (parse_html_render env doc Hconf Hwf).
  apply visible_text_document_facts; assumption.
Qed.

(** X17: for a page that is a well-formed document of the fragment of
    HTML described above (text without character references, elements,
    comments, a document type declaration, CDATA sections), the text
    [parse_html] returns is never longer than the page. *)
Theorem parse_html_not_longer (env : Env) (doc : list node) :
  html_parser_conforms env ->
  wf_document doc = true ->
  String.length (BingChatClone.parse_html env (render_document doc))
  <= String.length (render_document doc).
Proof.
  intros Hconf Hwf.
  rewrite (parse_html_render env doc Hconf Hwf).
  unfold wf_document in Hwf. apply andb_prop in Hwf as [Hwf _].
  apply forallb_Forall_true in Hwf.
  unfold visible_text, render_document. apply length_concat_le; [|exact Hwf].
  apply Forall_all. intros n Hn. apply length_visible_text. exact Hn.
Qed.

Lemma parse_html_not_longer_witness :
  html_parser_conforms env_html
  /\ String.length (BingChatClone.parse_html env_html "<b>1 </b><!-- <i> -->")
     <= String.length "<b>1 </b><!-- <i> -->".
Proof.
  split; [exact env_html_conforms|].
  exact (parse_html_not_longer env_html
           [Element "b" [] [Text "1 "]; CommentNode " <i> "]
           env_html_conforms eq_refl).
Defined.

(** *** Pages without markup, and extracting twice *)

Lemma parse_html_text (env : Env) (s : string) :
  html_parser_conforms env ->
  s <> "" -> all_ascii s = true -> no_markup s = true ->
  BingChatClone.parse_html env s = collapse false s.
Proof.
  intros Hconf Hne Hascii Hclean.
  assert (Hwf : wf_document [Text s] = true).
  { unfold wf_document. cbn [forallb wf_node no_adjacent_text].
    unfold no_markup in Hclean. rewrite Hclean, Hascii.
    destruct (s =? "") eqn:E; [apply String.eqb_eq in E; contradiction|reflexivity]. }
  generalize (parse_html_render env [Text s] Hconf Hwf).
  unfold render_document, visible_text. cbn [map String.concat visible_text_of render].
  intros ->. reflexivity.
Qed.

(** X18: a page without any markup character comes back as it is, unless
    it is only white space: then it comes back as one line break when it
    holds a line break and as one space otherwise.  The empty page gives
    the empty text. *)
Theorem parse_html_plain_text (env : Env) :
  html_parser_conforms env ->
  BingChatClone.parse_html env "" = ""
  /\ (forall s, s <> "" -> all_ascii s = true -> no_markup s = true ->
        BingChatClone.parse_html env s
        = if strippable s
          then (if contains_char (ascii_of_nat 10) s then nl else " ")
          else s).
Proof.
  intros Hconf. split.
  - exact (parse_html_render env [] Hconf eq_refl).
  - intros s Hne Hascii Hclean. rewrite (parse_html_text env s Hconf Hne Hascii Hclean).
    unfold collapse. cbn [negb andb]. reflexivity.
Qed.

Lemma parse_html_plain_text_witness :
  html_parser_conforms env_html
  /\ BingChatClone.parse_html env_html "10 euros" = "10 euros"
  /\ BingChatClone.parse_html env_html "   " = " ".
Proof.
  split; [exact env_html_conforms|]. split.
  - refine (proj2 (parse_html_plain_text env_html env_html_conforms) "10 euros" _
              eq_refl eq_refl).
    discriminate.
  - refine (proj2 (parse_html_plain_text env_html env_html_conforms) "   " _
              eq_refl eq_refl).
    discriminate.
Defined.

(** X19: for a page that is a well-formed document of the fragment of
    HTML described above, which has no character references, and that
    holds no CDATA section, extracting the text of the text that was
    extracted changes nothing, provided the text holds a character that
    is no white space; a text of white space only, which can come from
    several elements, shrinks to one space or one line break.  (A
    character reference or a CDATA section can bring markup into the
    text, and a second extraction removes it: the page of the last
    statement gives ["<b>x</b>"] and then ["x"].) *)
Theorem parse_html_twice (env : Env) (doc : list node) :
  html_parser_conforms env ->
  wf_document doc = true ->
  forallb cdata_free doc = true ->
  let text := BingChatClone.parse_html env (render_document doc) in
  (strippable text = false -> BingChatClone.parse_html env text = text)
  /\ (strippable text = true ->
        BingChatClone.parse_html env text
        = if (text =? "")%string then ""
          else if contains_char (ascii_of_nat 10) text then nl else " ")
  /\ BingChatClone.parse_html env "<![CDATA[<b>x</b>]]>" = "<b>x</b>"
  /\ BingChatClone.parse_html env "<b>x</b>" = "x".
Proof.
  intros Hconf Hwf Hfree. cbv zeta.
  destruct (parse_html_no_markup_facts env doc Hconf Hwf Hfree) as (Hclean & Hascii).
  set (text := BingChatClone.parse_html env (render_document doc)) in *.
  split; [|split; [|split]].
  - intros Hs.
    assert (Hne : text <> "") by (intros E; rewrite E in Hs; discriminate Hs).
    rewrite (parse_html_text env text Hconf Hne Hascii Hclean).
    unfold collapse. rewrite Hs. reflexivity.
  - intros Hs. destruct (text =? "") eqn:E.
    + apply String.eqb_eq in E. rewrite E.
      exact (parse_html_render env [] Hconf eq_refl).
    + apply String.eqb_neq in E.
      rewrite (parse_html_text env text Hconf E Hascii Hclean).
      unfold collapse. rewrite Hs. reflexivity.
  - exact (parse_html_render env [CDataNode "<b>x</b>"] Hconf eq_refl).
  - exact (parse_html_render env [Element "b" [] [Text "x"]] Hconf eq_refl).
Qed.

Lemma parse_html_twice_witness :
  html_parser_conforms env_html
  /\ BingChatClone.parse_html env_html "<b> </b><i> </i>" = "  "
  /\ BingChatClone.parse_html env_html
       (BingChatClone.parse_html env_html "<b> </b><i> </i>") = " ".
Proof.
  split; [exact env_html_conforms|]. split; [reflexivity|].
  exact (proj1 (proj2 (parse_html_twice env_html
                  [Element "b" [] [Text " "]; Element "i" [] [Text " "]]
                  env_html_conforms eq_refl eq_refl)) eq_refl).
Defined.

(** *** Pages that end before their elements do *)

(** X20: the end tags of the outermost elements may be left out at the end
    of a page: start tags without attributes that are never closed,
    followed by a well-formed document, give the text of the document
    with these elements closed around it. *)
Theorem parse_html_unclosed_elements (env : Env) (names : list string) (doc : list node) :
  html_parser_conforms env ->
  forallb plain_name names = true ->
  wf_document doc = true ->
  BingChatClone.parse_html env (open_tags names ++ render_document doc)
  = BingChatClone.parse_html env (render_document (nest names doc)).
Proof.
  intros Hconf Hp Hwf.
  rewrite (parse_html_render env _ Hconf (wf_nest names doc Hp Hwf)).
  apply parse_html_unclosed; assumption.
Qed.

Lemma parse_html_unclosed_elements_witness :
  html_parser_conforms env_html
  /\ BingChatClone.parse_html env_html "<html><body><p>Hello<script>evil()</script>"
     = BingChatClone.parse_html env_html
         "<html><body><p>Hello<script>evil()</script></p></body></html>"
  /\ BingChatClone.parse_html env_html "<html><body><p>Hello<script>evil()</script>"
     = "Hello".
Proof.
  split; [exact env_html_conforms|]. split; [|reflexivity].
  exact (parse_html_unclosed_elements env_html ["html"; "body"; "p"]
           [Text "Hello"; ScriptElement [] "evil()"] env_html_conforms eq_refl eq_refl).
Defined.

(** *** An end tag that closes nothing *)

Lemma clean_endtag (name rest : string) : clean ("</" ++ name ++ ">" ++ rest).
Proof.
  reflexivity.
Qed.

Lemma HTMLParser_feed_stray (d1 d2 : list node) (name : string) :
  wf_document d1 = true -> wf_document d2 = true -> is_name name = true ->
  HTMLParser_feed (render_document d1 ++ "</" ++ name ++ ">" ++ render_document d2)
  = Some (flat_map tokens d1 ++ handle_endtag (lower name) :: flat_map tokens d2)%list.
Proof.
  intros Hwf1 Hwf2 Hn.
  unfold wf_document in Hwf1, Hwf2.
  apply andb_prop in Hwf1 as [Hwf1 Hadj1]. apply andb_prop in Hwf2 as [Hwf2 Hadj2].
  destruct (is_name_facts name Hn) as (_ & _ & Ha).
  unfold HTMLParser_feed.
  rewrite !all_ascii_app, (all_ascii_render_document d1 Hwf1),
    (all_ascii_render_document d2 Hwf2), Ha.
  cbn [all_ascii andb Nat.ltb Nat.leb code nat_of_ascii].
  pose proof (length_concat_cost d1 (Forall_all _ _ cost_le_length) Hwf1) as Hc1.
  pose proof (length_concat_cost d2 (Forall_all _ _ cost_le_length) Hwf2) as Hc2.
  fold (render_document d1) in Hc1. fold (render_document d2) in Hc2.
  assert (exists k,
            S (String.length (render_document d1 ++ "</" ++ name ++ ">" ++ render_document d2))
            = total_cost d1 + S (total_cost d2 + S k)) as [k ->].
  { rewrite !length_append. cbn [String.length].
    exists (String.length (render_document d1) - total_cost d1
            + (String.length (render_document d2) - total_cost d2)
            + String.length name + 2). lia. }
  rewrite (goahead_nodes d1 (Forall_all _ _ goahead_node) Hwf1 Hadj1)
    by apply clean_endtag.
  rewrite (goahead_endtag _ name _ Hn).
  rewrite <- (append_nil_r (render_document d2)).
  rewrite (goahead_nodes d2 (Forall_all _ _ goahead_node) Hwf2 Hadj2) by exact I.
  cbn. rewrite app_nil_r. reflexivity.
Qed.

Lemma add_kids_root (kids acc : list PageElement) (ac : list string) :
  add_kids kids (mk_builder [] acc [] ac) = mk_builder [] (rev kids ++ acc)%list [] ac.
Proof.
  revert acc. induction kids as [|k kids IH]; intros acc; [reflexivity|].
  change (add_kids (k :: kids) (mk_builder [] acc [] ac))
    with (add_kids kids (mk_builder [] (k :: acc) [] ac)).
  rewrite IH. cbn [rev]. rewrite <- app_assoc. reflexivity.
Qed.

Lemma build_stray (d1 d2 : list node) (name : string) :
  wf_document d1 = true -> wf_document d2 = true -> plain_name name = true ->
  build (flat_map tokens d1 ++ handle_endtag (lower name) :: flat_map tokens d2)
  = Tag ROOT_TAG_NAME (map (tree false) d1 ++ map (tree false) d2).
Proof.
  intros Hwf1 Hwf2 Hname.
  destruct (plain_name_split name Hname) as (Hn & _ & _ & Hvoid).
  unfold wf_document in Hwf1, Hwf2.
  apply andb_prop in Hwf1 as [Hwf1 Hadj1]. apply andb_prop in Hwf2 as [Hwf2 Hadj2].
  assert (Hr : settled reset) by (repeat split; constructor).
  pose proof (run_nodes d1 (Forall_all _ _ run_node) Hwf1 Hadj1 reset Hr) as H1.
  change (preserving_whitespace reset) with false in H1.
  unfold reset in H1 at 2. rewrite add_kids_root, app_nil_r in H1.
  unfold note_closed in H1.
  cbn [tagStack root_kids current_data already_closed_empty_element app] in H1.
  unfold build.
  fold (run (flat_map tokens d1 ++ handle_endtag (lower name) :: flat_map tokens d2) reset).
  change (handle_endtag (lower name) :: flat_map tokens d2)
    with ([handle_endtag (lower name)] ++ flat_map tokens d2)%list.
  rewrite !run_app.
  change (run [handle_endtag (lower name)] (run (flat_map tokens d1) reset))
    with (on_event (handle_endtag (lower name)) (run (flat_map tokens d1) reset)).
  cbn [on_event].
  assert (Hclosed : mem_string (lower name)
                      (already_closed_empty_element (run (flat_map tokens d1) reset)) = false).
  { rewrite <- (already_closed_endData None), H1.
    cbn [already_closed_empty_element]. apply not_closed; [|exact Hvoid].
    apply closed_tags_void_all. exact Hwf1. }
  rewrite Hclosed. unfold soup_handle_endtag. rewrite H1.
  unfold _popToTag. rewrite (lower_name_not_root name Hn).
  cbn [tagStack map mem_string existsb].
  set (b1 := mk_builder [] (rev (map (tree false) d1)) [] (flat_map closed_tags d1)).
  assert (Hb1 : settled b1).
  { repeat split. apply closed_tags_void_all. exact Hwf1. }
  fold (run (flat_map tokens d2) b1).
  rewrite (run_nodes d2 (Forall_all _ _ run_node) Hwf2 Hadj2 b1 Hb1).
  change (preserving_whitespace b1) with false.
  unfold b1. rewrite add_kids_root. unfold note_closed.
  cbn [tagStack root_kids current_data already_closed_empty_element List.length close_all].
  rewrite rev_app_distr, !rev_involutive. reflexivity.
Qed.

(** X21: an end tag that closes nothing is ignored: standing between two
    well-formed documents it only separates them, also when the first
    ends and the second begins with text, and the text of the page is the
    text of the first document followed by the text of the second. *)
Theorem parse_html_stray_end_tag (env : Env) (d1 d2 : list node) (name : string) :
  html_parser_conforms env ->
  wf_document d1 = true ->
  wf_document d2 = true ->
  plain_name name = true ->
  BingChatClone.parse_html env
    (render_document d1 ++ "</" ++ name ++ ">" ++ render_document d2)
  = BingChatClone.parse_html env (render_document d1)
    ++ BingChatClone.parse_html env (render_document d2).
Proof.
  intros Hconf Hwf1 Hwf2 Hname.
  destruct (plain_name_split name Hname) as (Hn & _).
  rewrite (parse_html_render env d1 Hconf Hwf1), (parse_html_render env d2 Hconf Hwf2).
  unfold BingChatClone.parse_html, BingChatClone.BeautifulSoup, BingChatClone.decoded.
  rewrite (Hconf _ _ (HTMLParser_feed_stray d1 d2 name Hwf1 Hwf2 Hn)).
  rewrite (build_stray d1 d2 name Hwf1 Hwf2 Hname), <- map_app.
  rewrite get_text_document. unfold visible_text. rewrite map_app. apply concat_app.
Qed.

Lemma parse_html_stray_end_tag_witness :
  html_parser_conforms env_html
  /\ BingChatClone.parse_html env_html "10 </p> euros" = "10 " ++ " euros".
Proof.
  split; [exact env_html_conforms|].
  exact (parse_html_stray_end_tag env_html [Text "10 "] [Text " euros"] "p"
           env_html_conforms eq_refl eq_refl eq_refl).
Defined.
